(** * Douban movie spider: normalisation, merging, deduplication, persistence

    A shallow embedding of [douban_movie_spider.py] (class
    [DoubanMovieSpider]) and the properties of its extraction,
    normalisation and persistence pipeline.

    Python values are embedded as follows.
    - [str] is a sequence of Unicode code points ([list N]); literals are
      written [py "..."] and decoded from UTF-8.
    - a [dict] is an association list in insertion order ([record]):
      assignment to a present key keeps its position, a new key goes last.
    - an exception is a [Raise] in the [result] monad.
    - the primitives of the interpreter that the program calls ([float],
      [int], [str] of a float, the digit class of [re], [repr] of a string,
      [urljoin]) are the fields of the class [Runtime]. *)

From Stdlib Require Import ZArith NArith String Ascii Lia.
From stdpp Require Import base option list gmap.

Set Warnings "-register-all".
Local Open Scope N_scope.

(** ** Text *)

Abbreviation char := N (only parsing).
Abbreviation str := (list N) (only parsing).

Fixpoint bytes_of_string (s : string) : list N :=
  match s with
  | EmptyString => []
  | String a s' => N_of_ascii a :: bytes_of_string s'
  end.

(** UTF-8 decoding of a literal (well-formed input is all that is used). *)
Fixpoint utf8_decode (bs : list N) : str :=
  match bs with
  | [] => []
  | b0 :: r0 =>
    if b0 <? 128 then b0 :: utf8_decode r0
    else match r0 with
      | [] => []
      | b1 :: r1 =>
        if b0 <? 224 then ((b0 - 192) * 64 + (b1 - 128)) :: utf8_decode r1
        else match r1 with
          | [] => []
          | b2 :: r2 =>
            if b0 <? 240
            then ((b0 - 224) * 4096 + (b1 - 128) * 64 + (b2 - 128)) :: utf8_decode r2
            else match r2 with
              | [] => []
              | b3 :: r3 =>
                ((b0 - 240) * 262144 + (b1 - 128) * 4096 + (b2 - 128) * 64 + (b3 - 128))
                  :: utf8_decode r3
              end
          end
      end
  end.

Definition py (s : string) : str := utf8_decode (bytes_of_string s).
Arguments py s%_string_scope : simpl never.

(** [str.isspace] of one character: the characters [str.strip()] removes. *)
Definition isspace (c : char) : bool :=
  ((9 <=? c) && (c <=? 13)) || ((28 <=? c) && (c <=? 32))
  || (c =? 133) || (c =? 160) || (c =? 5760)
  || ((8192 <=? c) && (c <=? 8202))
  || (c =? 8232) || (c =? 8233) || (c =? 8239) || (c =? 8287) || (c =? 12288).

Definition nonempty {A} (l : list A) : bool :=
  match l with [] => false | _ => true end.

Fixpoint lstrip_by (p : char -> bool) (s : str) : str :=
  match s with
  | [] => []
  | c :: s' => if p c then lstrip_by p s' else s
  end.

Definition rstrip_by (p : char -> bool) (s : str) : str :=
  rev (lstrip_by p (rev s)).

(** [s.strip()] *)
Definition strip (s : str) : str := rstrip_by isspace (lstrip_by isspace s).

(** [s.rstrip(chars)] *)
Definition rstrip_chars (chars : str) (s : str) : str :=
  rstrip_by (fun c => bool_decide (c ∈ chars)) s.

(** [s.split(sep)] for a one-character separator. *)
Fixpoint split_on (sep : char) (s : str) : list str :=
  match s with
  | [] => [[]]
  | c :: s' =>
    if c =? sep then [] :: split_on sep s'
    else match split_on sep s' with
         | w :: ws => (c :: w) :: ws
         | [] => [[c]]
         end
  end.

Fixpoint starts_with (p s : str) : bool :=
  match p, s with
  | [], _ => true
  | _ :: _, [] => false
  | a :: p', b :: s' => (a =? b) && starts_with p' s'
  end.

(** [s.split(sep)] for a separator of any positive length; [skip] counts the
    characters of a separator occurrence still to be passed over. *)
Fixpoint split_str_go (sep : str) (skip : nat) (cur : str) (s : str) : list str :=
  match s with
  | [] => [rev cur]
  | c :: s' =>
    match skip with
    | S k => split_str_go sep k cur s'
    | O =>
      if starts_with sep s
      then rev cur :: split_str_go sep (length sep - 1) [] s'
      else split_str_go sep 0 (c :: cur) s'
    end
  end.

Definition split_str (sep s : str) : list str := split_str_go sep 0 [] s.

(** [sep.join(l)] *)
Fixpoint join (sep : str) (l : list str) : str :=
  match l with
  | [] => []
  | x :: l' =>
    match l' with
    | [] => x
    | _ :: _ => x ++ sep ++ join sep l'
    end
  end.

(** [needle in s] for strings *)
Fixpoint contains (needle s : str) : bool :=
  starts_with needle s ||
  match s with
  | [] => false
  | _ :: s' => contains needle s'
  end.

(** [s.replace(c, '')] for a one-character [c] *)
Definition remove_char (c : char) (s : str) : str :=
  filter (fun x => x ≠ c) s.

(** [[a.strip() for a in s.split(',') if a.strip()]] *)
Definition name_list (s : str) : list str :=
  filter (fun a => a ≠ []) (strip <$> split_on 44 s).

(** Decimal text of an integer: [str(n)] for an [int]. *)
Definition digit_char (d : N) : char := 48 + d.

Fixpoint str_of_pos_go (fuel : nat) (n : N) (acc : str) : str :=
  match fuel with
  | O => acc
  | S fuel' =>
    if n <? 10 then digit_char n :: acc
    else str_of_pos_go fuel' (n / 10) (digit_char (n mod 10) :: acc)
  end.

Definition str_of_N (n : N) : str := str_of_pos_go (S (N.to_nat (N.log2 n))) n [].

Definition str_of_Z (z : Z) : str :=
  match z with
  | Z0 => [48]
  | Zpos p => str_of_N (Npos p)
  | Zneg p => 45 :: str_of_N (Npos p)
  end.

(** ** The interpreter's primitives *)

(** What the program uses of Python's numbers and libraries.  [None] stands
    for the exception the primitive raises ([ValueError] from [float(s)] and
    [int(s)], [OverflowError] from [float(n)] and [int(f)]). *)
Class Runtime := {
  float : Type;
  float_zero : float;                      (* 0.0 *)
  float_truthy : float -> bool;            (* bool(f) *)
  float_of_str : str -> option float;      (* float(s) *)
  float_of_Z : Z -> option float;          (* float(n) *)
  str_of_float : float -> str;             (* str(f) *)
  int_of_float : float -> option Z;        (* int(f) *)
  int_of_str : str -> option Z;            (* int(s) *)
  isdecimal : char -> bool;                (* the class \d of re *)
  repr_of_str : str -> str;                (* repr(s) *)
  urljoin : str -> str -> str;             (* urllib.parse.urljoin *)
  float_zero_falsy : float_truthy float_zero = false
}.

(** ** Regular expressions

    The patterns of the program are sequences of quantified one-character
    atoms; [captured] marks the atoms inside the group. *)

Inductive atom :=
| Lit (c : char)   (* a literal character *)
| Digit.           (* \d *)

Record piece := Piece {
  piece_atom : atom;
  piece_min : nat;
  piece_max : option nat;   (* None: unbounded *)
  captured : bool
}.

Section Regex.
Context `{RT : Runtime}.

Definition atom_matches (a : atom) (c : char) : bool :=
  match a with
  | Lit c' => c =? c'
  | Digit => isdecimal c
  end.

(** Length of the longest run of [a] at the head of [s], at most [bound]. *)
Fixpoint run_length (a : atom) (bound : option nat) (s : str) : nat :=
  match s with
  | [] => O
  | c :: s' =>
    if atom_matches a c then
      match bound with
      | Some O => O
      | Some (S b) => S (run_length a (Some b) s')
      | None => S (run_length a None s')
      end
    else O
  end.

(** Anchored match with backtracking, greedy quantifiers; the result is
    the text of the group. *)
Fixpoint match_here (ps : list piece) (s : str) : option str :=
  match ps with
  | [] => Some []
  | p :: ps' =>
    (fix try (k : nat) : option str :=
       if (k <? piece_min p)%nat then None
       else match match_here ps' (drop k s) with
            | Some g => Some ((if captured p then take k s else []) ++ g)
            | None => match k with
                      | O => None
                      | S k' => try k'
                      end
            end)
      (run_length (piece_atom p) (piece_max p) s)
  end.

(** [re.search(pattern, s).group(1)], [None] when there is no match. *)
Fixpoint re_search (ps : list piece) (s : str) : option str :=
  match match_here ps s with
  | Some g => Some g
  | None => match s with
            | [] => None
            | _ :: s' => re_search ps s'
            end
  end.
End Regex.

Definition lits (captured : bool) (s : str) : list piece :=
  (fun c => Piece (Lit c) 1 (Some 1%nat) captured) <$> s.

Definition digits (lo : nat) (hi : option nat) (captured : bool) : list piece :=
  [Piece Digit lo hi captured].

(** r'\d+' *)
Definition re_number : list piece := digits 1 None true.
(** r'/subject/(\d+)/' *)
Definition re_subject : list piece :=
  lits false (py "/subject/") ++ digits 1 None true ++ lits false (py "/").
(** r'(\d{4}-\d{1,2}-\d{1,2})' *)
Definition re_date_full : list piece :=
  digits 4 (Some 4%nat) true ++ lits true (py "-") ++ digits 1 (Some 2%nat) true
  ++ lits true (py "-") ++ digits 1 (Some 2%nat) true.
(** r'(\d{4}-\d{1,2})' *)
Definition re_date_month : list piece :=
  digits 4 (Some 4%nat) true ++ lits true (py "-") ++ digits 1 (Some 2%nat) true.
(** r'(\d{4})' *)
Definition re_year : list piece := digits 4 (Some 4%nat) true.

(** ** Exceptions *)

Inductive exn := AttributeError | TypeError | ValueError | OverflowError | KeyError.

Inductive result (A : Type) :=
| Ok (a : A)
| Raise (e : exn).
Arguments Ok {A} a.
Arguments Raise {A} e.

Global Instance result_ret : MRet result := fun A a => Ok a.
Global Instance result_bind : MBind result := fun A B f m =>
  match m with
  | Ok a => f a
  | Raise e => Raise e
  end.

Definition of_option {A} (e : exn) (o : option A) : result A :=
  match o with
  | Some a => Ok a
  | None => Raise e
  end.

(** [try: ... except Exception: default] *)
Definition catch {A} (m : result A) (default : A) : A :=
  match m with
  | Ok a => a
  | Raise _ => default
  end.

(** ** Values and dictionaries *)

Section Values.
Context `{RT : Runtime}.

Inductive value :=
| VNone
| VBool (b : bool)
| VInt (z : Z)
| VFloat (f : float)
| VStr (s : str)
| VList (l : list value)
| VDict (d : list (str * value)).

(** [bool(v)] *)
Definition truthy (v : value) : bool :=
  match v with
  | VNone => false
  | VBool b => b
  | VInt z => negb (z =? 0)%Z
  | VFloat f => float_truthy f
  | VStr s => nonempty s
  | VList l => nonempty l
  | VDict d => nonempty d
  end.

(** [repr(v)], and [str(v)] which differs on strings only. *)
Fixpoint py_repr (v : value) : str :=
  match v with
  | VNone => py "None"
  | VBool true => py "True"
  | VBool false => py "False"
  | VInt z => str_of_Z z
  | VFloat f => str_of_float f
  | VStr s => repr_of_str s
  | VList l => py "[" ++ join (py ", ") (map py_repr l) ++ py "]"
  | VDict d =>
    py "{" ++ join (py ", ")
      (map (fun kv : str * value => let (k, x) := kv in repr_of_str k ++ py ": " ++ py_repr x) d)
    ++ py "}"
  end.

Definition py_str (v : value) : str :=
  match v with
  | VStr s => s
  | _ => py_repr v
  end.

(** [float(v)] *)
Definition py_float (v : value) : result float :=
  match v with
  | VFloat f => Ok f
  | VInt z => of_option OverflowError (float_of_Z z)
  | VBool b => of_option OverflowError (float_of_Z (if b then 1 else 0))
  | VStr s => of_option ValueError (float_of_str s)
  | _ => Raise TypeError
  end.

(** [int(v)] *)
Definition py_int (v : value) : result Z :=
  match v with
  | VInt z => Ok z
  | VBool b => Ok (if b then 1 else 0)%Z
  | VFloat f => of_option OverflowError (int_of_float f)
  | VStr s => of_option ValueError (int_of_str s)
  | _ => Raise TypeError
  end.

(** [isinstance(v, int)]: [bool] is a subclass of [int]. *)
Definition is_int (v : value) : bool :=
  match v with
  | VInt _ | VBool _ => true
  | _ => false
  end.

(** A string method called on [v] ([v.split], [v.strip], [v.replace]). *)
Definition as_str (v : value) : result str :=
  match v with
  | VStr s => Ok s
  | _ => Raise AttributeError
  end.

Abbreviation record := (list (str * value)) (only parsing).

(** [d.get(k)] as an option: [None] when [k not in d]. *)
Fixpoint dget (k : str) (d : record) : option value :=
  match d with
  | [] => None
  | (k', v) :: d' => if decide (k = k') then Some v else dget k d'
  end.

(** [d[k] = v] *)
Fixpoint dset (k : str) (v : value) (d : record) : record :=
  match d with
  | [] => [(k, v)]
  | (k', v') :: d' =>
    if decide (k = k') then (k, v) :: d' else (k', v') :: dset k v d'
  end.

(** [del d[k]] for a present key; no effect otherwise. *)
Fixpoint ddel (k : str) (d : record) : record :=
  match d with
  | [] => []
  | (k', v') :: d' =>
    if decide (k = k') then ddel k d' else (k', v') :: ddel k d'
  end.

(** [k in d] *)
Definition has (k : str) (d : record) : bool :=
  match dget k d with Some _ => true | None => false end.

(** [d.get(k)] *)
Definition get (k : str) (d : record) : value := default VNone (dget k d).

(** [d.get(k, dflt)] *)
Definition get_or (k : str) (dflt : value) (d : record) : value :=
  default dflt (dget k d).

(** [v.get(k, dflt)] on a value that should be a dict. *)
Definition vget_or (k : str) (dflt : value) (v : value) : result value :=
  match v with
  | VDict d => Ok (get_or k dflt d)
  | _ => Raise AttributeError
  end.

(** [needle in v] *)
Definition py_in (needle : str) (v : value) : result bool :=
  match v with
  | VStr s => Ok (contains needle s)
  | VList l =>
    Ok (existsb (fun x => match x with
                          | VStr s => bool_decide (s = needle)
                          | _ => false
                          end) l)
  | VDict d => Ok (has needle d)
  | _ => Raise TypeError
  end.

(** [len(v)] *)
Definition py_len (v : value) : result nat :=
  match v with
  | VStr s => Ok (length s)
  | VList l => Ok (length l)
  | VDict d => Ok (length d)
  | _ => Raise TypeError
  end.
End Values.

Abbreviation record := (list (list N * value)) (only parsing).

(** ** The field normaliser ([normalize_movie_data]) *)

Definition FIELD_ORDER : list str :=
  [ py "movie_id"; py "title";
    py "rating"; py "total_ratings";
    py "directors"; py "actors"; py "screenwriters";
    py "release_date"; py "genres"; py "countries"; py "languages"; py "runtime";
    py "summary"; py "tags";
    py "imdb"; py "link"; py "category"; py "box_office";
    py "poster" ].

Definition rating_star_keys : list str :=
  [ py "rating_5star"; py "rating_4star"; py "rating_3star";
    py "rating_2star"; py "rating_1star" ].

Section Normalizer.
Context `{RT : Runtime}.

(** Steps 3, 4, 5: keep the first names of a comma-separated field. *)
Definition limit_names (field : str) (keep : list str -> str)
    (movie : record) : result record :=
  if has field movie && truthy (get field movie) then
    s ← as_str (get field movie);
    let names := name_list s in
    if nonempty names then Ok (dset field (VStr (keep names)) movie)
    else Ok movie
  else Ok movie.

(** [', '.join(actors_list[:5])] *)
Definition keep_five (names : list str) : str := join (py ", ") (take 5 names).
(** [directors_list[0]] *)
Definition keep_first (names : list str) : str := default [] (head names).

(** Step 9.5: the rating as a float. *)
Definition coerce_rating (movie : record) : record :=
  if has (py "rating") movie && truthy (get (py "rating") movie) then
    let rating_str := strip (py_str (get (py "rating") movie)) in
    if nonempty rating_str then
      match float_of_str rating_str with
      | Some f => dset (py "rating") (VFloat f) movie
      | None => dset (py "rating") (VFloat float_zero) movie
      end
    else dset (py "rating") (VFloat float_zero) movie
  else if negb (has (py "rating") movie) then
    dset (py "rating") (VFloat float_zero) movie
  else movie.

(** [re.findall(r'\d+', text.replace(',', '').replace('，', ''))], then
    [int(numbers[0])] with 0 when there is no number or [int] fails. *)
Definition count_of_text (text : str) : Z :=
  match re_search re_number (remove_char 65292 (remove_char 44 text)) with
  | Some number => default 0%Z (int_of_str number)
  | None => 0%Z
  end.

(** Step 10: [people] becomes [total_ratings]. *)
Definition derive_total_ratings (movie : record) : result record :=
  if has (py "people") movie && truthy (get (py "people") movie) then
    people_text ← as_str (get (py "people") movie);
    Ok (ddel (py "people")
          (dset (py "total_ratings") (VInt (count_of_text people_text)) movie))
  else if negb (has (py "total_ratings") movie) then
    Ok (dset (py "total_ratings") (VInt 0) movie)
  else match get (py "total_ratings") movie with
       | VStr s => Ok (dset (py "total_ratings") (VInt (count_of_text s)) movie)
       | _ => Ok movie
       end.

(** The identifier in the link: the digits of [/subject/<digits>/], 0
    when the link is missing or has none. *)
Definition link_movie_id (movie : record) : result Z :=
  if has (py "link") movie && truthy (get (py "link") movie) then
    match get (py "link") movie with
    | VStr link =>
      match re_search re_subject link with
      | Some id => Ok (default 0%Z (int_of_str id))
      | None => Ok 0%Z
      end
    | _ => Raise TypeError
    end
  else Ok 0%Z.

(** Step 10.5: [movie_id] from the link, or made an integer. *)
Definition derive_movie_id (movie : record) : result record :=
  if negb (has (py "movie_id") movie) || negb (truthy (get (py "movie_id") movie)) then
    id ← link_movie_id movie;
    Ok (dset (py "movie_id") (VInt id) movie)
  else
    match get (py "movie_id") movie with
    | VStr s =>
      if nonempty (strip s)
      then Ok (dset (py "movie_id") (VInt (default 0%Z (int_of_str s))) movie)
      else Ok (dset (py "movie_id") (VInt 0) movie)
    | v => if is_int v then Ok movie else Ok (dset (py "movie_id") (VInt 0) movie)
    end.

(** Step 11: a field holding mis-scraped text is emptied. *)
Definition clean_text_field (field : str) (movie : record) : result record :=
  if has field movie && truthy (get field movie) then
    let text := get field movie in
    has_director ← py_in (py "导演") text;
    if has_director : bool then Ok (dset field (VStr []) movie)
    else
      has_actor ← py_in (py "主演") text;
      if has_actor : bool then Ok (dset field (VStr []) movie)
      else
        n ← py_len text;
        if (200 <? n)%nat then Ok (dset field (VStr []) movie) else Ok movie
  else Ok movie.

(** The date of one release entry: full date, else year and month, else
    year. *)
Definition date_of_entry (first_date : str) : option str :=
  match re_search re_date_full first_date with
  | Some d => Some d
  | None =>
    match re_search re_date_month first_date with
    | Some d => Some d
    | None => re_search re_year first_date
    end
  end.

(** Step 12, first part: [release_dates] collapses to [release_date]. *)
Definition collapse_release_dates (movie : record) : result record :=
  if has (py "release_dates") movie && truthy (get (py "release_dates") movie) then
    release_dates ← as_str (get (py "release_dates") movie);
    let movie :=
      match name_list release_dates with
      | first_date :: _ =>
        match date_of_entry first_date with
        | Some d => dset (py "release_date") (VStr d) movie
        | None => movie
        end
      | [] => movie
      end in
    Ok (ddel (py "release_dates") movie)
  else if negb (has (py "release_date") movie)
          || negb (truthy (get (py "release_date") movie)) then
    if has (py "release_year") movie && truthy (get (py "release_year") movie) then
      Ok (ddel (py "release_year")
            (dset (py "release_date") (get (py "release_year") movie) movie))
    else if has (py "info") movie && truthy (get (py "info") movie) then
      match get (py "info") movie with
      | VStr info =>
        match re_search re_year info with
        | Some year_str =>
          year ← of_option ValueError (int_of_str year_str);
          if ((1900 <=? year) && (year <=? 2100))%Z
          then Ok (dset (py "release_date") (VStr year_str) movie)
          else Ok movie
        | None => Ok movie
        end
      | _ => Raise TypeError
      end
    else Ok movie
  else Ok movie.

(** Step 12, second part: an integer [release_date] becomes its text. *)
Definition release_date_as_str (movie : record) : record :=
  if has (py "release_date") movie && is_int (get (py "release_date") movie)
  then dset (py "release_date") (VStr (py_str (get (py "release_date") movie))) movie
  else movie.

(** The body of [normalize_movie_data] up to the reordering: the updates
    it makes to [movie] in place. *)
Definition normalize_steps (movie : record) : result record :=
  let movie := ddel (py "rank") movie in
  let movie := ddel (py "other_titles") movie in
  movie ← limit_names (py "actors") keep_five movie;
  movie ← limit_names (py "directors") keep_first movie;
  movie ← limit_names (py "screenwriters") keep_first movie;
  let movie := ddel (py "also_known_as") movie in
  let movie := foldl (fun m key => ddel key m) movie rating_star_keys in
  let movie := ddel (py "quote") movie in
  let movie := ddel (py "info") movie in
  let movie := ddel (py "category") movie in
  let movie := ddel (py "rating_detail") movie in
  let movie := coerce_rating movie in
  movie ← derive_total_ratings movie;
  movie ← derive_movie_id movie;
  movie ← clean_text_field (py "countries") movie;
  movie ← clean_text_field (py "languages") movie;
  movie ← collapse_release_dates movie;
  let movie := release_date_as_str movie in
  Ok (ddel (py "release_year") movie).

(** The last two loops: the fields of [FIELD_ORDER] first, then the other
    keys in the order of [movie].  The keys of a dict are distinct, so
    each assignment to [ordered_movie] adds a key at the end. *)
Definition order_fields (movie : record) : record :=
  omap (fun field => pair field <$> dget field movie) FIELD_ORDER
  ++ filter (fun kv => kv.1 ∉ FIELD_ORDER) movie.

(** [normalize_movie_data(movie)]: the returned [ordered_movie]. *)
Definition normalize_movie_data (movie : record) : result record :=
  movie ← normalize_steps movie;
  Ok (order_fields movie).
End Normalizer.

(** ** The detail merger ([_merge_detail_info]) *)

Definition enrichable_fields : list str :=
  [ py "poster"; py "directors"; py "actors"; py "screenwriters"; py "genres";
    py "countries"; py "languages"; py "release_dates"; py "runtime";
    py "summary"; py "tags"; py "imdb" ].

Section Merger.
Context `{RT : Runtime}.

(** [if detail_info.get(field): movie[field] = detail_info[field]] *)
Definition merge_field (detail_info : record) (movie : record) (field : str) : record :=
  if truthy (get field detail_info)
  then dset field (get field detail_info) movie
  else movie.

(** The rating taken from [rating_detail['average']]. *)
Definition merge_average (rating_detail : value) (movie : record) : result record :=
  avg_rating ← vget_or (py "average") VNone rating_detail;
  if truthy avg_rating then
    match avg_rating with
    | VStr s =>
      match float_of_str s with
      | Some f => Ok (dset (py "rating") (VFloat f) movie)
      | None =>
        Ok (dset (py "rating") (get_or (py "rating") (VFloat float_zero) movie) movie)
      end
    | _ =>
      f ← py_float avg_rating;
      Ok (dset (py "rating") (VFloat f) movie)
    end
  else Ok movie.

(** The count taken from [rating_detail['total_ratings']]. *)
Definition merge_count (rating_detail : value) (movie : record) : result record :=
  count ← vget_or (py "total_ratings") VNone rating_detail;
  if truthy count then Ok (dset (py "total_ratings") count movie) else Ok movie.

Definition _merge_detail_info (movie detail_info : record) : result record :=
  if negb (nonempty detail_info) then Ok movie
  else
    let movie := foldl (merge_field detail_info) movie enrichable_fields in
    if truthy (get (py "rating_detail") detail_info) then
      let rating_detail := get (py "rating_detail") detail_info in
      movie ← merge_average rating_detail movie;
      merge_count rating_detail movie
    else Ok movie.
End Merger.

(** ** The persistence sink ([save_movie_line])

    A file is modelled by what a reader of its format gets from it: the
    records of a line-delimited file, the decoded document of a JSON file
    (or nothing decodable), the rows of cells of a CSV file.  A path is
    used for one format only. *)

Section Sink.
Context `{RT : Runtime}.

Inductive json_doc :=
| Undecodable (raw : str)   (* json.load raises *)
| Decoded (v : value).

Record files := Files {
  jsonl_files : gmap (list N) (list (list (list N * value)));
  json_files : gmap (list N) json_doc;
  csv_files : gmap (list N) (list (list (list N)))
}.

Record targets := Targets {
  jsonl_filename : option str;
  json_filename : option str;
  csv_filename : option str
}.

(** [if filename:] *)
Definition given (filename : option str) : option str :=
  match filename with
  | Some (c :: s) => Some (c :: s)
  | _ => None
  end.

(** One more line of a line-delimited file. *)
Definition append_jsonl (file : option (list record)) (movie : record) : list record :=
  default [] file ++ [movie].

(** The aggregate array, read, extended and rewritten. *)
Definition append_json (file : option json_doc) (movie : record) : json_doc :=
  match file with
  | Some (Decoded (VList existing_data)) =>
    Decoded (VList (existing_data ++ [VDict movie]))
  | Some (Decoded existing_data) => Decoded (VList [existing_data; VDict movie])
  | Some (Undecodable _) => Decoded (VList [VDict movie])
  | None => Decoded (VList [VDict movie])
  end.

(** The text of a cell: [None] is written as the empty cell. *)
Definition csv_cell (v : value) : str :=
  match v with
  | VNone => []
  | _ => py_str v
  end.

(** The header of a new file: the fields of [FIELD_ORDER] the record has,
    then its other keys. *)
Definition new_fieldnames (movie : record) : list str :=
  filter (fun field => has field movie = true) FIELD_ORDER
  ++ filter (fun key => key ∉ FIELD_ORDER) movie.*1.

(** [next(reader, [])] *)
Definition read_header (file : option (list (list str))) : list str :=
  match file with
  | Some (row :: _) => row
  | _ => []
  end.

Definition append_csv (file : option (list (list str))) (movie : record)
    : list (list str) :=
  let existing_fieldnames := read_header file in
  let fieldnames :=
    if nonempty existing_fieldnames then existing_fieldnames
    else new_fieldnames movie in
  let row := (fun field => csv_cell (get_or field (VStr []) movie)) <$> fieldnames in
  match file with
  | Some rows => rows ++ [row]
  | None => [fieldnames; row]
  end.

Definition write_jsonl (filename : option str) (movie : record) (fs : files) : files :=
  match given filename with
  | Some path =>
    Files (<[path := append_jsonl (jsonl_files fs !! path) movie]> (jsonl_files fs))
          (json_files fs) (csv_files fs)
  | None => fs
  end.

Definition write_json (filename : option str) (movie : record) (fs : files) : files :=
  match given filename with
  | Some path =>
    Files (jsonl_files fs)
          (<[path := append_json (json_files fs !! path) movie]> (json_files fs))
          (csv_files fs)
  | None => fs
  end.

Definition write_csv (filename : option str) (movie : record) (fs : files) : files :=
  match given filename with
  | Some path =>
    Files (jsonl_files fs) (json_files fs)
          (<[path := append_csv (csv_files fs !! path) movie]> (csv_files fs))
  | None => fs
  end.

(** [save_movie_line(movie, ...)].  The result holds the files and the
    caller's [movie], which the normalisation has updated in place. *)
Definition save_movie_line (fs : files) (movie : record) (t : targets)
    : result (files * record) :=
  updated ← normalize_steps movie;
  let movie := order_fields updated in
  let fs := write_jsonl (jsonl_filename t) movie fs in
  let fs := write_json (json_filename t) movie fs in
  let fs := write_csv (csv_filename t) movie fs in
  Ok (fs, updated).

(** [os.remove] of a file that exists. *)
Definition remove_jsonl (filename : option str) (fs : files) : files :=
  match given filename with
  | Some path => Files (delete path (jsonl_files fs)) (json_files fs) (csv_files fs)
  | None => fs
  end.

Definition remove_csv (filename : option str) (fs : files) : files :=
  match given filename with
  | Some path => Files (jsonl_files fs) (json_files fs) (delete path (csv_files fs))
  | None => fs
  end.
End Sink.

(** ** The crawl drivers *)

Definition base_url : str := py "https://movie.douban.com".

(** What a page fetch gives: the exception after the retries, or the page. *)
Inductive response (A : Type) :=
| FetchError
| Page (content : A).
Arguments FetchError {A}.
Arguments Page {A} content.

Section Drivers.
Context `{RT : Runtime}.

(** [parse_movie_detail]: the detail record scraped from the page of a
    link (empty when the page cannot be read). *)
Variable parse_movie_detail : value -> record.

(** [_process_movie_with_detail] *)
Definition _process_movie_with_detail (fs : files) (movie : record)
    (fetch_detail save_immediately : bool) (t : targets)
    : result (files * record) :=
  movie ←
    (if fetch_detail && truthy (get (py "link") movie) then
       let detail_info := parse_movie_detail (get (py "link") movie) in
       if nonempty detail_info then _merge_detail_info movie detail_info
       else Ok movie
     else Ok movie);
  movie ← normalize_movie_data movie;
  if save_immediately then save_movie_line fs movie t
  else Ok (fs, movie).

Definition no_targets : targets := Targets None None None.

(** The dedup key: the trimmed link, or the trimmed title. *)
Definition movie_key (movie : record) : result str :=
  if truthy (get (py "link") movie)
  then s ← as_str (get_or (py "link") (VStr []) movie); Ok (strip s)
  else s ← as_str (get_or (py "title") (VStr []) movie); Ok (strip s).

(** The state of a crawl: the shared dedup set, the files, and the result
    list of the running driver. *)
Record crawl_state := Crawl {
  existing_movies : gset (list N);
  stored : files;
  movies : list (list (list N * value))
}.

(** *** The Top 250 list *)

(** What [parse_movie_item] reads from one entry of the list page before
    it builds [movie_info]. *)
Record list_entry := ListEntry {
  entry_href : str;
  entry_poster : str;
  entry_title : str;
  entry_rating : float;
  entry_total_ratings : Z;
  entry_directors : str;
  entry_actors : str;
  entry_release_date : str
}.

(** [if link and not link.startswith('http'): link = urljoin(base_url, link)] *)
Definition absolute_link (link : str) : str :=
  if nonempty link && negb (starts_with (py "http") link)
  then urljoin base_url link
  else link.

Definition movie_info (e : list_entry) : record :=
  [ (py "title", VStr (entry_title e));
    (py "link", VStr (absolute_link (entry_href e)));
    (py "poster", VStr (entry_poster e));
    (py "rating", VFloat (entry_rating e));
    (py "total_ratings", VInt (entry_total_ratings e));
    (py "directors", VStr (entry_directors e));
    (py "actors", VStr (entry_actors e));
    (py "release_date", VStr (entry_release_date e));
    (py "summary", VStr []) ].

(** [parse_movie_item]; an entry that cannot be read is [None], and so is
    the result when anything raises. *)
Definition parse_movie_item (fs : files) (item : option list_entry)
    (fetch_detail : bool) : option record :=
  match item with
  | None => None
  | Some e =>
    match _process_movie_with_detail fs (movie_info e) fetch_detail false no_targets with
    | Ok (_, movie) => Some movie
    | Raise _ => None
    end
  end.

(** One entry of a page of [crawl_top250]; [Raise] carries the state at
    the exception, which leaves the page. *)
Definition top250_item (save_immediately fetch_detail : bool) (t : targets)
    (st : crawl_state) (item : option list_entry) : crawl_state + crawl_state :=
  match parse_movie_item (stored st) item fetch_detail with
  | Some movie =>
    if truthy (VDict movie) then
      match movie_key movie with
      | Ok movie_key =>
        if nonempty movie_key && bool_decide (movie_key ∉ existing_movies st) then
          let existing := {[movie_key]} ∪ existing_movies st in
          match _process_movie_with_detail (stored st) movie false save_immediately t with
          | Ok (fs, movie) => inl (Crawl existing fs (movies st ++ [movie]))
          | Raise _ => inr (Crawl existing (stored st) (movies st))
          end
        else inl st
      | Raise _ => inr st
      end
    else inl st
  | None => inl st
  end.

Fixpoint top250_items (save_immediately fetch_detail : bool) (t : targets)
    (st : crawl_state) (items : list (option list_entry)) : crawl_state :=
  match items with
  | [] => st
  | item :: rest =>
    match top250_item save_immediately fetch_detail t st item with
    | inl st' => top250_items save_immediately fetch_detail t st' rest
    | inr st' => st'
    end
  end.

(** The loop [for page in range(max_pages)] of [crawl_top250]. *)
Fixpoint top250_pages (site : nat -> response (list (option list_entry)))
    (save_immediately fetch_detail : bool) (t : targets)
    (st : crawl_state) (pages : list nat) : crawl_state :=
  match pages with
  | [] => st
  | page :: rest =>
    match site page with
    | FetchError => top250_pages site save_immediately fetch_detail t st rest
    | Page items =>
      if negb (nonempty items) then st
      else top250_pages site save_immediately fetch_detail t
             (top250_items save_immediately fetch_detail t st items) rest
    end
  end.

(** [crawl_top250]: the result list, the dedup set and the files. *)
Definition crawl_top250 (site : nat -> response (list (option list_entry)))
    (max_pages : nat) (fetch_detail save_immediately : bool) (t : targets)
    (existing : gset (list N)) (fs : files) : crawl_state :=
  let fs :=
    if save_immediately
    then remove_csv (csv_filename t) (remove_jsonl (jsonl_filename t) fs)
    else fs in
  top250_pages site save_immediately fetch_detail t (Crawl existing fs [])
    (seq 0 max_pages).

(** *** The JSON APIs, by category and by region *)

Inductive api_kind := ByCategory | ByRegion.

(** [a or b] *)
Definition py_or (a b : value) : value := if truthy a then a else b.

(** Iteration over a value. *)
Definition py_iter (v : value) : result (list value) :=
  match v with
  | VList l => Ok l
  | VDict d => Ok (VStr <$> d.*1)
  | VStr s => Ok ((fun c => VStr [c]) <$> s)
  | _ => Raise TypeError
  end.

(** The identifier of an item: its [id], or the end of its [uri]. *)
Definition api_movie_id (kind : api_kind) (item : value) : result value :=
  movie_id ← vget_or (py "id") (VStr []) item;
  uri ← vget_or (py "uri") (VStr []) item;
  in_movie ← (if truthy uri then py_in (py "movie/") uri else Ok false);
  if in_movie : bool then
    s ← as_str uri;
    Ok (VStr (default [] (last (split_str (py "movie/") s))))
  else
    match kind with
    | ByCategory => Ok movie_id
    | ByRegion =>
      in_subject ← (if truthy uri then py_in (py "/subject/") uri else Ok false);
      if in_subject : bool then
        s ← as_str uri;
        Ok (VStr (rstrip_chars (py "/")
                    (default [] (last (split_str (py "/subject/") s)))))
      else Ok movie_id
    end.

Definition api_rating (kind : api_kind) (rating_info : value) (movie : record)
    : result record :=
  if truthy rating_info then
    match kind, rating_info with
    | ByRegion, (VNone | VBool _ | VInt _ | VFloat _ | VStr _ | VList _) =>
      f ← py_float rating_info;
      Ok (dset (py "total_ratings") (VInt 0) (dset (py "rating") (VFloat f) movie))
    | _, _ =>
      v ← vget_or (py "value") (VInt 0) rating_info;
      f ← py_float v;
      c ← vget_or (py "count") (VInt 0) rating_info;
      n ← py_int c;
      Ok (dset (py "total_ratings") (VInt n) (dset (py "rating") (VFloat f) movie))
    end
  else
    Ok (dset (py "total_ratings") (VInt 0)
          (dset (py "rating") (VFloat float_zero) movie)).

Definition api_poster (kind : api_kind) (pic_info : value) : value :=
  if truthy pic_info then
    match pic_info with
    | VDict d =>
      let both := py_or (get_or (py "large") (VStr []) d)
                        (get_or (py "normal") (VStr []) d) in
      match kind with
      | ByCategory => both
      | ByRegion => py_or both (get_or (py "url") (VStr []) d)
      end
    | _ => pic_info
    end
  else VStr [].

(** The record built from one item; [Ok None] is a [continue]. *)
Definition api_movie (kind : api_kind) (item : value) : result (option record) :=
  movie_id ← api_movie_id kind item;
  if truthy movie_id then
    let movie :=
      dset (py "link")
        (VStr (base_url ++ py "/subject/" ++ py_str movie_id ++ py "/")) [] in
    match py_int movie_id with
    | Ok id =>
      let movie := dset (py "movie_id") (VInt id) movie in
      title ← vget_or (py "title") (VStr (py "未知")) item;
      let movie := dset (py "title") title movie in
      rating_info ← vget_or (py "rating") (VDict []) item;
      movie ← api_rating kind rating_info movie;
      pic_info ← vget_or (py "pic") (VDict []) item;
      Ok (Some (dset (py "poster") (api_poster kind pic_info) movie))
    | Raise ValueError | Raise TypeError => Ok None
    | Raise e => Raise e
    end
  else Ok None.

(** The settings of one run of an API driver. *)
Record api_run := ApiRun {
  api_source : api_kind;
  category_name : str;
  api_fetch_detail : bool;
  api_save_immediately : bool;
  api_targets : targets
}.

(** One item of a page; the number is [page_count]. *)
Definition api_item (run : api_run) (acc : crawl_state * nat) (item : value)
    : crawl_state * nat :=
  let (st, page_count) := acc in
  match api_movie (api_source run) item with
  | Ok (Some movie) =>
    match movie_key movie with
    | Ok movie_key =>
      if nonempty movie_key && bool_decide (movie_key ∉ existing_movies st) then
        let existing := {[movie_key]} ∪ existing_movies st in
        match _process_movie_with_detail (stored st) movie
                (api_fetch_detail run) (api_save_immediately run) (api_targets run) with
        | Ok (fs, movie) =>
          (Crawl existing fs
             (movies st ++ [dset (py "category") (VStr (category_name run)) movie]),
           S page_count)
        | Raise _ => (Crawl existing (stored st) (movies st), page_count)
        end
      else acc
    | Raise _ => acc
    end
  | _ => acc
  end.

(** [data.get('items', [])], with the other names the region API uses. *)
Definition api_items (kind : api_kind) (data : value) : result value :=
  items ← vget_or (py "items") (VList []) data;
  match kind with
  | ByCategory => Ok items
  | ByRegion =>
    subjects ← vget_or (py "subjects") (VList []) data;
    others ← vget_or (py "data") (VList []) data;
    Ok (py_or (py_or items subjects) others)
  end.

(** The loop [for page in range(max_pages)] of an API driver; an
    exception outside the two inner [try] blocks ends it. *)
Fixpoint api_pages (site : nat -> response value) (run : api_run)
    (st : crawl_state) (pages : list nat) : crawl_state :=
  match pages with
  | [] => st
  | page :: rest =>
    match site page with
    | FetchError =>
      if (page =? 0)%nat then st else api_pages site run st rest
    | Page data =>
      match items ← api_items (api_source run) data;
            if truthy items then py_iter items else Ok [] with
      | Raise _ => st
      | Ok [] => st
      | Ok items =>
        let (st', page_count) := foldl (api_item run) (st, O) items in
        let stop :=
          match api_source run with
          | ByCategory => (page_count =? 0)%nat && (0 <? page)%nat
          | ByRegion => (page_count =? 0)%nat
          end in
        if stop then st' else api_pages site run st' rest
      end
    end
  end.

(** [_crawl_movies_from_api] and [_crawl_movies_by_region] *)
Definition crawl_api (site : nat -> response value) (run : api_run)
    (max_pages : nat) (existing : gset (list N)) (fs : files) : crawl_state :=
  api_pages site run (Crawl existing fs []) (seq 0 max_pages).

(** *** A session: drivers run one after the other on one dedup set *)

Inductive invocation :=
| Top250 (site : nat -> response (list (option list_entry)))
    (max_pages : nat) (fetch_detail save_immediately : bool) (t : targets)
| Api (site : nat -> response value) (run : api_run) (max_pages : nat).

Definition invoke (i : invocation) (existing : gset (list N)) (fs : files)
    : crawl_state :=
  match i with
  | Top250 site max_pages fetch_detail save_immediately t =>
    crawl_top250 site max_pages fetch_detail save_immediately t existing fs
  | Api site run max_pages => crawl_api site run max_pages existing fs
  end.

(** The result lists of the drivers, in order, with the final set and
    files. *)
Fixpoint session (runs : list invocation) (existing : gset (list N)) (fs : files)
    : list (list record) * gset (list N) * files :=
  match runs with
  | [] => ([], existing, fs)
  | i :: rest =>
    let st := invoke i existing fs in
    let '(results, existing', fs') := session rest (existing_movies st) (stored st) in
    (movies st :: results, existing', fs')
  end.
End Drivers.

(** ** A small runtime

    An instance of [Runtime] on which the definitions run: a float is a
    decimal number with one fractional digit, held as its number of tenths;
    digits are the ASCII digits; [int] and [float] read plain decimal
    text.  On such text these agree with Python. *)

Module Plain.
Definition is_digit (c : char) : bool := (48 <=? c) && (c <=? 57).

(** The value of a non-empty run of ASCII digits. *)
Definition digits_value (s : str) : option Z :=
  if nonempty s && forallb is_digit s
  then Some (foldl (fun acc c => acc * 10 + Z.of_N (c - 48))%Z 0%Z s)
  else None.

Definition signed (parse : str -> option Z) (s : str) : option Z :=
  match s with
  | 45 :: s' => Z.opp <$> parse s'
  | 43 :: s' => parse s'
  | _ => parse s
  end.

Definition read_int (s : str) : option Z := signed digits_value (strip s).

(** "12" is 120 tenths, "12.5" is 125 tenths. *)
Definition tenths (s : str) : option Z :=
  match split_on 46 s with
  | [whole] => (fun n => n * 10)%Z <$> digits_value whole
  | [whole; [d]] =>
    if is_digit d then (fun n => n * 10 + Z.of_N (d - 48))%Z <$> digits_value whole
    else None
  | _ => None
  end.

Definition read_float (s : str) : option Z := signed tenths (strip s).

Definition show_float (f : Z) : str :=
  (if (f <? 0)%Z then [45] else [])
  ++ str_of_Z (Z.abs f / 10) ++ [46] ++ str_of_Z (Z.abs f mod 10).

Definition quote (s : str) : str := [39] ++ s ++ [39].

Definition join_url (base url : str) : str :=
  if starts_with [47] url then base ++ url else base ++ [47] ++ url.

Definition runtime : Runtime := {|
  float := Z;
  float_zero := 0%Z;
  float_truthy := fun f => negb (f =? 0)%Z;
  float_of_str := read_float;
  float_of_Z := fun z => Some (z * 10)%Z;
  str_of_float := show_float;
  int_of_float := fun f => Some (Z.quot f 10);
  int_of_str := read_int;
  isdecimal := is_digit;
  repr_of_str := quote;
  urljoin := join_url;
  float_zero_falsy := eq_refl
|}.
End Plain.

(** ** Vocabulary of the statements *)

(** A name: not empty, trimmed, without a comma. *)
Definition is_name (n : str) : Prop := n ≠ [] ∧ strip n = n ∧ 44 ∉ n.

(** The keys some step of the normaliser may write. *)
Definition normalized_keys : list str :=
  [ py "rank"; py "other_titles"; py "actors"; py "directors"; py "screenwriters";
    py "also_known_as"; py "rating_5star"; py "rating_4star"; py "rating_3star";
    py "rating_2star"; py "rating_1star"; py "quote"; py "info"; py "category";
    py "rating_detail"; py "rating"; py "people"; py "total_ratings"; py "movie_id";
    py "countries"; py "languages"; py "release_dates"; py "release_date";
    py "release_year" ].

Section Vocabulary.
Context `{RT : Runtime}.

(** A field of names holds at most [limit] of them: split on commas,
    trimmed, the empty ones dropped.  A field that is not text is falsy. *)
Definition holds_names (limit : nat) (field : option value) : Prop :=
  match field with
  | None => True
  | Some (VStr s) =>
    (length (name_list s) <= limit)%nat
    ∧ Forall (fun n => n ≠ [] ∧ strip n = n) (name_list s)
  | Some v => truthy v = false
  end.
End Vocabulary.

Section ReleaseVocabulary.
Context `{RT : Runtime}.

(** A record that gives no date: its release entries, when it has some,
    start with an entry that holds no date (or are all blank); without
    release entries, it has no [release_year]. *)
Definition gives_no_date (r : record) : Prop :=
  if truthy (get (py "release_dates") r) then
    ∃ s, get (py "release_dates") r = VStr s
         ∧ match name_list s with
           | first :: _ => date_of_entry first = None
           | [] => True
           end
  else truthy (get (py "release_year") r) = false.

(** What the last lines of step 12 leave of a [release_date] that was not
    replaced: an integer as its text, any other value as it is. *)
Definition kept_release_date (field : option value) : option value :=
  match field with
  | Some v => Some (if is_int v then VStr (py_str v) else v)
  | None => None
  end.
End ReleaseVocabulary.

Section IdempotenceVocabulary.
Context `{RT : Runtime}.

(** The text of a float reads back as the float: [float(str(f)) == f]. *)
Definition reads_back (f : float) : Prop :=
  nonempty (strip (str_of_float f)) = true
  ∧ float_of_str (strip (str_of_float f)) = Some f.

(** The rating of [r], when a non-zero float, reads back. *)
Definition rating_reads_back (r : record) : Prop :=
  ∀ f, dget (py "rating") r = Some (VFloat f) → float_truthy f = true → reads_back f.

(** A [movie_id] of 0 is what the link of [r] gives. *)
Definition id_stable (r : record) : Prop :=
  dget (py "movie_id") r = Some (VInt 0) → link_movie_id r = Ok 0%Z.
End IdempotenceVocabulary.

(** ** What the normaliser leaves *)

Section NormalFormVocabulary.
Context `{RT : Runtime}.

(** A field of names that [limit_names] leaves as it is. *)
Definition names_settled (keep : list (list N) → list N) (field : option value) : Prop :=
  match field with
  | None => True
  | Some v =>
    truthy v = false
    ∨ ∃ s, v = VStr s ∧ (name_list s = [] ∨ keep (name_list s) = s)
  end.

(** After [derive_total_ratings]: no [people] to read, a count that is
    not text. *)
Definition count_settled (d : list (list N * value)) : Prop :=
  truthy (get (py "people") d) = false
  ∧ ∃ v, dget (py "total_ratings") d = Some v ∧ ∀ s, v ≠ VStr s.

(** A text field that [clean_text_field] leaves as it is. *)
Definition text_settled (field : option value) : Prop :=
  match field with
  | None => True
  | Some v =>
    truthy v = false
    ∨ (py_in (py "导演") v = Ok false
       ∧ py_in (py "主演") v = Ok false
       ∧ ∃ n, py_len v = Ok n ∧ (200 <? n)%nat = false)
  end.

(** The keys the normaliser deletes. *)
Definition deleted_keys : list (list N) :=
  [ py "rank"; py "other_titles"; py "also_known_as";
    py "rating_5star"; py "rating_4star"; py "rating_3star"; py "rating_2star";
    py "rating_1star"; py "quote"; py "info"; py "category"; py "rating_detail";
    py "release_year" ].

(** What holds of the fields of a record the normaliser returns; [g] is
    the lookup of the record. *)
Definition normal_form_at (g : list N → option value) : Prop :=
  Forall (fun k => g k = None) deleted_keys
  ∧ names_settled keep_five (g (py "actors"))
  ∧ names_settled keep_first (g (py "directors"))
  ∧ names_settled keep_first (g (py "screenwriters"))
  ∧ (∃ v, g (py "rating") = Some v ∧ (truthy v = false ∨ ∃ f, v = VFloat f))
  ∧ truthy (default VNone (g (py "people"))) = false
  ∧ (∃ v, g (py "total_ratings") = Some v ∧ ∀ s, v ≠ VStr s)
  ∧ (∃ v, g (py "movie_id") = Some v
          ∧ ((∃ z, v = VInt z) ∨ (truthy v = true ∧ is_int v = true)))
  ∧ text_settled (g (py "countries"))
  ∧ text_settled (g (py "languages"))
  ∧ truthy (default VNone (g (py "release_dates"))) = false
  ∧ match g (py "release_date") with
    | Some v => is_int v = false
    | None => True
    end.
End NormalFormVocabulary.

(** ** The rows of the CSV file *)

Section SinkVocabulary.
Context `{RT : Runtime}.

(** The cells of a record under a header. *)
Definition csv_row (header : list (list N)) (movie : list (list N * value))
    : list (list N) :=
  (fun field => csv_cell (get_or field (VStr []) movie)) <$> header.
End SinkVocabulary.

(** ** Items and pages of a crawl *)

Section DedupVocabulary.
Context `{RT : Runtime}.

(** What one item does to the state of a crawl: it is rejected, and then no
    record is added and no file is written, or it is accepted, under a key
    that is not empty and was not in the set. *)
Inductive item_step (st st' : crawl_state) : Prop :=
| item_rejected :
    movies st' = movies st →
    stored st' = stored st →
    existing_movies st ⊆ existing_movies st' →
    item_step st st'
| item_accepted movie key :
    movies st' = movies st ++ [movie] →
    movie_key movie = Ok key →
    key ≠ [] →
    key ∉ existing_movies st →
    existing_movies st' = {[key]} ∪ existing_movies st →
    item_step st st'.

(** The state an item leaves, on either exit. *)
Definition after_item (r : crawl_state + crawl_state) : crawl_state :=
  match r with inl st | inr st => st end.

(** The records of [accepted] have the keys [keys], one each, all
    different, none empty, none in the set [before] and all in [after]. *)
Definition keyed_once (before after : gset (list N))
    (accepted : list (list (list N * value))) (keys : list (list N)) : Prop :=
  Forall2 (fun movie key => movie_key movie = Ok key) accepted keys
  ∧ NoDup keys
  ∧ ∀ key, key ∈ keys → key ≠ [] ∧ (key ∉ before) ∧ key ∈ after.

(** The invariant of a driver that started on the set [before]. *)
Definition dedup_invariant (before : gset (list N)) (st : crawl_state) : Prop :=
  before ⊆ existing_movies st
  ∧ ∃ keys, keyed_once before (existing_movies st) (movies st) keys.
End DedupVocabulary.

Section PageVocabulary.
(** A fetch that failed. *)
Definition failed {A} (r : response A) : bool :=
  match r with FetchError => true | Page _ => false end.

Context `{RT : Runtime}.

(** A site where each failed fetch is a page with no items instead. *)
Definition failures_as_empty_api (site : nat → response value)
    (page : nat) : response value :=
  match site page with
  | FetchError => Page (VDict [])
  | Page data => Page data
  end.

Definition failures_as_empty_top250 (site : nat → response (list (option list_entry)))
    (page : nat) : response (list (option list_entry)) :=
  match site page with
  | FetchError => Page []
  | Page items => Page items
  end.
End PageVocabulary.

(** ** Records, files and sites of the examples *)

Section Examples.
Local Existing Instance Plain.runtime.

(** The record of the counterexample to idempotence, and its first and
    second normalisation. *)
Definition unstable_id : list (list N * value) :=
  [ (py "movie_id", VStr (py "abc"));
    (py "link", VStr (py "https://movie.douban.com/subject/123/")) ].

Definition unstable_id_once : list (list N * value) :=
  [ (py "movie_id", VInt 0); (py "rating", VFloat 0%Z); (py "total_ratings", VInt 0);
    (py "link", VStr (py "https://movie.douban.com/subject/123/")) ].

Definition unstable_id_twice : list (list N * value) :=
  [ (py "movie_id", VInt 123); (py "rating", VFloat 0%Z); (py "total_ratings", VInt 0);
    (py "link", VStr (py "https://movie.douban.com/subject/123/")) ].

Definition shawshank : list (list N * value) :=
  [ (py "title", VStr (py "肖申克的救赎")); (py "rating", VStr (py "9.7"));
    (py "people", VStr (py "3,225,399人评价"));
    (py "actors", VStr (py "a, b , c,d,e,f,g"));
    (py "link", VStr (py "https://movie.douban.com/subject/1292052/"));
    (py "release_dates", VStr (py "1994-09-10(多伦多电影节), 1994-09-23(加拿大)")) ].

Definition shawshank_normalized : list (list N * value) :=
  [ (py "movie_id", VInt 1292052); (py "title", VStr (py "肖申克的救赎"));
    (py "rating", VFloat 97%Z); (py "total_ratings", VInt 3225399);
    (py "actors", VStr (py "a, b, c, d, e"));
    (py "release_date", VStr (py "1994-09-10"));
    (py "link", VStr (py "https://movie.douban.com/subject/1292052/")) ].

(** A record with an empty [release_date] and nothing to take a date
    from. *)
Definition undated : list (list N * value) :=
  [ (py "title", VStr (py "X")); (py "release_date", VStr []) ].

Definition undated_normalized : list (list N * value) :=
  [ (py "movie_id", VInt 0); (py "title", VStr (py "X"));
    (py "rating", VFloat 0%Z); (py "total_ratings", VInt 0);
    (py "release_date", VStr []) ].

(** A record whose release entry and [release_date] both hold no date. *)
Definition unreleased : list (list N * value) :=
  [ (py "title", VStr (py "X")); (py "release_dates", VStr (py "未定(中国大陆)"));
    (py "release_date", VStr (py "TBA")) ].

Definition unreleased_normalized : list (list N * value) :=
  [ (py "movie_id", VInt 0); (py "title", VStr (py "X"));
    (py "rating", VFloat 0%Z); (py "total_ratings", VInt 0);
    (py "release_date", VStr (py "TBA")) ].

Definition no_files : files := Files ∅ ∅ ∅.

Definition movies_csv : targets := Targets None None (Some (py "movies.csv")).

(** The records A and B of the header scenario. *)
Definition record_a : list (list N * value) :=
  [ (py "title", VStr (py "A")); (py "rating", VFloat 80%Z) ].

Definition record_b : list (list N * value) :=
  [ (py "title", VStr (py "B")); (py "rating", VFloat 90%Z);
    (py "poster", VStr (py "b.jpg")) ].

Definition record_a_normalized : list (list N * value) :=
  [ (py "movie_id", VInt 0); (py "title", VStr (py "A"));
    (py "rating", VFloat 80%Z); (py "total_ratings", VInt 0) ].

(** A as [save_movie_line] leaves it for its caller. *)
Definition record_a_updated : list (list N * value) :=
  [ (py "title", VStr (py "A")); (py "rating", VFloat 80%Z);
    (py "total_ratings", VInt 0); (py "movie_id", VInt 0) ].

(** The rows of the file after A, and after A then B. *)
Definition csv_after_a : list (list (list N)) :=
  [ [py "movie_id"; py "title"; py "rating"; py "total_ratings"];
    [py "0"; py "A"; py "8.0"; py "0"] ].

Definition csv_after_b : list (list (list N)) :=
  csv_after_a ++ [ [py "0"; py "B"; py "9.0"; py "0"] ].

(** [save_movie_line] for each record of a list, in order. *)
Fixpoint save_all (fs : files) (records : list (list (list N * value)))
    (t : targets) : result files :=
  match records with
  | [] => Ok fs
  | movie :: rest =>
    saved ← save_movie_line fs movie t; save_all saved.1 rest t
  end.

Definition broken_json : files :=
  Files ∅ {[ py "movies.json" := Undecodable (py "[{") ]} ∅.

Definition movies_json : targets := Targets None (Some (py "movies.json")) None.

(** A site whose detail pages cannot be read. *)
Definition no_detail (link : value) : list (list N * value) := [].

Definition api_item_of (id title : string) : value :=
  VDict [ (py "id", VStr (py id)); (py "title", VStr (py title)) ].

Definition api_page_of (items : list value) : value :=
  VDict [ (py "items", VList items) ].

(** An API whose second page cannot be fetched; its first page has an
    item twice and an item whose identifier is not a number. *)
Definition flaky_api (page : nat) : response value :=
  match page with
  | 0%nat => Page (api_page_of [ api_item_of "1" "A"; api_item_of "1" "A again";
                                 api_item_of "abc" "bad" ])
  | 1%nat => FetchError
  | 2%nat => Page (api_page_of [ api_item_of "2" "B" ])
  | _ => Page (api_page_of [])
  end.

Definition plain_run : api_run :=
  ApiRun ByCategory (py "movie") false false no_targets.

(** The record the category driver makes of an item with an identifier and
    a title only. *)
Definition api_record (id : Z) (link title : string) : list (list N * value) :=
  [ (py "movie_id", VInt id); (py "title", VStr (py title));
    (py "rating", VFloat 0%Z); (py "total_ratings", VInt 0);
    (py "link", VStr (py link)); (py "poster", VStr []);
    (py "category", VStr (py "movie")) ].

Definition record_1 : list (list N * value) :=
  api_record 1 "https://movie.douban.com/subject/1/" "A".

Definition record_2 : list (list N * value) :=
  api_record 2 "https://movie.douban.com/subject/2/" "B".

(** An entry of the list page whose link holds no identifier. *)
Definition odd_entry : list_entry :=
  ListEntry (py "https://example.com/x") (py "c.jpg") (py "C") 85%Z 10%Z
    (py "D") (py "E, F") (py "1999").

Definition odd_record : list (list N * value) :=
  [ (py "movie_id", VInt 0); (py "title", VStr (py "C"));
    (py "rating", VFloat 85%Z); (py "total_ratings", VInt 10);
    (py "directors", VStr (py "D")); (py "actors", VStr (py "E, F"));
    (py "release_date", VStr (py "1999")); (py "summary", VStr []);
    (py "link", VStr (py "https://example.com/x"));
    (py "poster", VStr (py "c.jpg")) ].

(** An entry of the list page whose line holds no year. *)
Definition undated_entry : list_entry :=
  ListEntry (py "https://movie.douban.com/subject/7/") (py "g.jpg") (py "G") 80%Z 3%Z
    [] [] [].

Definition undated_entry_record : list (list N * value) :=
  [ (py "movie_id", VInt 7); (py "title", VStr (py "G"));
    (py "rating", VFloat 80%Z); (py "total_ratings", VInt 3);
    (py "directors", VStr []); (py "actors", VStr []);
    (py "release_date", VStr []); (py "summary", VStr []);
    (py "link", VStr (py "https://movie.douban.com/subject/7/"));
    (py "poster", VStr (py "g.jpg")) ].

(** A list whose first page cannot be fetched. *)
Definition flaky_top250 (page : nat) : response (list (option list_entry)) :=
  match page with
  | 0%nat => FetchError
  | 1%nat => Page [Some odd_entry]
  | _ => Page []
  end.

Definition merge_base : list (list N * value) :=
  [ (py "title", VStr (py "X")); (py "poster", VStr (py "old.jpg"));
    (py "rating", VFloat 80%Z) ].

Definition merge_detail : list (list N * value) :=
  [ (py "poster", VStr []); (py "summary", VStr (py "S"));
    (py "rating_detail",
     VDict [ (py "average", VStr (py "9.1")); (py "total_ratings", VInt 5) ]) ].

Definition merge_result : list (list N * value) :=
  [ (py "title", VStr (py "X")); (py "poster", VStr (py "old.jpg"));
    (py "rating", VFloat 91%Z); (py "summary", VStr (py "S"));
    (py "total_ratings", VInt 5) ].

Definition two_drivers : list invocation :=
  [ Api flaky_api plain_run 3; Top250 flaky_top250 3 false false no_targets ].

(** The dedup set after the two drivers. *)
Definition keys_after : gset (list N) :=
  {[ py "https://example.com/x" ]}
  ∪ ({[ py "https://movie.douban.com/subject/2/" ]}
     ∪ ({[ py "https://movie.douban.com/subject/1/" ]} ∪ ∅)).

(** An API that cannot be reached. *)
Definition down_api (page : nat) : response value := FetchError.
End Examples.

(** ** Records the normaliser accepts *)

(** The fields whose text the normaliser takes apart. *)
Definition text_fields : list str :=
  [ py "actors"; py "directors"; py "screenwriters"; py "people";
    py "countries"; py "languages"; py "release_dates"; py "link" ].

Section TextVocabulary.
Context `{RT : Runtime}.

(** A field that is absent, falsy, or text. *)
Definition text_or_falsy (field : option value) : Prop :=
  match field with
  | Some v => truthy v = true → ∃ s, v = VStr s
  | None => True
  end.
End TextVocabulary.

(** ** The line-delimited file along a crawl *)

Section CrawlVocabulary.
Context `{RT : Runtime}.

(** From [st] to [st'] the records [extra] were added to the result, and
    their lines to the line-delimited file [path]. *)
Definition grows (line : list (list N * value) → list (list N * value))
    (path : list N) (st st' : crawl_state) : Prop :=
  ∃ extra,
    movies st' = movies st ++ extra
    ∧ default [] (jsonl_files (stored st') !! path)
      = default [] (jsonl_files (stored st) !! path) ++ (line <$> extra).
End CrawlVocabulary.

(** ** More records, files and runs for the examples *)

Section MoreExamples.
Local Existing Instance Plain.runtime.

(** A record whose [languages] holds mis-scraped text. *)
Definition with_countries : list (list N * value) :=
  [ (py "title", VStr (py "T")); (py "countries", VStr (py "美国 / 英国"));
    (py "languages", VStr (py "导演: X")) ].

Definition with_countries_normalized : list (list N * value) :=
  [ (py "movie_id", VInt 0); (py "title", VStr (py "T"));
    (py "rating", VFloat 0%Z); (py "total_ratings", VInt 0);
    (py "countries", VStr (py "美国 / 英国")); (py "languages", VStr []) ].

(** A record whose [actors] is a list. *)
Definition actors_as_list : list (list N * value) :=
  [ (py "title", VStr (py "T")); (py "actors", VList [VStr (py "a"); VStr (py "b")]) ].

(** A detail record whose [rating_detail] is text. *)
Definition bad_detail : list (list N * value) :=
  [ (py "rating_detail", VStr (py "9.1")) ].

Definition top_jsonl : targets := Targets (Some (py "top.jsonl")) None None.

Definition one_line : files :=
  Files {[ py "top.jsonl" := [record_a_normalized] ]} ∅ ∅.

Definition one_array : files :=
  Files ∅ {[ py "movies.json" := Decoded (VList [VInt 7]) ]} ∅.

Definition saving_run : api_run :=
  ApiRun ByCategory (py "movie") false true top_jsonl.

(** The record of the first item of [flaky_api], before its category. *)
Definition item_1_record : list (list N * value) :=
  [ (py "link", VStr (py "https://movie.douban.com/subject/1/"));
    (py "movie_id", VInt 1); (py "title", VStr (py "A"));
    (py "rating", VFloat 0%Z); (py "total_ratings", VInt 0);
    (py "poster", VStr []) ].
End MoreExamples.

(** ** The batch writers ([save_to_json], [save_to_csv])

    As for [save_movie_line], a path is used for one format only, and the
    directory of a file exists.  The writers update the records of [data] in
    place as the normaliser does; the models return the files. *)

(** What a batch writer ends with when it writes no file: an exception of
    the normaliser, or the error of [open] on the empty file name, which
    names the directory of the program. *)
Inductive failure :=
| Exception (e : exn)
| IsADirectoryError.

Section Batch.
Context `{RT : Runtime}.

(** [[self.normalize_movie_data(movie) for movie in data]] *)
Fixpoint normalize_all (data : list record) : result (list record) :=
  match data with
  | [] => Ok []
  | movie :: rest =>
    normalized ← normalize_movie_data movie;
    others ← normalize_all rest;
    Ok (normalized :: others)
  end.

(** [save_to_json(data, filename)] *)
Definition save_to_json (fs : files) (data : list record) (filename : str)
    : failure + files :=
  match normalize_all data with
  | Raise e => inl (Exception e)
  | Ok normalized_data =>
    if nonempty filename then
      inr (Files (jsonl_files fs)
             (<[filename := Decoded (VList (VDict <$> normalized_data))]>
                (json_files fs))
             (csv_files fs))
    else inl IsADirectoryError
  end.

(** [save_movie_line] for each record of [data], in order. *)
Fixpoint save_each (fs : files) (data : list record) (t : targets) : result files :=
  match data with
  | [] => Ok fs
  | movie :: rest =>
    saved ← save_movie_line fs movie t;
    save_each saved.1 rest t
  end.

(** The order in which the keys of a set come out when it is iterated. *)
Variable iteration : list str → list str.

(** [fieldnames.insert(i, field)] *)
Definition insert_at (i : nat) (field : str) (fieldnames : list str) : list str :=
  take i fieldnames ++ field :: drop i fieldnames.

(** The fields of [FIELD_ORDER] that some record has, then the other keys
    of the records as the set [all_fields] gives them. *)
Definition batch_fieldnames (normalized_data : list record) : list str :=
  let fieldnames :=
    filter (fun field => existsb (has field) normalized_data = true) FIELD_ORDER in
  let all_fields := iteration (mjoin ((fun item : record => item.*1) <$> normalized_data)) in
  foldl (fun fieldnames field =>
           if decide (field ∈ fieldnames) then fieldnames else fieldnames ++ [field])
        fieldnames all_fields.

(** The fields of the header of the file that are not in [fieldnames] go
    in at the index of the length of the header. *)
Definition merge_header (existing_fieldnames fieldnames : list str) : list str :=
  foldl (fun fieldnames field =>
           if decide (field ∈ fieldnames) then fieldnames
           else insert_at (length existing_fieldnames) field fieldnames)
        fieldnames existing_fieldnames.

(** [save_to_csv(data, filename, append)].  [DictWriter] raises on a key
    of a row that is not in [fieldnames]; [fieldnames] holds every key of
    every row. *)
Definition save_to_csv (fs : files) (data : list record) (filename : str)
    (append : bool) : failure + files :=
  if negb (nonempty data) then inr fs
  else
    match normalize_all data with
    | Raise e => inl (Exception e)
    | Ok normalized_data =>
      let fieldnames := batch_fieldnames normalized_data in
      let file := csv_files fs !! filename in
      let file_exists := bool_decide (is_Some file) && append in
      let fieldnames :=
        if file_exists then merge_header (read_header file) fieldnames
        else fieldnames in
      if nonempty filename then
        let kept := if append then default [] file else [] in
        let header := if negb append || negb file_exists then [fieldnames] else [] in
        let rows := csv_row fieldnames <$> normalized_data in
        inr (Files (jsonl_files fs) (json_files fs)
               (<[filename := kept ++ header ++ rows]> (csv_files fs)))
      else inl IsADirectoryError
    end.
End Batch.

(** ** Data of the batch examples *)

Section BatchExamples.
Local Existing Instance Plain.runtime.

Definition record_b_normalized : list (list N * value) :=
  [ (py "movie_id", VInt 0); (py "title", VStr (py "B"));
    (py "rating", VFloat 90%Z); (py "total_ratings", VInt 0);
    (py "poster", VStr (py "b.jpg")) ].

(** The CSV file [save_to_csv] writes for A and B. *)
Definition csv_of_a_b : list (list (list N)) :=
  [ [py "movie_id"; py "title"; py "rating"; py "total_ratings"; py "poster"];
    [py "0"; py "A"; py "8.0"; py "0"; []];
    [py "0"; py "B"; py "9.0"; py "0"; py "b.jpg"] ].

Definition one_csv : files := Files ∅ ∅ {[ py "movies.csv" := csv_after_a ]}.

Definition empty_crawl : crawl_state := Crawl ∅ no_files [].
End BatchExamples.

(** ** The page of classic movies ([crawl_classic_movies])

    An item of the page is given by what [parse_movie_item] reads of it, if
    it has the form of an entry of the Top 250 list, and by what
    [parse_generic_movie_item] returns for it: a record with a title, or
    nothing. *)

Section Classic.
Context `{RT : Runtime}.
Variable parse_movie_detail : value -> record.

(** One item of the loop; [inr] is the exit through the exception
    handler of the function. *)
Definition classic_item (st : crawl_state)
    (item : option list_entry * option record) : crawl_state + crawl_state :=
  let movie :=
    match parse_movie_item parse_movie_detail (stored st) item.1 false with
    | Some movie => if truthy (VDict movie) then Some movie else item.2
    | None => item.2
    end in
  match movie with
  | Some movie =>
    if truthy (VDict movie) then
      match movie_key movie with
      | Ok movie_key =>
        if nonempty movie_key && bool_decide (movie_key ∉ existing_movies st) then
          inl (Crawl ({[movie_key]} ∪ existing_movies st) (stored st)
                 (movies st ++ [dset (py "category") (VStr (py "经典电影")) movie]))
        else inl st
      | Raise _ => inr st
      end
    else inl st
  | None => inl st
  end.

Fixpoint classic_items (st : crawl_state)
    (items : list (option list_entry * option record)) : crawl_state :=
  match items with
  | [] => st
  | item :: rest =>
    match classic_item st item with
    | inl st' => classic_items st' rest
    | inr st' => st'
    end
  end.

(** [crawl_classic_movies]: one page is fetched; [max_pages] is not
    used. *)
Definition crawl_classic_movies
    (site : response (list (option list_entry * option record)))
    (existing : gset (list N)) (fs : files) : crawl_state :=
  match site with
  | FetchError => Crawl existing fs []
  | Page items => classic_items (Crawl existing fs []) items
  end.

(** What the loop keeps: the dedup invariant, the files, the category of
    the records. *)
Definition classic_invariant (before : gset (list N)) (fs : files)
    (st : crawl_state) : Prop :=
  dedup_invariant before st
  ∧ stored st = fs
  ∧ Forall (fun movie => dget (py "category") movie = Some (VStr (py "经典电影")))
      (movies st).
End Classic.

(** * Properties *)

(** ** Keys *)

(** Two literal keys differ. *)
Ltac key_ne :=
  let H := fresh in
  intros H; vm_compute in H; discriminate H.

(** ** Dictionaries *)

Section DictFacts.
Context `{RT : Runtime}.
Implicit Types (d : list (list N * value)) (k : list N) (v : value).

Lemma dget_dset_eq k v d : dget k (dset k v d) = Some v.
Proof.
  induction d as [|[k' v'] d IH]; simpl.
  - by rewrite decide_True.
  - destruct (decide (k = k')) as [->|Hne]; simpl.
    + by rewrite decide_True.
    + by rewrite decide_False.
Qed.

Lemma dget_dset_ne k k' v d : k ≠ k' → dget k' (dset k v d) = dget k' d.
Proof.
  intros Hne. induction d as [|[k0 v0] d IH]; simpl.
  - by rewrite decide_False.
  - destruct (decide (k = k0)) as [->|Hne0]; simpl.
    + by rewrite !(decide_False (P := k' = k0)).
    + destruct (decide (k' = k0)); done.
Qed.

Lemma dget_ddel_eq k d : dget k (ddel k d) = None.
Proof.
  induction d as [|[k' v'] d IH]; simpl; [done|].
  destruct (decide (k = k')) as [->|Hne]; simpl; [done|].
  by rewrite decide_False.
Qed.

Lemma dget_ddel_ne k k' d : k ≠ k' → dget k' (ddel k d) = dget k' d.
Proof.
  intros Hne. induction d as [|[k0 v0] d IH]; simpl; [done|].
  destruct (decide (k = k0)) as [->|Hne0]; simpl.
  - by rewrite decide_False.
  - by rewrite IH.
Qed.

Lemma dset_id k v d : dget k d = Some v → dset k v d = d.
Proof.
  induction d as [|[k' v'] d IH]; simpl; [done|].
  destruct (decide (k = k')) as [->|Hne]; [by intros [= ->]|].
  intros H. by rewrite IH.
Qed.

Lemma ddel_id k d : dget k d = None → ddel k d = d.
Proof.
  induction d as [|[k' v'] d IH]; simpl; [done|].
  destruct (decide (k = k')) as [->|Hne]; [done|].
  intros H. by rewrite IH.
Qed.

Lemma has_dget k d : has k d = true ↔ is_Some (dget k d).
Proof.
  unfold has. destruct (dget k d); split; try done; eauto.
Qed.

Lemma has_false k d : has k d = false ↔ dget k d = None.
Proof. unfold has. by destruct (dget k d). Qed.

Lemma dget_elem_of k v d : dget k d = Some v → (k, v) ∈ d.
Proof.
  induction d as [|[k' v'] d IH]; simpl; [done|].
  destruct (decide (k = k')) as [->|Hne].
  - intros [= ->]. left.
  - intros H. right. auto.
Qed.

Lemma dget_None_keys k d : dget k d = None ↔ k ∉ d.*1.
Proof.
  induction d as [|[k' v'] d IH]; simpl.
  - split; [intros _; apply not_elem_of_nil|done].
  - rewrite not_elem_of_cons. destruct (decide (k = k')) as [->|Hne].
    + split; [done|]. by intros [? _].
    + rewrite IH. naive_solver.
Qed.
End DictFacts.

Ltac dsimpl :=
  repeat first
    [ rewrite dget_dset_eq
    | rewrite dget_ddel_eq
    | rewrite dget_dset_ne by (first [key_ne | done | congruence])
    | rewrite dget_ddel_ne by (first [key_ne | done | congruence]) ].

Ltac unfold_bind := unfold mbind, result_bind, mret, result_ret in *.

(** Case analysis on the tests of a step. *)
Ltac step_cases :=
  unfold_bind;
  repeat match goal with
         | H : context [match ?x with _ => _ end] |- _ =>
           destruct x eqn:?; simplify_eq/=
         | H : context [if ?x then _ else _] |- _ =>
           destruct x eqn:?; simplify_eq/=
         end.

Section OrderFacts.
Context `{RT : Runtime}.
Implicit Types (d : list (list N * value)) (k : list N) (v : value).

Lemma dget_app k d1 d2 :
  dget k (d1 ++ d2) = match dget k d1 with Some v => Some v | None => dget k d2 end.
Proof.
  induction d1 as [|[k' v'] d1 IH]; simpl; [done|].
  by destruct (decide (k = k')).
Qed.

Lemma dget_picked k d (fields : list (list N)) :
  dget k (omap (fun field => pair field <$> dget field d) fields)
  = if decide (k ∈ fields) then dget k d else None.
Proof.
  induction fields as [|f fields IH]; [done|].
  cbn [omap list_omap].
  destruct (decide (k ∈ f :: fields)) as [Hin|Hin].
  - apply elem_of_cons in Hin.
    destruct (dget f d) as [v|] eqn:Hf; cbn [fmap option_fmap option_map dget].
    + destruct (decide (k = f)) as [->|Hne]; [by rewrite Hf|].
      rewrite IH. rewrite decide_True by naive_solver. done.
    + rewrite IH. destruct Hin as [->|Hin].
      * rewrite Hf. by destruct (decide _).
      * by rewrite decide_True.
  - apply not_elem_of_cons in Hin as [Hne Hin].
    destruct (dget f d) as [v|] eqn:Hf; cbn [fmap option_fmap option_map dget].
    + rewrite decide_False by done. rewrite IH. by rewrite decide_False.
    + rewrite IH. by rewrite decide_False.
Qed.

Lemma dget_filter_keys k d (fields : list (list N)) :
  dget k (filter (fun kv : list N * value => kv.1 ∉ fields) d)
  = if decide (k ∈ fields) then None else dget k d.
Proof.
  induction d as [|[k' v'] d IH]; [by destruct (decide (k ∈ fields))|].
  rewrite filter_cons. cbn [fst].
  destruct (decide (k' ∉ fields)) as [HP|HP]; cbn [dget].
  - destruct (decide (k = k')) as [->|Hne]; [|done].
    by rewrite decide_False.
  - rewrite IH. destruct (decide (k = k')) as [->|Hne]; [|done].
    destruct (decide (k' ∈ fields)); naive_solver.
Qed.

(** Reordering keeps every field and its value. *)
Lemma dget_order_fields k d : dget k (order_fields d) = dget k d.
Proof.
  unfold order_fields. rewrite dget_app, dget_picked, dget_filter_keys.
  destruct (decide (k ∈ FIELD_ORDER)); [|done].
  by destruct (dget k d).
Qed.

Lemma filter_keys_picked d (fields : list (list N)) :
  filter (fun kv : list N * value => kv.1 ∉ fields)
    (omap (fun field => pair field <$> dget field d) fields) = [].
Proof.
  assert (∀ l : list (list N * value),
    Forall (fun kv => kv.1 ∈ fields) l →
    filter (fun kv : list N * value => kv.1 ∉ fields) l = []) as Hnil.
  { induction 1 as [|kv l Hkv _ IH]; [done|].
    rewrite filter_cons. rewrite decide_False by naive_solver. done. }
  apply Hnil, Forall_forall. intros [k v] Hin.
  apply list_elem_of_omap in Hin as (f & Hf & Heq).
  destruct (dget f d); simplify_eq/=. done.
Qed.

Lemma filter_keys_twice d (fields : list (list N)) :
  filter (fun kv : list N * value => kv.1 ∉ fields)
    (filter (fun kv : list N * value => kv.1 ∉ fields) d)
  = filter (fun kv : list N * value => kv.1 ∉ fields) d.
Proof.
  induction d as [|[k v] d IH]; [done|].
  rewrite filter_cons. cbn [fst]. destruct (decide (k ∉ fields)); [|done].
  rewrite filter_cons. cbn [fst]. rewrite decide_True by done. by rewrite IH.
Qed.

Lemma order_fields_ext d d' :
  (∀ k, dget k d' = dget k d) →
  filter (fun kv : list N * value => kv.1 ∉ FIELD_ORDER) d'
  = filter (fun kv : list N * value => kv.1 ∉ FIELD_ORDER) d →
  order_fields d' = order_fields d.
Proof.
  intros Hget Hrest. unfold order_fields. rewrite Hrest. f_equal.
  apply list_omap_ext, Forall2_same_length_lookup. split; [done|].
  intros i f f' Hf Hf'. simplify_eq. by rewrite Hget.
Qed.

(** Reordering twice is reordering once. *)
Lemma order_fields_idem d : order_fields (order_fields d) = order_fields d.
Proof.
  apply order_fields_ext; [intros k; apply dget_order_fields|].
  unfold order_fields. by rewrite filter_app, filter_keys_picked, filter_keys_twice.
Qed.
End OrderFacts.

(** ** The steps of the normaliser: what each leaves alone *)

Section StepFrames.
Context `{RT : Runtime}.
Implicit Types (d : list (list N * value)) (k : list N) (v : value).

Lemma limit_names_frame field keep d d' k :
  limit_names field keep d = Ok d' → k ≠ field → dget k d' = dget k d.
Proof. unfold limit_names. intros H Hne. step_cases; by dsimpl. Qed.

Lemma coerce_rating_frame d k :
  k ≠ py "rating" → dget k (coerce_rating d) = dget k d.
Proof. unfold coerce_rating. intros Hne. repeat case_match; by dsimpl. Qed.

Lemma derive_total_ratings_frame d d' k :
  derive_total_ratings d = Ok d' →
  k ≠ py "people" → k ≠ py "total_ratings" → dget k d' = dget k d.
Proof. unfold derive_total_ratings. intros H ??. step_cases; by dsimpl. Qed.

Lemma derive_movie_id_frame d d' k :
  derive_movie_id d = Ok d' → k ≠ py "movie_id" → dget k d' = dget k d.
Proof. unfold derive_movie_id. intros H ?. step_cases; by dsimpl. Qed.

Lemma clean_text_field_frame field d d' k :
  clean_text_field field d = Ok d' → k ≠ field → dget k d' = dget k d.
Proof. unfold clean_text_field. intros H ?. step_cases; by dsimpl. Qed.

Lemma collapse_release_dates_frame d d' k :
  collapse_release_dates d = Ok d' →
  k ≠ py "release_dates" → k ≠ py "release_date" → k ≠ py "release_year" →
  dget k d' = dget k d.
Proof.
  unfold collapse_release_dates. intros H ???.
  step_cases; repeat case_match; by dsimpl.
Qed.

Lemma release_date_as_str_frame d k :
  k ≠ py "release_date" → dget k (release_date_as_str d) = dget k d.
Proof. unfold release_date_as_str. intros ?. repeat case_match; by dsimpl. Qed.

(** The states of the record along [normalize_steps]. *)
Lemma normalize_steps_inv r d :
  normalize_steps r = Ok d →
  ∃ d1 d2 d3 d6 d7 d8 d9 d10,
    limit_names (py "actors") keep_five
      (ddel (py "other_titles") (ddel (py "rank") r)) = Ok d1
    ∧ limit_names (py "directors") keep_first d1 = Ok d2
    ∧ limit_names (py "screenwriters") keep_first d2 = Ok d3
    ∧ derive_total_ratings
        (coerce_rating
           (ddel (py "rating_detail") (ddel (py "category") (ddel (py "info")
             (ddel (py "quote")
                (foldl (fun m key => ddel key m) (ddel (py "also_known_as") d3)
                   rating_star_keys)))))) = Ok d6
    ∧ derive_movie_id d6 = Ok d7
    ∧ clean_text_field (py "countries") d7 = Ok d8
    ∧ clean_text_field (py "languages") d8 = Ok d9
    ∧ collapse_release_dates d9 = Ok d10
    ∧ d = ddel (py "release_year") (release_date_as_str d10).
Proof.
  unfold normalize_steps. intros H. unfold_bind.
  repeat match goal with
         | H : context [match ?x with Ok _ => _ | Raise _ => _ end] |- _ =>
           destruct x eqn:?; [|discriminate H]
         end.
  injection H as <-. eauto 20.
Qed.
End StepFrames.

(** Rewrites [dget k _] at the end of a run of steps into [dget k _] at
    its start, for a key the steps leave alone. *)
Ltac frame_back :=
  repeat first
    [ progress dsimpl
    | rewrite release_date_as_str_frame by (first [key_ne | done | congruence])
    | rewrite coerce_rating_frame by (first [key_ne | done | congruence])
    | match goal with
      | H : limit_names _ _ ?a = Ok ?b |- context [dget ?k ?b] =>
        rewrite (limit_names_frame _ _ a b k H) by (first [key_ne | done | congruence])
      | H : derive_total_ratings ?a = Ok ?b |- context [dget ?k ?b] =>
        rewrite (derive_total_ratings_frame a b k H)
          by (first [key_ne | done | congruence])
      | H : derive_movie_id ?a = Ok ?b |- context [dget ?k ?b] =>
        rewrite (derive_movie_id_frame a b k H) by (first [key_ne | done | congruence])
      | H : clean_text_field _ ?a = Ok ?b |- context [dget ?k ?b] =>
        rewrite (clean_text_field_frame _ a b k H)
          by (first [key_ne | done | congruence])
      | H : collapse_release_dates ?a = Ok ?b |- context [dget ?k ?b] =>
        rewrite (collapse_release_dates_frame a b k H)
          by (first [key_ne | done | congruence])
      end
    | progress cbn [foldl rating_star_keys] ].

Section Untouched.
Context `{RT : Runtime}.

Lemma normalize_steps_untouched r d k :
  normalize_steps r = Ok d → k ∉ normalized_keys → dget k d = dget k r.
Proof.
  intros H Hk. apply normalize_steps_inv in H
    as (d1 & d2 & d3 & d6 & d7 & d8 & d9 & d10 & H1 & H2 & H3 & H6 & H7 & H8 & H9 & H10 & ->).
  unfold normalized_keys in Hk. rewrite !not_elem_of_cons in Hk.
  destruct_and!. frame_back. done.
Qed.
End Untouched.

(** ** Text: trimming, splitting, joining *)

Section TextFacts.
Implicit Types (s t : list N) (c : N) (p : N → bool).

Lemma lstrip_by_idem p s : lstrip_by p (lstrip_by p s) = lstrip_by p s.
Proof.
  induction s as [|c s IH]; simpl; [done|].
  destruct (p c) eqn:Hc; [done|]. simpl. by rewrite Hc.
Qed.

Lemma lstrip_by_snoc p s c :
  p c = false → lstrip_by p (s ++ [c]) = lstrip_by p s ++ [c].
Proof.
  intros Hc. induction s as [|c' s IH]; simpl.
  - by rewrite Hc.
  - by destruct (p c').
Qed.

Lemma lstrip_by_head p s c t : lstrip_by p s = c :: t → p c = false.
Proof.
  induction s as [|c' s IH]; simpl; [done|].
  destruct (p c') eqn:Hc; [done|]. by intros [= <- <-].
Qed.

Lemma lstrip_by_elem p s c : c ∈ lstrip_by p s → c ∈ s.
Proof.
  induction s as [|c' s IH]; simpl; [done|].
  destruct (p c'); [|done]. intros H. right. auto.
Qed.

Lemma rstrip_by_cons p c s :
  p c = false → rstrip_by p (c :: s) = c :: rstrip_by p s.
Proof.
  intros Hc. unfold rstrip_by. simpl.
  rewrite lstrip_by_snoc by done. by rewrite rev_app_distr.
Qed.

Lemma rstrip_by_idem p s : rstrip_by p (rstrip_by p s) = rstrip_by p s.
Proof. unfold rstrip_by. by rewrite rev_involutive, lstrip_by_idem. Qed.

Lemma rstrip_by_elem p s c : c ∈ rstrip_by p s → c ∈ s.
Proof.
  unfold rstrip_by. intros H.
  apply list_elem_of_In, in_rev, list_elem_of_In, lstrip_by_elem in H.
  by apply list_elem_of_In, in_rev, list_elem_of_In in H.
Qed.

(** The trimmed text is empty or starts where the left trim stops. *)
Lemma strip_unfold s :
  strip s = match lstrip_by isspace s with
            | [] => []
            | c :: t => c :: rstrip_by isspace t
            end.
Proof.
  unfold strip. destruct (lstrip_by isspace s) as [|c t] eqn:Hs; [done|].
  apply lstrip_by_head in Hs. by apply rstrip_by_cons.
Qed.

Lemma strip_idem s : strip (strip s) = strip s.
Proof.
  assert (lstrip_by isspace (strip s) = strip s) as Hl.
  { rewrite strip_unfold. destruct (lstrip_by isspace s) as [|c t] eqn:Hs; [done|].
    apply lstrip_by_head in Hs. simpl. by rewrite Hs. }
  unfold strip at 1. rewrite Hl. unfold strip. apply rstrip_by_idem.
Qed.

Lemma strip_elem s c : c ∈ strip s → c ∈ s.
Proof. unfold strip. intros H%rstrip_by_elem. by apply lstrip_by_elem in H. Qed.

Lemma strip_space s : strip (32 :: s) = strip s.
Proof. done. Qed.

Lemma split_on_nonempty sep s : split_on sep s ≠ [].
Proof.
  induction s as [|c s IH]; simpl; [done|].
  destruct (c =? sep); [done|]. by destruct (split_on sep s).
Qed.

Lemma split_on_cons_other sep c s :
  c ≠ sep →
  ∃ w ws, split_on sep s = w :: ws ∧ split_on sep (c :: s) = (c :: w) :: ws.
Proof.
  intros Hne. simpl. rewrite (proj2 (N.eqb_neq c sep)) by done.
  destruct (split_on sep s) as [|w ws] eqn:Hs.
  - by apply split_on_nonempty in Hs.
  - eauto.
Qed.

Lemma split_on_app sep s t :
  sep ∉ s → split_on sep (s ++ sep :: t) = s :: split_on sep t.
Proof.
  induction s as [|c s IH]; simpl; intros Hs.
  - by rewrite N.eqb_refl.
  - apply not_elem_of_cons in Hs as [Hne Hs].
    rewrite (proj2 (N.eqb_neq c sep)) by done. by rewrite IH.
Qed.

Lemma split_on_plain sep s : sep ∉ s → split_on sep s = [s].
Proof.
  induction s as [|c s IH]; simpl; intros Hs; [done|].
  apply not_elem_of_cons in Hs as [Hne Hs].
  rewrite (proj2 (N.eqb_neq c sep)) by done. by rewrite IH.
Qed.

Lemma split_on_pieces sep s w : w ∈ split_on sep s → sep ∉ w.
Proof.
  revert w. induction s as [|c s IH]; simpl; intros w.
  - intros ->%list_elem_of_singleton. apply not_elem_of_nil.
  - destruct (c =? sep) eqn:Hc.
    + intros [->|Hw]%elem_of_cons; [apply not_elem_of_nil|auto].
    + apply N.eqb_neq in Hc. destruct (split_on sep s) as [|w0 ws] eqn:Hs.
      * intros ->%list_elem_of_singleton.
        rewrite not_elem_of_cons. split; [done|apply not_elem_of_nil].
      * intros [->|Hw]%elem_of_cons.
        -- rewrite not_elem_of_cons. split; [done|]. apply IH. left.
        -- apply IH. by right.
Qed.

Lemma name_list_names s : Forall is_name (name_list s).
Proof.
  unfold name_list. apply Forall_forall. intros n Hn.
  apply list_elem_of_filter in Hn as [Hne Hn].
  apply list_elem_of_fmap in Hn as (w & -> & Hw).
  split; [done|]. split; [apply strip_idem|].
  intros Hin%strip_elem. by apply split_on_pieces in Hw.
Qed.

Lemma name_list_space s : name_list (32 :: s) = name_list s.
Proof.
  unfold name_list.
  destruct (split_on_cons_other 44 32 s) as (w & ws & Hs & ->); [done|].
  rewrite Hs. rewrite !fmap_cons. by rewrite strip_space.
Qed.

Lemma name_list_cons n s :
  is_name n → name_list (n ++ 44 :: s) = n :: name_list s.
Proof.
  intros (Hne & Hstrip & Hcomma). unfold name_list.
  rewrite split_on_app by done. rewrite fmap_cons, Hstrip.
  by rewrite filter_cons_True.
Qed.

Lemma name_list_single n : is_name n → name_list n = [n].
Proof.
  intros (Hne & Hstrip & Hcomma). unfold name_list.
  rewrite split_on_plain by done. simpl. rewrite Hstrip.
  by rewrite filter_cons_True.
Qed.

Lemma py_comma_space : py ", " = [44; 32].
Proof. by vm_compute. Qed.

(** Splitting the joined names gives the names back. *)
Lemma name_list_join l :
  Forall is_name l → name_list (join (py ", ") l) = l.
Proof.
  rewrite py_comma_space.
  induction 1 as [|n l Hn Hl IH]; [done|].
  simpl. destruct l as [|n' l]; [by apply name_list_single|].
  change (n ++ [44; 32] ++ ?t) with (n ++ 44 :: 32 :: t).
  rewrite name_list_cons by done. rewrite name_list_space. by rewrite IH.
Qed.
End TextFacts.

(** ** The normaliser, field by field *)

Section NormalizerFacts.
Context `{RT : Runtime}.
Implicit Types (d r : list (list N * value)) (k : list N) (v : value).

Lemma name_list_nil : name_list [] = [].
Proof. done. Qed.

Lemma normalize_movie_data_inv r r' :
  normalize_movie_data r = Ok r' →
  ∃ d, normalize_steps r = Ok d ∧ r' = order_fields d.
Proof.
  unfold normalize_movie_data. unfold_bind.
  destruct (normalize_steps r) as [d|]; [|done]. intros [= <-]. eauto.
Qed.

(** What [limit_names] leaves in its field. *)
Lemma limit_names_result field keep d d' s :
  limit_names field keep d = Ok d' →
  dget field d' = Some (VStr s) →
  name_list s = [] ∨ ∃ s0, name_list s0 ≠ [] ∧ s = keep (name_list s0).
Proof.
  unfold limit_names, has, get. intros H Hs.
  destruct (dget field d) as [v|] eqn:Hv; simpl in H.
  - destruct (truthy v) eqn:Htr; simpl in H.
    + destruct v; simplify_eq/=. unfold_bind.
      destruct (name_list s0) eqn:Hn; simplify_eq/=.
      * left. congruence.
      * right. rewrite dget_dset_eq in Hs. simplify_eq. exists s0.
        rewrite Hn. done.
    + simplify_eq. left. destruct s; [done|]. done.
  - simplify_eq.
Qed.

Lemma keep_five_names l :
  Forall is_name l → name_list (keep_five l) = take 5 l.
Proof. intros Hl. unfold keep_five. apply name_list_join. by apply Forall_take. Qed.

Lemma keep_first_names l :
  Forall is_name l → l ≠ [] → name_list (keep_first l) = take 1 l.
Proof.
  intros Hl Hne. destruct l as [|n l]; [done|]. simpl.
  apply name_list_single. by apply Forall_cons in Hl as [? _].
Qed.
End NormalizerFacts.

Section NormalizerClaims.
Context `{RT : Runtime}.
Implicit Types (d r : list (list N * value)) (k : list N) (v : value).

Lemma limit_names_holds field keep limit d d' :
  limit_names field keep d = Ok d' →
  (∀ l, Forall is_name l → l ≠ [] →
        ∃ l', name_list (keep l) = l' ∧ (length l' ≤ limit)%nat) →
  holds_names limit (dget field d').
Proof.
  intros H Hkeep. unfold holds_names.
  destruct (dget field d') as [v|] eqn:Hv; [|done].
  assert (∀ s, v = VStr s →
    (length (name_list s) ≤ limit)%nat
    ∧ Forall (fun n => n ≠ [] ∧ strip n = n) (name_list s)) as Hstr.
  { intros s ->. split.
    - destruct (limit_names_result _ _ _ _ _ H Hv) as [->|(s0 & Hne & ->)];
        [simpl; lia|].
      destruct (Hkeep (name_list s0) (name_list_names s0) Hne) as (l' & -> & Hlen).
      done.
    - eapply Forall_impl; [apply name_list_names|]. by intros n (? & ? & _). }
  destruct v; try (by apply Hstr).
  all: unfold limit_names, has, get in H.
  all: destruct (dget field d) as [v0|] eqn:Hv0; simpl in H; simplify_eq/=.
  all: destruct (truthy v0) eqn:Htr; simpl in H; simplify_eq/=.
  all: try done.
  all: destruct v0; simplify_eq/=; unfold_bind;
    destruct (name_list _); simplify_eq/=; rewrite ?dget_dset_eq in Hv; simplify_eq.
Qed.

(** C4. In every record the normaliser returns, [actors] splits on commas
    into at most 5 trimmed, non-empty names, and [directors] and
    [screenwriters] into at most 1. *)
Theorem normalized_names_bounded r r' :
  normalize_movie_data r = Ok r' →
  holds_names 5 (dget (py "actors") r')
  ∧ holds_names 1 (dget (py "directors") r')
  ∧ holds_names 1 (dget (py "screenwriters") r').
Proof.
  intros (d & H & ->)%normalize_movie_data_inv.
  apply normalize_steps_inv in H
    as (d1 & d2 & d3 & d6 & d7 & d8 & d9 & d10 & H1 & H2 & H3 & H6 & H7 & H8 & H9 & H10 & ->).
  rewrite !dget_order_fields.
  assert (∀ l, Forall is_name l → l ≠ [] →
    ∃ l', name_list (keep_first l) = l' ∧ (length l' ≤ 1)%nat) as Hfirst.
  { intros l Hl Hne. eexists. split; [by apply keep_first_names|].
    rewrite length_take. lia. }
  split_and!.
  - frame_back. eapply limit_names_holds; [done|].
    intros l Hl _. eexists. split; [by apply keep_five_names|].
    rewrite length_take. lia.
  - frame_back. by eapply limit_names_holds.
  - frame_back. by eapply limit_names_holds.
Qed.

Lemma name_list_truthy s n l : name_list s = n :: l → nonempty s = true.
Proof. by destruct s. Qed.

(** What [collapse_release_dates] does with a list of release entries. *)
Lemma collapse_release_dates_entries d d' s first rest :
  collapse_release_dates d = Ok d' →
  dget (py "release_dates") d = Some (VStr s) →
  name_list s = first :: rest →
  dget (py "release_dates") d' = None
  ∧ dget (py "release_date") d'
    = match date_of_entry first with
      | Some date => Some (VStr date)
      | None => dget (py "release_date") d
      end.
Proof.
  intros H Hs Hn. unfold collapse_release_dates, has, get in H.
  rewrite Hs in H. simpl in H. rewrite (name_list_truthy _ _ _ Hn) in H.
  simpl in H. unfold_bind. rewrite Hn in H. simplify_eq.
  split; [by dsimpl|].
  destruct (date_of_entry first); by dsimpl.
Qed.

Lemma release_date_as_str_text d date :
  dget (py "release_date") d = Some (VStr date) →
  dget (py "release_date") (release_date_as_str d) = Some (VStr date).
Proof. unfold release_date_as_str, has, get. intros H. rewrite H. simpl. done. Qed.

Lemma release_date_as_str_kept d :
  dget (py "release_date") (release_date_as_str d)
  = kept_release_date (dget (py "release_date") d).
Proof.
  unfold release_date_as_str, has, get.
  destruct (dget (py "release_date") d) as [v|] eqn:Hv; simpl; [|done].
  destruct (is_int v); [by dsimpl|by rewrite Hv].
Qed.

(** Without a date in the entries, and without [release_year],
    [release_date] is left as it is. *)
Lemma collapse_release_dates_kept d d' :
  collapse_release_dates d = Ok d' →
  dget (py "info") d = None →
  (truthy (get (py "release_dates") d) = true →
   ∃ s, get (py "release_dates") d = VStr s
        ∧ match name_list s with
          | first :: _ => date_of_entry first = None
          | [] => True
          end) →
  (truthy (get (py "release_dates") d) = false →
   truthy (get (py "release_year") d) = false) →
  dget (py "release_date") d' = dget (py "release_date") d.
Proof.
  intros H Hinfo Hentries Hyear. unfold collapse_release_dates in H.
  destruct (truthy (get (py "release_dates") d)) eqn:Htr.
  - destruct Hentries as (s & Hs & Hn); [done|].
    assert (has (py "release_dates") d = true) as Hhas.
    { unfold has. unfold get in Hs. by destruct (dget (py "release_dates") d). }
    rewrite Hhas, Hs in H. simpl in H. unfold_bind.
    destruct (name_list s) as [|first rest]; simplify_eq; [by dsimpl|].
    rewrite Hn. by dsimpl.
  - rewrite andb_false_r in H. rewrite Hyear in H by done.
    rewrite andb_false_r in H.
    unfold has at 2 in H. rewrite Hinfo in H. simpl in H.
    destruct (_ || _); by simplify_eq.
Qed.

End NormalizerClaims.

Section ReleaseEvaluations.
Local Existing Instance Plain.runtime.

End ReleaseEvaluations.

(** ** A second normalisation *)

Section Settled.
Context `{RT : Runtime}.
Implicit Types (d r : list (list N * value)) (k : list N) (v : value).

Lemma limit_names_settled field keep d d' :
  limit_names field keep d = Ok d' →
  (∀ l, Forall is_name l → l ≠ [] → keep (name_list (keep l)) = keep l) →
  names_settled keep (dget field d').
Proof.
  intros H Hkeep. unfold names_settled.
  unfold limit_names, has, get in H.
  destruct (dget field d) as [v|] eqn:Hv; simpl in H.
  - destruct (truthy v) eqn:Htr; simpl in H.
    + destruct v; simplify_eq/=. unfold_bind.
      destruct (name_list s) as [|n l] eqn:Hn; simplify_eq/=.
      * rewrite Hv. right. eauto.
      * rewrite dget_dset_eq. right. eexists. split; [done|]. right.
        rewrite <- Hn. apply Hkeep; [apply name_list_names|]. by rewrite Hn.
    + simplify_eq. rewrite Hv. by left.
  - simplify_eq. by rewrite Hv.
Qed.

Lemma limit_names_id field keep d :
  names_settled keep (dget field d) → limit_names field keep d = Ok d.
Proof.
  unfold names_settled, limit_names, has, get.
  destruct (dget field d) as [v|] eqn:Hv; simpl; [|done].
  intros [Htr|(s & -> & Hs)]; [by rewrite Htr|].
  destruct (truthy (VStr s)); [|done]. simpl. unfold_bind.
  destruct Hs as [->|Hs]; [done|].
  destruct (name_list s) eqn:Hn; [done|]. simpl.
  rewrite Hs. by rewrite dset_id.
Qed.

Lemma keep_five_settles l :
  Forall is_name l → l ≠ [] → keep_five (name_list (keep_five l)) = keep_five l.
Proof.
  intros Hl _. rewrite keep_five_names by done. unfold keep_five.
  by rewrite take_take, Nat.min_id.
Qed.

Lemma keep_first_settles l :
  Forall is_name l → l ≠ [] → keep_first (name_list (keep_first l)) = keep_first l.
Proof.
  intros Hl Hne. rewrite keep_first_names by done. by destruct l.
Qed.

(** The rating after [coerce_rating]: falsy, or a float. *)
Lemma coerce_rating_result d :
  ∃ v, dget (py "rating") (coerce_rating d) = Some v
       ∧ (truthy v = false ∨ ∃ f, v = VFloat f).
Proof.
  unfold coerce_rating, has, get.
  destruct (dget (py "rating") d) as [v|] eqn:Hv; simpl.
  - destruct (truthy v) eqn:Htr.
    + repeat case_match; rewrite dget_dset_eq; eauto.
    + rewrite Hv. eauto.
  - rewrite dget_dset_eq. eauto.
Qed.

Lemma coerce_rating_id d v :
  dget (py "rating") d = Some v →
  (truthy v = false ∨ ∃ f, v = VFloat f ∧ (float_truthy f = true → reads_back f)) →
  coerce_rating d = d.
Proof.
  intros Hv Hok. unfold coerce_rating, has, get. rewrite Hv. simpl.
  destruct Hok as [Htr|(f & -> & Hf)]; [by rewrite Htr|].
  simpl. destruct (float_truthy f) eqn:Htr; [|done].
  destruct Hf as [Hne Hread]; [done|]. simpl in *.
  rewrite Hne, Hread. by apply dset_id.
Qed.

Lemma derive_total_ratings_settled d d' :
  derive_total_ratings d = Ok d' → count_settled d'.
Proof.
  unfold derive_total_ratings, count_settled, has, get. intros H.
  destruct (dget (py "people") d) as [p|] eqn:Hp; simpl in H.
  - destruct (truthy p) eqn:Htr; simpl in H.
    + destruct p; simplify_eq/=. unfold_bind. simplify_eq.
      dsimpl. split; [done|]. eexists. split; [done|]. done.
    + destruct (dget (py "total_ratings") d) as [t|] eqn:Ht; simpl in H.
      * destruct t; simplify_eq; dsimpl; rewrite ?Hp, ?Ht; simpl;
          (split; [done|]); eexists; (split; [done|]); done.
      * simplify_eq. dsimpl. rewrite Hp. simpl.
        split; [done|]. eexists. split; [done|]. done.
  - destruct (dget (py "total_ratings") d) as [t|] eqn:Ht; simpl in H.
    + destruct t; simplify_eq; dsimpl; rewrite ?Hp, ?Ht; simpl;
        (split; [done|]); eexists; (split; [done|]); done.
    + simplify_eq. dsimpl. rewrite Hp. simpl.
      split; [done|]. eexists. split; [done|]. done.
Qed.

Lemma derive_total_ratings_id d :
  count_settled d → derive_total_ratings d = Ok d.
Proof.
  unfold derive_total_ratings, count_settled, has, get.
  intros [Hp (v & Hv & Hstr)]. rewrite Hv. simpl.
  destruct (dget (py "people") d) as [p|]; simpl in *; [rewrite Hp|].
  - destruct v; try done. by destruct (Hstr s).
  - destruct v; try done. by destruct (Hstr s).
Qed.

(** After [derive_movie_id]: an integer. *)
Lemma derive_movie_id_result d d' :
  derive_movie_id d = Ok d' →
  ∃ v, dget (py "movie_id") d' = Some v
       ∧ ((∃ z, v = VInt z) ∨ (truthy v = true ∧ is_int v = true)).
Proof.
  unfold derive_movie_id, has, get. intros H.
  destruct (dget (py "movie_id") d) as [m|] eqn:Hm; simpl in H.
  - destruct (truthy m) eqn:Htr; simpl in H.
    + destruct m; simplify_eq/=; try (rewrite dget_dset_eq; by eauto).
      * rewrite Hm. eexists. split; [done|]. right. done.
      * rewrite Hm. eexists. split; [done|]. right. done.
      * destruct (nonempty (strip s)); simplify_eq; rewrite dget_dset_eq; eauto.
    + unfold_bind. destruct (link_movie_id d); simplify_eq.
      rewrite dget_dset_eq. eauto.
  - unfold_bind. destruct (link_movie_id d); simplify_eq.
    rewrite dget_dset_eq. eauto.
Qed.

Lemma link_movie_id_ext d d' :
  dget (py "link") d' = dget (py "link") d → link_movie_id d' = link_movie_id d.
Proof. unfold link_movie_id, has, get. by intros ->. Qed.

Lemma derive_movie_id_id d v :
  dget (py "movie_id") d = Some v →
  (∃ z, v = VInt z) ∨ (truthy v = true ∧ is_int v = true) →
  (v = VInt 0 → link_movie_id d = Ok 0%Z) →
  derive_movie_id d = Ok d.
Proof.
  intros Hv Hint Hlink. unfold derive_movie_id, has, get. rewrite Hv. simpl.
  destruct (truthy v) eqn:Htr; simpl.
  - destruct Hint as [[z ->]|[_ Hi]]; [done|]. by destruct v.
  - destruct Hint as [[z ->]|[? _]]; [|done]. simpl in Htr.
    apply negb_false_iff, Z.eqb_eq in Htr as ->.
    rewrite Hlink by done. unfold_bind. by rewrite dset_id.
Qed.

Lemma clean_text_field_settled field d d' :
  clean_text_field field d = Ok d' → text_settled (dget field d').
Proof.
  unfold clean_text_field, text_settled, has, get. intros H.
  destruct (dget field d) as [v|] eqn:Hv; simpl in H.
  - destruct (truthy v) eqn:Htr; simpl in H.
    + unfold_bind.
      destruct (py_in (py "导演") v) as [[]|] eqn:H1; simplify_eq;
        [rewrite dget_dset_eq; by left|].
      destruct (py_in (py "主演") v) as [[]|] eqn:H2; simplify_eq;
        [rewrite dget_dset_eq; by left|].
      destruct (py_len v) as [n|] eqn:H3; simplify_eq.
      destruct (200 <? n)%nat eqn:Hn; simplify_eq;
        [rewrite dget_dset_eq; by left|].
      rewrite Hv. right. eauto.
    + simplify_eq. rewrite Hv. by left.
  - simplify_eq. by rewrite Hv.
Qed.

Lemma clean_text_field_id field d :
  text_settled (dget field d) → clean_text_field field d = Ok d.
Proof.
  unfold clean_text_field, text_settled, has, get.
  destruct (dget field d) as [v|]; simpl; [|done].
  intros [Htr|(H1 & H2 & n & H3 & Hn)]; [by rewrite Htr|].
  destruct (truthy v); [|done]. unfold_bind. by rewrite H1, H2, H3, Hn.
Qed.

(** After the release step: no list of entries, no integer date. *)
Lemma collapse_release_dates_settled d d' :
  collapse_release_dates d = Ok d' →
  truthy (get (py "release_dates") d') = false.
Proof.
  unfold collapse_release_dates, has, get. intros H.
  destruct (dget (py "release_dates") d) as [v|] eqn:Hv; simpl in H.
  - destruct (truthy v) eqn:Htr; simpl in H.
    + unfold_bind. destruct (as_str v); simplify_eq. by dsimpl.
    + step_cases; dsimpl; by rewrite ?Hv.
  - step_cases; dsimpl; by rewrite ?Hv.
Qed.

Lemma release_date_as_str_settled d :
  match dget (py "release_date") (release_date_as_str d) with
  | Some v => is_int v = false
  | None => True
  end.
Proof.
  unfold release_date_as_str, has, get.
  destruct (dget (py "release_date") d) as [v|] eqn:Hv; simpl.
  - destruct (is_int v) eqn:Hi.
    + by rewrite dget_dset_eq.
    + by rewrite Hv.
  - by rewrite Hv.
Qed.

Lemma release_step_id d :
  truthy (get (py "release_dates") d) = false →
  dget (py "release_year") d = None →
  dget (py "info") d = None →
  match dget (py "release_date") d with
  | Some v => is_int v = false
  | None => True
  end →
  collapse_release_dates d = Ok d ∧ release_date_as_str d = d.
Proof.
  intros Hds Hy Hinfo Hdate.
  unfold collapse_release_dates, release_date_as_str, has, get in *.
  rewrite Hy, Hinfo. simpl. rewrite Hds, andb_false_r.
  destruct (dget (py "release_date") d) as [v|]; simpl.
  - rewrite Hdate. split; [|done]. by destruct (truthy v).
  - done.
Qed.

Lemma normal_form_at_ext g g' :
  (∀ k, g' k = g k) → normal_form_at g → normal_form_at g'.
Proof.
  intros Heq. unfold normal_form_at. rewrite !Heq.
  intros (Hdel & H). split; [|done].
  eapply Forall_impl; [done|]. intros k Hk. by rewrite Heq.
Qed.

(** The normaliser returns a record in normal form. *)
Lemma normalize_steps_normal_form r d :
  normalize_steps r = Ok d → normal_form_at (fun k => dget k d).
Proof.
  intros H. apply normalize_steps_inv in H
    as (d1 & d2 & d3 & d6 & d7 & d8 & d9 & d10
        & H1 & H2 & H3 & H6 & H7 & H8 & H9 & H10 & ->).
  destruct (derive_total_ratings_settled _ _ H6) as [Hpeople Hcount].
  unfold get in Hpeople.
  pose proof (collapse_release_dates_settled _ _ H10) as Hdates.
  unfold get in Hdates.
  unfold normal_form_at. split_and!.
  - unfold deleted_keys. repeat (apply Forall_cons; split); [..|apply Forall_nil].
    all: by frame_back.
  - frame_back. eapply limit_names_settled; [done|]. apply keep_five_settles.
  - frame_back. eapply limit_names_settled; [done|]. apply keep_first_settles.
  - frame_back. eapply limit_names_settled; [done|]. apply keep_first_settles.
  - frame_back. apply coerce_rating_result.
  - by frame_back.
  - by frame_back.
  - frame_back. by eapply derive_movie_id_result.
  - frame_back. by eapply clean_text_field_settled.
  - frame_back. by eapply clean_text_field_settled.
  - by frame_back.
  - dsimpl. apply release_date_as_str_settled.
Qed.

(** On a record in normal form the steps change nothing. *)
Lemma normalize_steps_id d :
  normal_form_at (fun k => dget k d) →
  rating_reads_back d →
  id_stable d →
  normalize_steps d = Ok d.
Proof.
  intros (Hdel & Hact & Hdir & Hscr & (vr & Hvr & Hrating) & Hpeople
          & Hcount & (vm & Hvm & Hid) & Hcou & Hlan & Hdates & Hdate)
         Hfloat Hstable.
  unfold deleted_keys in Hdel. rewrite !Forall_cons in Hdel. destruct_and!.
  destruct (release_step_id d) as [Hcollapse Hasstr]; [done..|].
  unfold normalize_steps.
  rewrite !(ddel_id (py "rank")), !(ddel_id (py "other_titles")) by done.
  rewrite (limit_names_id (py "actors")) by done.
  unfold_bind. cbv beta iota zeta.
  rewrite (limit_names_id (py "directors")) by done. cbv beta iota zeta.
  rewrite (limit_names_id (py "screenwriters")) by done. cbv beta iota zeta.
  rewrite (ddel_id (py "also_known_as")) by done.
  cbn [foldl rating_star_keys].
  rewrite (ddel_id (py "rating_5star")), (ddel_id (py "rating_4star")),
    (ddel_id (py "rating_3star")), (ddel_id (py "rating_2star")),
    (ddel_id (py "rating_1star")) by done.
  rewrite (ddel_id (py "quote")), (ddel_id (py "info")), (ddel_id (py "category")),
    (ddel_id (py "rating_detail")) by done.
  rewrite (coerce_rating_id d vr Hvr).
  2: { destruct Hrating as [?|[f ->]]; [by left|]. right. eexists. split; [done|].
       intros Htr. by apply Hfloat. }
  rewrite (derive_total_ratings_id d) by done. cbv beta iota zeta.
  rewrite (derive_movie_id_id d vm Hvm Hid).
  2: { intros ->. by apply Hstable. }
  cbv beta iota zeta.
  rewrite (clean_text_field_id (py "countries")) by done. cbv beta iota zeta.
  rewrite (clean_text_field_id (py "languages")) by done. cbv beta iota zeta.
  rewrite Hcollapse. cbv beta iota zeta. rewrite Hasstr.
  by rewrite (ddel_id (py "release_year")).
Qed.

(** C3, amended. Normalising a normalised record returns it unchanged,
    fields, values and order, when the text of its float rating reads
    back as the float and a [movie_id] of 0 is what its link gives. *)
Theorem normalize_idempotent r r' :
  normalize_movie_data r = Ok r' →
  rating_reads_back r' →
  id_stable r' →
  normalize_movie_data r' = Ok r'.
Proof.
  intros (d & H & ->)%normalize_movie_data_inv Hfloat Hstable.
  apply normalize_steps_normal_form in H.
  unfold normalize_movie_data.
  rewrite (normalize_steps_id (order_fields d)); [|..|done|done].
  - unfold_bind. by rewrite order_fields_idem.
  - eapply normal_form_at_ext; [|done]. intros k. apply dget_order_fields.
Qed.
End Settled.

(** ** Evaluations on the small runtime *)

Section Evaluations.
Local Existing Instance Plain.runtime.

(** C3, counterexample. A [movie_id] that is not a number becomes 0 in the
    first normalisation and the number of the link in the second. *)
Lemma normalize_twice_differs :
  normalize_movie_data unstable_id = Ok unstable_id_once
  ∧ normalize_movie_data unstable_id_once = Ok unstable_id_twice
  ∧ unstable_id_once ≠ unstable_id_twice.
Proof. split_and!; [reflexivity|reflexivity|discriminate]. Qed.

Lemma shawshank_normalizes : normalize_movie_data shawshank = Ok shawshank_normalized.
Proof. reflexivity. Qed.

Lemma normalize_idempotent_witness :
  normalize_movie_data shawshank_normalized = Ok shawshank_normalized.
Proof.
  apply (normalize_idempotent shawshank); [reflexivity|..].
  - intros f Hf _.
    assert (dget (py "rating") shawshank_normalized = Some (VFloat 97%Z)) as E
      by reflexivity.
    rewrite E in Hf. injection Hf as <-. split; reflexivity.
  - intros Hid.
    assert (dget (py "movie_id") shawshank_normalized = Some (VInt 1292052)) as E
      by reflexivity.
    rewrite E in Hid. discriminate Hid.
Defined.

Lemma normalized_names_bounded_witness :
  holds_names 5 (dget (py "actors") shawshank_normalized)
  ∧ holds_names 1 (dget (py "directors") shawshank_normalized)
  ∧ holds_names 1 (dget (py "screenwriters") shawshank_normalized).
Proof. apply (normalized_names_bounded shawshank). reflexivity. Defined.
End Evaluations.

Section RatingBug.
Context `{RT : Runtime}.

(** C2, at the failing input. A rating that is the empty string is left
    as it is: the record comes back with a string rating, not 0.0. *)
Theorem normalize_keeps_empty_rating :
  normalize_movie_data [(py "title", VStr (py "X")); (py "rating", VStr [])]
  = Ok [ (py "movie_id", VInt 0); (py "title", VStr (py "X"));
         (py "rating", VStr []); (py "total_ratings", VInt 0) ].
Proof. reflexivity. Qed.
End RatingBug.

(** ** The detail merger *)

Section MergerFacts.
Context `{RT : Runtime}.
Implicit Types (d base detail : list (list N * value)) (k : list N) (v : value).

Lemma dget_merge_field detail d f k :
  dget k (merge_field detail d f)
  = if decide (k = f)
    then if truthy (get f detail) then Some (get f detail) else dget k d
    else dget k d.
Proof.
  unfold merge_field. destruct (decide (k = f)) as [->|Hne].
  - destruct (truthy (get f detail)); [by rewrite dget_dset_eq|done].
  - destruct (truthy (get f detail)); [by rewrite dget_dset_ne|done].
Qed.

Lemma dget_merge_fields detail fields d k :
  dget k (foldl (merge_field detail) d fields)
  = if decide (k ∈ fields)
    then if truthy (get k detail) then Some (get k detail) else dget k d
    else dget k d.
Proof.
  revert d. induction fields as [|f fields IH]; intros d.
  - cbn [foldl]. destruct (decide (k ∈ [])) as [Hin|]; [|done].
    by apply elem_of_nil in Hin.
  - cbn [foldl]. rewrite IH, dget_merge_field.
    destruct (decide (k ∈ fields)) as [Hin|Hin].
    + rewrite (decide_True (P := k ∈ f :: fields)) by (by right).
      destruct (truthy (get k detail)) eqn:Hk; [done|].
      destruct (decide (k = f)) as [->|Hne]; [by rewrite Hk|done].
    + destruct (decide (k = f)) as [->|Hne].
      * by rewrite (decide_True (P := f ∈ f :: fields)) by left.
      * rewrite (decide_False (P := k ∈ f :: fields)); [done|].
        rewrite elem_of_cons. naive_solver.
Qed.

Lemma merge_average_frame rating_detail d d' k :
  merge_average rating_detail d = Ok d' → k ≠ py "rating" → dget k d' = dget k d.
Proof. unfold merge_average. intros H ?. step_cases; by dsimpl. Qed.

Lemma merge_count_frame rating_detail d d' k :
  merge_count rating_detail d = Ok d' → k ≠ py "total_ratings" →
  dget k d' = dget k d.
Proof. unfold merge_count. intros H ?. step_cases; by dsimpl. Qed.

(** The rating [merge_average] leaves. *)
Lemma merge_average_rating rating_detail d d' :
  merge_average rating_detail d = Ok d' →
  ∃ avg, vget_or (py "average") VNone rating_detail = Ok avg
    ∧ dget (py "rating") d'
      = if truthy avg then
          match py_float avg with
          | Ok f => Some (VFloat f)
          | Raise _ => Some (get_or (py "rating") (VFloat float_zero) d)
          end
        else dget (py "rating") d.
Proof.
  unfold merge_average. intros H. unfold_bind.
  destruct (vget_or (py "average") VNone rating_detail) as [avg|]; [|done].
  exists avg. split; [done|].
  destruct (truthy avg) eqn:Htr; [|by simplify_eq].
  destruct avg; simplify_eq/=;
    try (destruct (float_of_Z _); simplify_eq/=; by rewrite dget_dset_eq).
  - by rewrite dget_dset_eq.
  - destruct (float_of_str s); simplify_eq/=; by rewrite dget_dset_eq.
Qed.

(** The count [merge_count] leaves. *)
Lemma merge_count_total rating_detail d d' :
  merge_count rating_detail d = Ok d' →
  ∃ count, vget_or (py "total_ratings") VNone rating_detail = Ok count
    ∧ dget (py "total_ratings") d'
      = if truthy count then Some count else dget (py "total_ratings") d.
Proof.
  unfold merge_count. intros H. unfold_bind.
  destruct (vget_or (py "total_ratings") VNone rating_detail) as [c|]; [|done].
  exists c. split; [done|].
  destruct (truthy c); simplify_eq; [by rewrite dget_dset_eq|done].
Qed.

Lemma rating_not_enrichable : py "rating" ∉ enrichable_fields.
Proof. apply (bool_decide_eq_false_1 (py "rating" ∈ enrichable_fields)). reflexivity. Qed.

Lemma total_ratings_not_enrichable : py "total_ratings" ∉ enrichable_fields.
Proof.
  apply (bool_decide_eq_false_1 (py "total_ratings" ∈ enrichable_fields)).
  reflexivity.
Qed.

Lemma enrichable_not_rating k :
  k ∈ enrichable_fields → k ≠ py "rating" ∧ k ≠ py "total_ratings".
Proof.
  pose proof rating_not_enrichable. pose proof total_ratings_not_enrichable.
  intros Hin. split; by intros ->.
Qed.

End MergerFacts.

(** ** The persistence sink *)

Section SinkFacts.
Context `{RT : Runtime}.
Implicit Types (d movie : list (list N * value)) (fs : files) (path : list N).

Lemma given_nonempty path : path ≠ [] → given (Some path) = Some path.
Proof. by destruct path. Qed.

Lemma append_csv_fresh movie :
  append_csv None movie
  = [new_fieldnames movie; csv_row (new_fieldnames movie) movie].
Proof. unfold append_csv. simpl. by destruct (new_fieldnames movie). Qed.

Lemma append_csv_existing header rows movie :
  header ≠ [] →
  append_csv (Some (header :: rows)) movie
  = header :: rows ++ [csv_row header movie].
Proof. intros Hne. unfold append_csv. simpl. by destruct header. Qed.

(** What [save_movie_line] leaves in each store. *)
Lemma save_movie_line_inv fs movie t fs' updated :
  save_movie_line fs movie t = Ok (fs', updated) →
  normalize_steps movie = Ok updated
  ∧ normalize_movie_data movie = Ok (order_fields updated)
  ∧ fs' = write_csv (csv_filename t) (order_fields updated)
            (write_json (json_filename t) (order_fields updated)
               (write_jsonl (jsonl_filename t) (order_fields updated) fs)).
Proof.
  unfold save_movie_line, normalize_movie_data. unfold_bind.
  destruct (normalize_steps movie) as [u|]; [|done]. by intros [= <- <-].
Qed.

Lemma csv_files_write_csv path movie fs :
  path ≠ [] →
  csv_files (write_csv (Some path) movie fs) !! path
  = Some (append_csv (csv_files fs !! path) movie).
Proof.
  intros Hne. unfold write_csv. rewrite given_nonempty by done. simpl.
  apply lookup_insert_eq.
Qed.

Lemma csv_files_write_json filename movie fs :
  csv_files (write_json filename movie fs) = csv_files fs.
Proof. unfold write_json. by destruct (given filename). Qed.

Lemma csv_files_write_jsonl filename movie fs :
  csv_files (write_jsonl filename movie fs) = csv_files fs.
Proof. unfold write_jsonl. by destruct (given filename). Qed.

Lemma json_files_write_json path movie fs :
  path ≠ [] →
  json_files (write_json (Some path) movie fs) !! path
  = Some (append_json (json_files fs !! path) movie).
Proof.
  intros Hne. unfold write_json. rewrite given_nonempty by done. simpl.
  apply lookup_insert_eq.
Qed.

Lemma json_files_write_csv filename movie fs :
  json_files (write_csv filename movie fs) = json_files fs.
Proof. unfold write_csv. by destruct (given filename). Qed.

Lemma json_files_write_jsonl filename movie fs :
  json_files (write_jsonl filename movie fs) = json_files fs.
Proof. unfold write_jsonl. by destruct (given filename). Qed.


(** *** The header of the CSV file *)

Lemma picked_keys d (fields : list (list N)) :
  (omap (fun field => pair field <$> dget field d) fields).*1
  = filter (fun field => has field d = true) fields.
Proof.
  induction fields as [|f fields IH]; [done|].
  cbn [omap list_omap]. rewrite filter_cons.
  destruct (dget f d) as [v|] eqn:Hf; cbn [fmap option_fmap option_map].
  - rewrite decide_True by (unfold has; by rewrite Hf). rewrite fmap_cons. by f_equal.
  - rewrite decide_False by (unfold has; by rewrite Hf). done.
Qed.

Lemma filter_keys_fst d (fields : list (list N)) :
  filter (fun key => key ∉ fields) d.*1
  = (filter (fun kv : list N * value => kv.1 ∉ fields) d).*1.
Proof.
  induction d as [|[k v] d IH]; [done|].
  rewrite fmap_cons, !filter_cons. cbn [fst].
  destruct (decide (k ∉ fields)); [|done]. by rewrite fmap_cons, IH.
Qed.

(** The header of a new file is the keys of the ordered record. *)
Lemma new_fieldnames_ordered d :
  new_fieldnames (order_fields d) = (order_fields d).*1.
Proof.
  unfold new_fieldnames.
  rewrite (list_filter_iff (fun field => has field (order_fields d) = true)
             (fun field => has field d = true)).
  2:{ intros k. unfold has. by rewrite dget_order_fields. }
  rewrite filter_keys_fst. unfold order_fields at 1 2.
  rewrite filter_app, filter_keys_picked, filter_keys_twice, app_nil_l.
  by rewrite fmap_app, picked_keys.
Qed.

Lemma elem_of_keys k d : k ∈ d.*1 ↔ dget k d ≠ None.
Proof.
  induction d as [|[k' v'] d IH]; simpl.
  - split; [by intros ?%elem_of_nil|done].
  - rewrite elem_of_cons. destruct (decide (k = k')) as [->|Hne]; [naive_solver|].
    rewrite IH. naive_solver.
Qed.

Lemma csv_row_cells header movie i field :
  header !! i = Some field →
  csv_row header movie !! i
  = Some match dget field movie with
         | Some v => csv_cell v
         | None => []
         end.
Proof.
  intros Hi. unfold csv_row. rewrite list_lookup_fmap, Hi. simpl.
  unfold get_or. by destruct (dget field movie).
Qed.
End SinkFacts.

Section CsvHeader.
Context `{RT : Runtime}.
Implicit Types (fs : files) (path : list N).

(** C7, amended. [save_movie_line] writes the normalised record.  The
    header of a fresh CSV file is the list of its keys, among them
    [movie_id], [rating] and [total_ratings], which the normaliser always
    sets.  A file that has a header keeps it, and its rows, and gets one
    more row; a row has one cell for each field of the header, the value of
    the record there or the empty cell, and nothing for the other fields of
    the record. *)
Theorem csv_header_fixed_by_first_write fs movie t path fs' updated :
  csv_filename t = Some path →
  path ≠ [] →
  save_movie_line fs movie t = Ok (fs', updated) →
  ∃ normalized,
    normalize_movie_data movie = Ok normalized
    ∧ (py "movie_id" ∈ normalized.*1 ∧ py "rating" ∈ normalized.*1
       ∧ py "total_ratings" ∈ normalized.*1)
    ∧ (csv_files fs !! path = None →
       csv_files fs' !! path
       = Some [normalized.*1; csv_row normalized.*1 normalized])
    ∧ (∀ header rows,
         csv_files fs !! path = Some (header :: rows) → header ≠ [] →
         csv_files fs' !! path
         = Some (header :: rows ++ [csv_row header normalized]))
    ∧ (∀ header,
         length (csv_row header normalized) = length header
         ∧ ∀ i field, header !! i = Some field →
             csv_row header normalized !! i
             = Some match dget field normalized with
                    | Some v => csv_cell v
                    | None => []
                    end).
Proof.
  intros Hpath Hne Hsave.
  destruct (save_movie_line_inv _ _ _ _ _ Hsave) as (Hsteps & Hnorm & ->).
  exists (order_fields updated). split; [done|].
  rewrite Hpath, csv_files_write_csv by done.
  rewrite csv_files_write_json, csv_files_write_jsonl.
  destruct (normalize_steps_normal_form _ _ Hsteps)
    as (_ & _ & _ & _ & (vr & Hr & _) & _ & (vt & Ht & _) & (vi & Hi & _) & _).
  split_and!.
  - apply elem_of_keys. by rewrite dget_order_fields, Hi.
  - apply elem_of_keys. by rewrite dget_order_fields, Hr.
  - apply elem_of_keys. by rewrite dget_order_fields, Ht.
  - intros ->. by rewrite append_csv_fresh, new_fieldnames_ordered.
  - intros header rows -> Hhead. by rewrite append_csv_existing.
  - intros header. split; [apply length_fmap|].
    intros i field. apply csv_row_cells.
Qed.
End CsvHeader.

Section CsvEvaluations.
Local Existing Instance Plain.runtime.

(** C7, counterexample. After A with the fields [title] and [rating] and
    then B, written to a fresh file, the header has four fields. *)
Lemma fresh_header_is_not_title_rating :
  (fs ← save_all no_files [record_a; record_b] movies_csv;
   Ok (csv_files fs !! py "movies.csv")) = Ok (Some csv_after_b)
  ∧ read_header (Some csv_after_b)
    = [py "movie_id"; py "title"; py "rating"; py "total_ratings"]
  ∧ read_header (Some csv_after_b) ≠ [py "title"; py "rating"].
Proof. split_and!; [reflexivity|reflexivity|discriminate]. Qed.

Lemma csv_header_fixed_by_first_write_witness :
  ∃ normalized,
    normalize_movie_data record_a = Ok normalized
    ∧ (py "movie_id" ∈ normalized.*1 ∧ py "rating" ∈ normalized.*1
       ∧ py "total_ratings" ∈ normalized.*1)
    ∧ (csv_files no_files !! py "movies.csv" = None →
       csv_files (write_csv (Some (py "movies.csv")) record_a_normalized no_files)
         !! py "movies.csv"
       = Some [normalized.*1; csv_row normalized.*1 normalized])
    ∧ (∀ header rows,
         csv_files no_files !! py "movies.csv" = Some (header :: rows) →
         header ≠ [] →
         csv_files (write_csv (Some (py "movies.csv")) record_a_normalized no_files)
           !! py "movies.csv"
         = Some (header :: rows ++ [csv_row header normalized]))
    ∧ (∀ header,
         length (csv_row header normalized) = length header
         ∧ ∀ i field, header !! i = Some field →
             csv_row header normalized !! i
             = Some match dget field normalized with
                    | Some v => csv_cell v
                    | None => []
                    end).
Proof.
  apply (csv_header_fixed_by_first_write no_files record_a movies_csv
           (py "movies.csv") _ record_a_updated).
  - reflexivity.
  - discriminate.
  - reflexivity.
Defined.

End CsvEvaluations.

(** ** The crawl drivers *)

Section ProcessFacts.
Context `{RT : Runtime}.
Variable parse_movie_detail : value → list (list N * value).
Implicit Types (d movie : list (list N * value)) (fs : files) (k : list N).

Lemma merge_detail_info_frame base detail merged k :
  _merge_detail_info base detail = Ok merged →
  k ∉ enrichable_fields → k ≠ py "rating" → k ≠ py "total_ratings" →
  dget k merged = dget k base.
Proof.
  unfold _merge_detail_info. intros H Hk Hr Ht.
  destruct (negb (nonempty detail)); [by simplify_eq|].
  assert (dget k (foldl (merge_field detail) base enrichable_fields) = dget k base)
    as Hfields.
  { rewrite dget_merge_fields. by rewrite (decide_False (P := k ∈ enrichable_fields)). }
  destruct (truthy (get (py "rating_detail") detail)); [|by simplify_eq].
  unfold_bind.
  destruct (merge_average _ _) as [merged1|] eqn:Havg; [|done].
  rewrite (merge_count_frame _ _ _ k H) by done.
  by rewrite (merge_average_frame _ _ _ k Havg).
Qed.

Lemma normalize_movie_data_untouched r r' k :
  normalize_movie_data r = Ok r' → k ∉ normalized_keys → dget k r' = dget k r.
Proof.
  unfold normalize_movie_data. unfold_bind. intros H Hk.
  destruct (normalize_steps r) as [d|] eqn:Hsteps; [|done]. simplify_eq.
  rewrite dget_order_fields. by apply normalize_steps_untouched.
Qed.

(** The stages of [_process_movie_with_detail]. *)
Lemma process_movie_with_detail_inv fs movie fetch_detail save_immediately t fs' movie' :
  _process_movie_with_detail parse_movie_detail fs movie fetch_detail
    save_immediately t = Ok (fs', movie') →
  ∃ merged normalized,
    (merged = movie ∨ ∃ detail, _merge_detail_info movie detail = Ok merged)
    ∧ normalize_movie_data merged = Ok normalized
    ∧ (if save_immediately then save_movie_line fs normalized t = Ok (fs', movie')
       else fs' = fs ∧ movie' = normalized).
Proof.
  unfold _process_movie_with_detail. unfold_bind. intros H.
  match type of H with
  | context [match ?x with Ok _ => _ | Raise _ => _ end] =>
    destruct x as [merged|] eqn:Hmerged; [|done]
  end.
  destruct (normalize_movie_data merged) as [normalized|] eqn:Hnorm; [|done].
  exists merged, normalized. split_and!; [|done|].
  - destruct (fetch_detail && truthy (get (py "link") movie)); [|left; by simplify_eq].
    destruct (nonempty (parse_movie_detail (get (py "link") movie)));
      [right; eauto|left; by simplify_eq].
  - destruct save_immediately; [done|]. by simplify_eq.
Qed.

Lemma process_movie_with_detail_untouched
    fs movie fetch_detail save_immediately t fs' movie' k :
  _process_movie_with_detail parse_movie_detail fs movie fetch_detail
    save_immediately t = Ok (fs', movie') →
  k ∉ normalized_keys → k ∉ enrichable_fields →
  dget k movie' = dget k movie.
Proof.
  intros (merged & normalized & Hmerged & Hnorm & Hsave)%process_movie_with_detail_inv
    Hk Hk'.
  assert (dget k merged = dget k movie) as <-.
  { destruct Hmerged as [->|[detail Hmerge]]; [done|].
    apply (merge_detail_info_frame _ _ _ _ Hmerge); [done|..]; intros ->; apply Hk.
    - apply (bool_decide_eq_true_1 (py "rating" ∈ normalized_keys)). reflexivity.
    - apply (bool_decide_eq_true_1 (py "total_ratings" ∈ normalized_keys)).
      reflexivity. }
  rewrite <-(normalize_movie_data_untouched _ _ _ Hnorm Hk).
  destruct save_immediately.
  - destruct (save_movie_line_inv _ _ _ _ _ Hsave) as (Hsteps & _ & _).
    by apply normalize_steps_untouched.
  - by destruct Hsave as [_ ->].
Qed.

Lemma movie_key_ext movie movie' :
  dget (py "link") movie' = dget (py "link") movie →
  dget (py "title") movie' = dget (py "title") movie →
  movie_key movie' = movie_key movie.
Proof. unfold movie_key, get, get_or. by intros -> ->. Qed.

Lemma link_untouched :
  (py "link" ∉ normalized_keys) ∧ (py "link" ∉ enrichable_fields).
Proof.
  split.
  - apply (bool_decide_eq_false_1 (py "link" ∈ normalized_keys)). reflexivity.
  - apply (bool_decide_eq_false_1 (py "link" ∈ enrichable_fields)). reflexivity.
Qed.

Lemma title_untouched :
  (py "title" ∉ normalized_keys) ∧ (py "title" ∉ enrichable_fields).
Proof.
  split.
  - apply (bool_decide_eq_false_1 (py "title" ∈ normalized_keys)). reflexivity.
  - apply (bool_decide_eq_false_1 (py "title" ∈ enrichable_fields)). reflexivity.
Qed.

(** The dedup key of a record is that of the record it was made from. *)
Lemma process_movie_with_detail_key
    fs movie fetch_detail save_immediately t fs' movie' :
  _process_movie_with_detail parse_movie_detail fs movie fetch_detail
    save_immediately t = Ok (fs', movie') →
  movie_key movie' = movie_key movie.
Proof.
  intros H. destruct link_untouched, title_untouched.
  apply movie_key_ext; by eapply process_movie_with_detail_untouched.
Qed.
End ProcessFacts.

Section DedupFacts.
Context `{RT : Runtime}.
Variable parse_movie_detail : value → list (list N * value).
Implicit Types (st : crawl_state) (before : gset (list N)).

Lemma item_step_refl st : item_step st st.
Proof. by apply item_rejected. Qed.

Lemma dedup_invariant_start before fs : dedup_invariant before (Crawl before fs []).
Proof.
  split; [done|]. exists []. split_and!; [constructor|constructor|].
  by intros key ?%elem_of_nil.
Qed.

Lemma dedup_invariant_step before st st' :
  dedup_invariant before st → item_step st st' → dedup_invariant before st'.
Proof.
  intros (Hsub & keys & Hkeys & Hnodup & Hall) [Hm _ He|movie key Hm Hkey Hne Hnew He].
  - split; [set_solver|]. exists keys. rewrite Hm. split_and!; [done..|].
    intros k Hk. destruct (Hall k Hk) as (? & ? & ?). set_solver.
  - split; [set_solver|]. exists (keys ++ [key]). rewrite Hm. split_and!.
    + apply Forall2_app; [done|]. by repeat constructor.
    + apply NoDup_app. split_and!; [done| |apply NoDup_singleton].
      intros k Hk ->%list_elem_of_singleton. destruct (Hall key Hk) as (_ & _ & ?). done.
    + intros k [Hk| ->%list_elem_of_singleton]%elem_of_app.
      * destruct (Hall k Hk) as (? & ? & ?). set_solver.
      * split_and!; [done|set_solver|set_solver].
Qed.

Lemma top250_item_step save_immediately fetch_detail t st item :
  item_step st
    (after_item (top250_item parse_movie_detail save_immediately fetch_detail t st item)).
Proof.
  unfold top250_item.
  destruct (parse_movie_item _ _ _ _) as [movie|]; [|apply item_step_refl].
  destruct (truthy (VDict movie)); [|apply item_step_refl].
  destruct (movie_key movie) as [key|] eqn:Hkey; [|apply item_step_refl].
  destruct (nonempty key) eqn:Hne; [|apply item_step_refl].
  destruct (bool_decide (key ∉ existing_movies st)) eqn:Hnew; [|apply item_step_refl].
  apply bool_decide_eq_true_1 in Hnew. cbn [andb].
  destruct (_process_movie_with_detail _ _ _ _ _ _) as [[fs movie']|] eqn:Hp; simpl.
  - apply (item_accepted _ _ movie' key); simpl; [done| |by destruct key|done|done].
    by rewrite (process_movie_with_detail_key _ _ _ _ _ _ _ _ Hp).
  - apply item_rejected; simpl; [done|done|set_solver].
Qed.

Lemma top250_items_invariant save_immediately fetch_detail t before st items :
  dedup_invariant before st →
  dedup_invariant before
    (top250_items parse_movie_detail save_immediately fetch_detail t st items).
Proof.
  revert st. induction items as [|item items IH]; intros st Hinv; [done|].
  cbn [top250_items].
  pose proof (top250_item_step save_immediately fetch_detail t st item) as Hstep.
  destruct (top250_item _ _ _ _ _ _) as [st'|st']; simpl in Hstep.
  - apply IH. by eapply dedup_invariant_step.
  - by eapply dedup_invariant_step.
Qed.

Lemma top250_pages_invariant site save_immediately fetch_detail t before st pages :
  dedup_invariant before st →
  dedup_invariant before
    (top250_pages parse_movie_detail site save_immediately fetch_detail t st pages).
Proof.
  revert st. induction pages as [|page pages IH]; intros st Hinv; [done|].
  cbn [top250_pages]. destruct (site page) as [|items]; [by apply IH|].
  destruct (negb (nonempty items)); [done|].
  by apply IH, top250_items_invariant.
Qed.

Lemma api_item_step run st page_count item :
  item_step st (api_item parse_movie_detail run (st, page_count) item).1.
Proof.
  unfold api_item.
  destruct (api_movie _ _) as [[movie|]|]; [|apply item_step_refl..].
  destruct (movie_key movie) as [key|] eqn:Hkey; [|apply item_step_refl].
  destruct (nonempty key) eqn:Hne; [|apply item_step_refl].
  destruct (bool_decide (key ∉ existing_movies st)) eqn:Hnew; [|apply item_step_refl].
  apply bool_decide_eq_true_1 in Hnew. cbn [andb].
  destruct (_process_movie_with_detail _ _ _ _ _ _) as [[fs movie']|] eqn:Hp; simpl.
  - apply (item_accepted _ _ (dset (py "category") (VStr (category_name run)) movie') key);
      simpl; [done| |by destruct key|done|done].
    rewrite <-Hkey, <-(process_movie_with_detail_key _ _ _ _ _ _ _ _ Hp).
    apply movie_key_ext; rewrite dget_dset_ne; first [done | key_ne].
  - apply item_rejected; simpl; [done|done|set_solver].
Qed.

Lemma api_items_invariant run before acc items :
  dedup_invariant before acc.1 →
  dedup_invariant before (foldl (api_item parse_movie_detail run) acc items).1.
Proof.
  revert acc. induction items as [|item items IH]; intros [st n] Hinv; [done|].
  cbn [foldl]. apply IH.
  pose proof (api_item_step run st n item) as Hstep.
  destruct (api_item _ _ _ _) as [st' n']. by eapply dedup_invariant_step.
Qed.

Lemma api_pages_invariant site run before st pages :
  dedup_invariant before st →
  dedup_invariant before (api_pages parse_movie_detail site run st pages).
Proof.
  revert st. induction pages as [|page pages IH]; intros st Hinv; [done|].
  cbn [api_pages]. destruct (site page) as [|data].
  { destruct (page =? 0)%nat; [done|by apply IH]. }
  match goal with
  | |- context [match ?x with Ok _ => _ | Raise _ => _ end] =>
    destruct x as [[|item items]|]; [done| |done]
  end.
  pose proof (api_items_invariant run before (st, O) (item :: items) Hinv) as Hitems.
  destruct (foldl _ _ _) as [st' page_count]. simpl in Hitems.
  match goal with |- context [if ?b then _ else _] => destruct b end;
    [done|by apply IH].
Qed.

Lemma invoke_invariant i before fs :
  dedup_invariant before (invoke parse_movie_detail i before fs).
Proof.
  destruct i as [site max_pages fetch_detail save_immediately t|site run max_pages];
    simpl.
  - apply top250_pages_invariant, dedup_invariant_start.
  - apply api_pages_invariant, dedup_invariant_start.
Qed.

(** Across the drivers of a session. *)
Lemma session_keyed_once runs before fs results after fs' :
  session parse_movie_detail runs before fs = (results, after, fs') →
  before ⊆ after ∧ ∃ keys, keyed_once before after (concat results) keys.
Proof.
  revert before fs results after fs'.
  induction runs as [|i runs IH]; intros before fs results after fs' H.
  - simpl in H. simplify_eq. split; [done|]. exists [].
    split_and!; [constructor|constructor|]. by intros key ?%elem_of_nil.
  - cbn [session] in H.
    destruct (invoke_invariant i before fs) as (Hsub & keys1 & Hk1 & Hnd1 & Hall1).
    set (st := invoke parse_movie_detail i before fs) in *.
    destruct (session _ runs _ _) as [[results' after'] fs''] eqn:Hrest.
    simplify_eq.
    destruct (IH _ _ _ _ _ Hrest) as (Hsub' & keys2 & Hk2 & Hnd2 & Hall2).
    split; [set_solver|]. exists (keys1 ++ keys2). simpl. split_and!.
    + by apply Forall2_app.
    + apply NoDup_app. split_and!; [done| |done].
      intros k Hin1 Hin2. destruct (Hall1 k Hin1) as (_ & _ & ?).
      destruct (Hall2 k Hin2) as (_ & ? & _). done.
    + intros k [Hk|Hk]%elem_of_app.
      * destruct (Hall1 k Hk) as (? & ? & ?). set_solver.
      * destruct (Hall2 k Hk) as (? & ? & ?). set_solver.
Qed.
End DedupFacts.

Section KeyFacts.
Context `{RT : Runtime}.
Variable parse_movie_detail : value → list (list N * value).

Lemma strip_head c s : isspace c = false → strip (c :: s) ≠ [].
Proof. intros Hc. rewrite strip_unfold. simpl. by rewrite Hc. Qed.

(** A link the list page gives is blank only when it is empty. *)
Lemma absolute_link_blank href :
  (∀ url, url ≠ [] → strip (urljoin base_url url) ≠ []) →
  nonempty (absolute_link href) = nonempty (strip (absolute_link href)).
Proof.
  intros Hjoin. unfold absolute_link.
  destruct href as [|c href]; [done|]. cbn [nonempty andb].
  destruct (starts_with (py "http") (c :: href)) eqn:Hhttp; cbn [negb].
  - change (py "http") with [104; 116; 116; 112] in Hhttp.
    cbn [starts_with] in Hhttp. apply andb_prop in Hhttp as [Hc%N.eqb_eq _].
    subst c. by destruct (strip (104 :: href)) eqn:Hs; [apply strip_head in Hs|].
  - specialize (Hjoin (c :: href) ltac:(done)).
    destruct (strip (urljoin base_url (c :: href))) eqn:Hs; [done|].
    destruct (urljoin base_url (c :: href)); [done|done].
Qed.

Lemma movie_key_movie_info e :
  movie_key (movie_info e)
  = Ok (if nonempty (absolute_link (entry_href e))
        then strip (absolute_link (entry_href e))
        else strip (entry_title e)).
Proof.
  unfold movie_key.
  assert (dget (py "link") (movie_info e)
          = Some (VStr (absolute_link (entry_href e)))) as Hlink by reflexivity.
  assert (dget (py "title") (movie_info e) = Some (VStr (entry_title e))) as Htitle
    by reflexivity.
  unfold get, get_or. rewrite Hlink, Htitle. simpl.
  by destruct (nonempty (absolute_link (entry_href e))).
Qed.

Lemma parse_movie_item_key fs e fetch_detail movie :
  parse_movie_item parse_movie_detail fs (Some e) fetch_detail = Some movie →
  movie_key movie = movie_key (movie_info e).
Proof.
  unfold parse_movie_item.
  destruct (_process_movie_with_detail _ _ _ _ _ _) as [[fs' movie']|] eqn:Hp; [|done].
  intros [= <-]. by eapply process_movie_with_detail_key.
Qed.

(** An entry of the list page with no link and a blank title is rejected
    in every state. *)
Lemma top250_item_unkeyed save_immediately fetch_detail t st e :
  entry_href e = [] → strip (entry_title e) = [] →
  top250_item parse_movie_detail save_immediately fetch_detail t st (Some e) = inl st.
Proof.
  intros Hhref Htitle. unfold top250_item.
  destruct (parse_movie_item _ _ _ _) as [movie|] eqn:Hparse; [|done].
  destruct (truthy (VDict movie)); [|done].
  rewrite (parse_movie_item_key _ _ _ _ Hparse), movie_key_movie_info.
  rewrite Hhref, Htitle.
  by change (absolute_link []) with (@nil N).
Qed.

Lemma api_rating_sets kind rating_info movie rated :
  api_rating kind rating_info movie = Ok rated →
  ∃ rating count,
    rated = dset (py "total_ratings") count (dset (py "rating") rating movie).
Proof. unfold api_rating. intros H. step_cases; eauto. Qed.

(** The link of a record of the APIs is never blank. *)
Lemma api_movie_key kind item movie :
  api_movie kind item = Ok (Some movie) →
  ∃ key, movie_key movie = Ok key ∧ key ≠ [].
Proof.
  unfold api_movie. unfold_bind.
  destruct (api_movie_id kind item) as [movie_id|]; [|done].
  destruct (truthy movie_id); [|done].
  destruct (py_int movie_id) as [id|[]]; try done.
  destruct (vget_or (py "title") _ item) as [title|]; [|done].
  destruct (vget_or (py "rating") _ item) as [rating_info|]; [|done].
  match goal with
  | |- context [api_rating ?k ?r ?m] => destruct (api_rating k r m) as [rated|] eqn:Hr
  end; [|done].
  destruct (vget_or (py "pic") _ item) as [pic_info|]; [|done].
  intros [= <-].
  set (link := base_url ++ py "/subject/" ++ py_str movie_id ++ py "/").
  assert (dget (py "link") rated = Some (VStr link)) as Hlink.
  { apply api_rating_sets in Hr as (rating & count & ->). by dsimpl. }
  assert (∃ rest, link = 104 :: rest) as [rest Hhead].
  { exists (py "ttps://movie.douban.com" ++ py "/subject/" ++ py_str movie_id ++ py "/").
    assert (base_url = 104 :: py "ttps://movie.douban.com") as Hbase
      by (vm_compute; reflexivity).
    exact (f_equal (fun b => b ++ py "/subject/" ++ py_str movie_id ++ py "/") Hbase). }
  clearbody link. subst link.
  exists (strip (104 :: rest)). unfold movie_key, get, get_or.
  rewrite dget_dset_ne by key_ne. rewrite Hlink.
  cbn [default truthy nonempty as_str]. unfold_bind.
  split; [done|]. by apply strip_head.
Qed.
End KeyFacts.

Section IdentifierFacts.
Context `{RT : Runtime}.
Variable parse_movie_detail : value → list (list N * value).

Lemma api_item_skipped run st page_count item id :
  api_movie_id (api_source run) item = Ok id →
  (∀ z, py_int id ≠ Ok z) →
  api_item parse_movie_detail run (st, page_count) item = (st, page_count).
Proof.
  intros Hid Hint. unfold api_item, api_movie. unfold_bind. rewrite Hid.
  destruct (truthy id); [|done].
  destruct (py_int id) as [z|[]] eqn:Hz; [by destruct (Hint z)|done..].
Qed.

Lemma normalize_steps_zero_id r d :
  normalize_steps r = Ok d →
  truthy (get (py "movie_id") r) = false →
  link_movie_id r = Ok 0%Z →
  dget (py "movie_id") d = Some (VInt 0).
Proof.
  intros H Hid Hlink. apply normalize_steps_inv in H
    as (d1 & d2 & d3 & d6 & d7 & d8 & d9 & d10
        & H1 & H2 & H3 & H6 & H7 & H8 & H9 & H10 & ->).
  assert (dget (py "movie_id") d6 = dget (py "movie_id") r) as Hid6 by (by frame_back).
  assert (dget (py "link") d6 = dget (py "link") r) as Hlink6 by (by frame_back).
  assert (dget (py "movie_id") d7 = Some (VInt 0)) as Hid7.
  { unfold derive_movie_id, has, get in H7. unfold get in Hid.
    rewrite Hid6, (link_movie_id_ext r d6 Hlink6), Hlink in H7.
    destruct (dget (py "movie_id") r) as [v|]; simpl in Hid, H7.
    - rewrite Hid in H7. simpl in H7. simplify_eq. by rewrite dget_dset_eq.
    - simplify_eq. by rewrite dget_dset_eq. }
  by frame_back.
Qed.

Lemma movie_id_untouched_by_merge : py "movie_id" ∉ enrichable_fields.
Proof. apply (bool_decide_eq_false_1 (py "movie_id" ∈ enrichable_fields)). reflexivity. Qed.

Lemma process_movie_with_detail_zero_id
    fs movie fetch_detail save_immediately t fs' movie' :
  _process_movie_with_detail parse_movie_detail fs movie fetch_detail
    save_immediately t = Ok (fs', movie') →
  truthy (get (py "movie_id") movie) = false →
  link_movie_id movie = Ok 0%Z →
  dget (py "movie_id") movie' = Some (VInt 0) ∧ link_movie_id movie' = Ok 0%Z.
Proof.
  intros Hp Hid Hlink. split.
  2:{ rewrite <-Hlink. apply link_movie_id_ext. destruct link_untouched.
      by eapply process_movie_with_detail_untouched. }
  apply process_movie_with_detail_inv in Hp
    as (merged & normalized & Hmerged & Hnorm & Hsave).
  assert (dget (py "movie_id") merged = dget (py "movie_id") movie
          ∧ dget (py "link") merged = dget (py "link") movie) as [Hid1 Hlink1].
  { destruct Hmerged as [->|[detail Hmerge]]; [done|].
    split; apply (merge_detail_info_frame _ _ _ _ Hmerge);
      first [apply movie_id_untouched_by_merge | apply link_untouched | key_ne]. }
  unfold normalize_movie_data in Hnorm. unfold_bind.
  destruct (normalize_steps merged) as [u|] eqn:Hsteps; [|done]. simplify_eq.
  assert (dget (py "movie_id") (order_fields u) = Some (VInt 0)) as Hzero.
  { rewrite dget_order_fields. apply (normalize_steps_zero_id merged); [done|..].
    - unfold get. by rewrite Hid1.
    - by rewrite (link_movie_id_ext movie merged Hlink1). }
  destruct save_immediately; [|by destruct Hsave as [_ ->]].
  destruct (save_movie_line_inv _ _ _ _ _ Hsave) as (Hsteps' & _ & _).
  apply (normalize_steps_zero_id _ _ Hsteps').
  - unfold get. by rewrite Hzero.
  - rewrite <-Hlink. apply link_movie_id_ext.
    rewrite dget_order_fields, <-Hlink1.
    apply (normalize_steps_untouched _ _ _ Hsteps), link_untouched.
Qed.

Lemma link_movie_id_movie_info e :
  re_search re_subject (absolute_link (entry_href e)) = None →
  truthy (get (py "movie_id") (movie_info e)) = false
  ∧ link_movie_id (movie_info e) = Ok 0%Z.
Proof.
  intros Hnone. split; [reflexivity|].
  assert (dget (py "link") (movie_info e)
          = Some (VStr (absolute_link (entry_href e)))) as Hlink by reflexivity.
  unfold link_movie_id, has, get. rewrite Hlink. simpl. rewrite Hnone.
  by destruct (nonempty (absolute_link (entry_href e))).
Qed.

Lemma parse_movie_item_zero_id fs e fetch_detail movie :
  parse_movie_item parse_movie_detail fs (Some e) fetch_detail = Some movie →
  re_search re_subject (absolute_link (entry_href e)) = None →
  dget (py "movie_id") movie = Some (VInt 0) ∧ link_movie_id movie = Ok 0%Z.
Proof.
  unfold parse_movie_item.
  destruct (_process_movie_with_detail _ _ _ _ _ _) as [[fs' movie']|] eqn:Hp; [|done].
  intros [= <-] [Hid Hlink]%link_movie_id_movie_info.
  by eapply process_movie_with_detail_zero_id.
Qed.

Lemma app_singleton_neq {A} (l : list A) x : l ≠ l ++ [x].
Proof. intros H%(f_equal length). rewrite length_app in H. simpl in H. lia. Qed.

(** The record the list driver adds for an entry whose link holds no
    identifier has the identifier 0. *)
Lemma top250_item_zero_id save_immediately fetch_detail t st e st' movie :
  top250_item parse_movie_detail save_immediately fetch_detail t st (Some e) = inl st' →
  movies st' = movies st ++ [movie] →
  re_search re_subject (absolute_link (entry_href e)) = None →
  dget (py "movie_id") movie = Some (VInt 0).
Proof.
  unfold top250_item. intros H Hadd Hnone.
  destruct (parse_movie_item _ _ _ _) as [parsed|] eqn:Hparse.
  2:{ simplify_eq. by apply app_singleton_neq in Hadd. }
  destruct (parse_movie_item_zero_id _ _ _ _ Hparse Hnone) as [Hid Hlink].
  destruct (truthy (VDict parsed)).
  2:{ simplify_eq. by apply app_singleton_neq in Hadd. }
  destruct (movie_key parsed) as [key|]; [|done].
  destruct (nonempty key && bool_decide (key ∉ existing_movies st)).
  2:{ simplify_eq. by apply app_singleton_neq in Hadd. }
  destruct (_process_movie_with_detail _ _ _ _ _ _) as [[fs movie']|] eqn:Hp; [|done].
  simplify_eq. simpl in Hadd. apply app_inj_tail in Hadd as [_ <-].
  eapply process_movie_with_detail_zero_id; [done| |done].
  unfold get. by rewrite Hid.
Qed.
End IdentifierFacts.

Section PageFacts.
Context `{RT : Runtime}.
Variable parse_movie_detail : value → list (list N * value).

Lemma api_pages_skip_failed site run st pages :
  api_pages parse_movie_detail site run st pages
  = api_pages parse_movie_detail site run st
      (filter (fun page => negb (failed (site page)) || (page =? 0)%nat) pages).
Proof.
  revert st. induction pages as [|page pages IH]; intros st; [done|].
  rewrite filter_cons. cbn [api_pages].
  destruct (site page) as [|data] eqn:Hsite.
  - destruct (page =? 0)%nat eqn:Hpage.
    + rewrite decide_True by done.
      cbn [api_pages]. by rewrite Hsite, Hpage.
    + rewrite decide_False by (cbn; auto). apply IH.
  - rewrite decide_True by done.
    cbn [api_pages]. rewrite Hsite.
    repeat case_match; try done; apply IH.
Qed.

Lemma top250_pages_skip_failed site save_immediately fetch_detail t st pages :
  top250_pages parse_movie_detail site save_immediately fetch_detail t st pages
  = top250_pages parse_movie_detail site save_immediately fetch_detail t st
      (filter (fun page => negb (failed (site page))) pages).
Proof.
  revert st. induction pages as [|page pages IH]; intros st; [done|].
  rewrite filter_cons. cbn [top250_pages].
  destruct (site page) as [|items] eqn:Hsite.
  - rewrite decide_False by (cbn; auto). apply IH.
  - rewrite decide_True by done.
    cbn [top250_pages]. rewrite Hsite.
    destruct (negb (nonempty items)); [done|apply IH].
Qed.

Lemma crawl_api_first_page_failed site run max_pages existing fs :
  site 0%nat = FetchError →
  crawl_api parse_movie_detail site run max_pages existing fs = Crawl existing fs [].
Proof.
  intros Hsite. unfold crawl_api. destruct max_pages as [|n]; [done|].
  cbn [seq api_pages]. by rewrite Hsite.
Qed.
End PageFacts.

Section DriverClaims.
Context `{RT : Runtime}.
Variable parse_movie_detail : value → list (list N * value).

(** C1. In a session the drivers share one dedup set.  The accepted
    records have one key each, the trimmed link or else the trimmed title,
    and no two of them have the same key; no key is empty and none was in
    the set at the start.  Each item is either rejected, and then nothing is
    added or written, or accepted under a key that was not in the set.  A
    record of the list page has the trimmed title as its key when its
    trimmed link is empty, and an entry with no link and a blank title is
    rejected whatever the set holds. *)
Theorem session_accepts_each_key_once runs before fs results after fs' :
  session parse_movie_detail runs before fs = (results, after, fs') →
  (∃ keys, keyed_once before after (concat results) keys)
  ∧ (∀ save_immediately fetch_detail t st item,
       item_step st
         (after_item
            (top250_item parse_movie_detail save_immediately fetch_detail t st item)))
  ∧ (∀ run st page_count item,
       item_step st (api_item parse_movie_detail run (st, page_count) item).1)
  ∧ ((∀ url, url ≠ [] → strip (urljoin base_url url) ≠ []) →
     ∀ files e fetch_detail movie,
       parse_movie_item parse_movie_detail files (Some e) fetch_detail = Some movie →
       movie_key movie
       = Ok (if nonempty (strip (absolute_link (entry_href e)))
             then strip (absolute_link (entry_href e))
             else strip (entry_title e)))
  ∧ (∀ save_immediately fetch_detail t st e,
       entry_href e = [] → strip (entry_title e) = [] →
       top250_item parse_movie_detail save_immediately fetch_detail t st (Some e)
       = inl st).
Proof.
  intros Hsession. split_and!.
  - by destruct (session_keyed_once _ _ _ _ _ _ _ Hsession) as [_ ?].
  - intros. apply top250_item_step.
  - intros. apply api_item_step.
  - intros Hjoin files e fetch_detail movie Hparse.
    rewrite (parse_movie_item_key _ _ _ _ _ Hparse), movie_key_movie_info.
    by rewrite (absolute_link_blank _ Hjoin).
  - intros. by apply top250_item_unkeyed.
Qed.

(** C9, amended. A failed fetch of the first page stops an API driver with
    no record and nothing changed.  A failed fetch of any later page is
    passed over: the driver goes on to the next page, and its result is that
    of the pages that did not fail.  The list driver passes over every
    failed page, the first too.  A page that was fetched and has no items
    stops the driver with the records it has. *)
Theorem failed_pages_are_passed_over :
  (∀ site run max_pages existing fs,
     site 0%nat = FetchError →
     crawl_api parse_movie_detail site run max_pages existing fs
     = Crawl existing fs [])
  ∧ (∀ site run st pages,
       api_pages parse_movie_detail site run st pages
       = api_pages parse_movie_detail site run st
           (filter (fun page => negb (failed (site page)) || (page =? 0)%nat) pages))
  ∧ (∀ site save_immediately fetch_detail t st pages,
       top250_pages parse_movie_detail site save_immediately fetch_detail t st pages
       = top250_pages parse_movie_detail site save_immediately fetch_detail t st
           (filter (fun page => negb (failed (site page))) pages))
  ∧ (∀ site save_immediately fetch_detail t st page pages,
       site page = Page [] →
       top250_pages parse_movie_detail site save_immediately fetch_detail t st
         (page :: pages) = st)
  ∧ (∀ site run st page pages data items,
       site page = Page data →
       api_items (api_source run) data = Ok items →
       truthy items = false →
       api_pages parse_movie_detail site run st (page :: pages) = st).
Proof.
  split_and!.
  - intros. by apply crawl_api_first_page_failed.
  - intros. apply api_pages_skip_failed.
  - intros. apply top250_pages_skip_failed.
  - intros site save_immediately fetch_detail t st page pages Hsite.
    cbn [top250_pages]. by rewrite Hsite.
  - intros site run st page pages data items Hsite Hitems Hempty.
    cbn [api_pages]. rewrite Hsite, Hitems. unfold_bind. by rewrite Hempty.
Qed.
End DriverClaims.

Section DriverEvaluations.
Local Existing Instance Plain.runtime.

(** C9, counterexample. The page after a failed fetch is still crawled:
    the result differs from that of a site where the failed page is a page
    with no items. *)
Lemma failed_page_is_not_an_empty_page :
  movies (crawl_api no_detail flaky_api plain_run 3 ∅ no_files)
  = [record_1; record_2]
  ∧ movies (crawl_api no_detail (failures_as_empty_api flaky_api) plain_run 3
              ∅ no_files)
    = [record_1]
  ∧ movies (crawl_top250 no_detail flaky_top250 3 false false no_targets ∅ no_files)
    = [odd_record]
  ∧ movies (crawl_top250 no_detail (failures_as_empty_top250 flaky_top250) 3
              false false no_targets ∅ no_files)
    = [].
Proof. split_and!; reflexivity. Qed.
End DriverEvaluations.

(** ** The statements at concrete inputs *)

Section Instances.
Local Existing Instance Plain.runtime.



Lemma join_url_not_blank url : url ≠ [] → strip (Plain.join_url base_url url) ≠ [].
Proof.
  intros _. unfold Plain.join_url.
  assert (base_url = 104 :: py "ttps://movie.douban.com") as ->
    by (vm_compute; reflexivity).
  destruct (starts_with [47] url); by apply strip_head.
Qed.

Lemma session_accepts_each_key_once_witness :
  (∃ keys, keyed_once ∅ keys_after [record_1; record_2; odd_record] keys)
  ∧ movie_key odd_record = Ok (py "https://example.com/x").
Proof.
  destruct (session_accepts_each_key_once no_detail two_drivers ∅ no_files
              [[record_1; record_2]; [odd_record]] keys_after no_files)
    as (Hkeys & _ & _ & Hfallback & _); [reflexivity|].
  split; [exact Hkeys|].
  apply (Hfallback join_url_not_blank no_files odd_entry false). reflexivity.
Defined.

Lemma failed_pages_are_passed_over_witness :
  crawl_api no_detail down_api plain_run 3 ∅ no_files = Crawl ∅ no_files []
  ∧ top250_pages no_detail flaky_top250 false false no_targets (Crawl ∅ no_files [])
      [2%nat; 1%nat] = Crawl ∅ no_files [].
Proof.
  destruct (failed_pages_are_passed_over no_detail) as (Hfirst & _ & _ & Hempty & _).
  split.
  - apply Hfirst. reflexivity.
  - apply Hempty. reflexivity.
Defined.
End Instances.

(** ** More on the normaliser *)

Section NormalizerResults.
Context `{RT : Runtime}.
Implicit Types (r d : list (list N * value)) (k : list N).

Lemma normalize_movie_data_normal_form r r' :
  normalize_movie_data r = Ok r' → normal_form_at (fun k => dget k r').
Proof.
  intros (d & Hsteps & ->)%normalize_movie_data_inv.
  apply (normal_form_at_ext (fun k => dget k d)).
  - intros k. apply dget_order_fields.
  - by eapply normalize_steps_normal_form.
Qed.

(** The fields the normaliser removes are not keys of its result, and
    neither [people] nor [release_dates] is left with a value to read. *)
Theorem normalize_removes_fields r r' k :
  normalize_movie_data r = Ok r' →
  k ∈ [ py "rank"; py "other_titles"; py "also_known_as";
        py "rating_5star"; py "rating_4star"; py "rating_3star";
        py "rating_2star"; py "rating_1star"; py "quote"; py "info";
        py "category"; py "rating_detail"; py "release_year" ] →
  (k ∉ r'.*1)
  ∧ truthy (get (py "people") r') = false
  ∧ truthy (get (py "release_dates") r') = false.
Proof.
  intros Hnorm Hk.
  destruct (normalize_movie_data_normal_form _ _ Hnorm)
    as (Hdel & _ & _ & _ & _ & Hpeople & _ & _ & _ & _ & Hdates & _).
  split_and!; [|done..].
  apply dget_None_keys. rewrite Forall_forall in Hdel. by apply Hdel.
Qed.

(** The result has an integer [movie_id], a [rating] that is a float
    whenever it is truthy, a [total_ratings] that is not text, and a
    [release_date] that is not an integer. *)
Theorem normalize_field_types r r' :
  normalize_movie_data r = Ok r' →
  (∃ id, dget (py "movie_id") r' = Some id ∧ is_int id = true)
  ∧ (∃ rating, dget (py "rating") r' = Some rating
               ∧ (truthy rating = true → ∃ f, rating = VFloat f))
  ∧ (∃ count, dget (py "total_ratings") r' = Some count ∧ ∀ s, count ≠ VStr s)
  ∧ (∀ date, dget (py "release_date") r' = Some date → is_int date = false).
Proof.
  intros Hnorm.
  destruct (normalize_movie_data_normal_form _ _ Hnorm)
    as (_ & _ & _ & _ & (vr & Hr & Hrating) & _ & Hcount & (vi & Hi & Hid) & _ & _
        & _ & Hdate).
  split_and!.
  - exists vi. split; [done|]. by destruct Hid as [[z ->]|[_ ?]].
  - exists vr. split; [done|]. intros Htrue.
    destruct Hrating as [Hfalse|?]; [congruence|done].
  - done.
  - intros date Hd. by rewrite Hd in Hdate.
Qed.

(** A [countries] or [languages] text that survives normalisation holds
    neither of the two words of a mis-scraped field and has at most 200
    characters. *)
Theorem normalize_cleans_text r r' field s :
  normalize_movie_data r = Ok r' →
  field = py "countries" ∨ field = py "languages" →
  dget field r' = Some (VStr s) →
  s ≠ [] →
  contains (py "导演") s = false ∧ contains (py "主演") s = false
  ∧ (length s ≤ 200)%nat.
Proof.
  intros Hnorm Hfield Hs Hne.
  destruct (normalize_movie_data_normal_form _ _ Hnorm)
    as (_ & _ & _ & _ & _ & _ & _ & _ & Hcountries & Hlanguages & _).
  assert (text_settled (dget field r')) as Hsettled by (by destruct Hfield as [->| ->]).
  rewrite Hs in Hsettled. simpl in Hsettled.
  destruct Hsettled as [Hempty|(Hd & Ha & n & Hn & Hlen)]; [by destruct s|].
  simplify_eq/=. split_and!; [done..|].
  by apply Nat.ltb_ge in Hlen.
Qed.

(** The known fields come first in the result, in the order of
    [FIELD_ORDER]; the other keys follow. *)
Theorem normalize_orders_keys r r' :
  normalize_movie_data r = Ok r' →
  r'.*1 = filter (fun field => field ∈ r'.*1) FIELD_ORDER
          ++ filter (fun key => key ∉ FIELD_ORDER) r'.*1.
Proof.
  intros (d & _ & ->)%normalize_movie_data_inv.
  rewrite <-new_fieldnames_ordered at 1. unfold new_fieldnames. f_equal.
  apply list_filter_iff. intros field.
  rewrite elem_of_keys. unfold has. by destruct (dget field (order_fields d)).
Qed.

(** A truthy [actors] that is not text makes the normaliser raise:
    a list or a number has no [split]. *)
Theorem normalize_raises_on_actors r v :
  dget (py "actors") r = Some v →
  truthy v = true →
  (∀ s, v ≠ VStr s) →
  normalize_movie_data r = Raise AttributeError.
Proof.
  intros Hv Htrue Hnot. unfold normalize_movie_data, normalize_steps. cbv zeta.
  assert (limit_names (py "actors") keep_five
            (ddel (py "other_titles") (ddel (py "rank") r))
          = Raise AttributeError) as ->; [|done].
  unfold limit_names, has, get. rewrite !dget_ddel_ne by key_ne.
  rewrite Hv. simpl. rewrite Htrue. simpl.
  destruct v; try done. by destruct (Hnot s).
Qed.
End NormalizerResults.

Ltac in_list := repeat (apply elem_of_cons; first [by left | right]).

Section NormalizerTotal.
Context `{RT : Runtime}.
Implicit Types (r d : list (list N * value)) (k : list N).

Lemma limit_names_total field keep d :
  text_or_falsy (dget field d) → ∃ d', limit_names field keep d = Ok d'.
Proof.
  unfold limit_names, has, get, text_or_falsy.
  destruct (dget field d) as [v|]; simpl; [|eauto].
  destruct (truthy v); [|eauto]. intros [s ->]; [done|]. simpl.
  destruct (nonempty (name_list s)); eauto.
Qed.

Lemma derive_total_ratings_total d :
  text_or_falsy (dget (py "people") d) → ∃ d', derive_total_ratings d = Ok d'.
Proof.
  unfold derive_total_ratings, has, get, text_or_falsy.
  destruct (dget (py "people") d) as [v|]; simpl.
  - destruct (truthy v).
    + intros [s ->]; [done|]. simpl. eauto.
    + intros _. destruct (dget (py "total_ratings") d) as [[]|]; simpl; eauto.
  - intros _. destruct (dget (py "total_ratings") d) as [[]|]; simpl; eauto.
Qed.

Lemma derive_movie_id_total d :
  text_or_falsy (dget (py "link") d) → ∃ d', derive_movie_id d = Ok d'.
Proof.
  intros Hlink.
  assert (∃ id, link_movie_id d = Ok id) as [id Hid].
  { unfold link_movie_id, has, get. unfold text_or_falsy in Hlink.
    destruct (dget (py "link") d) as [v|]; simpl; [|eauto].
    destruct (truthy v); [|eauto]. destruct Hlink as [s ->]; [done|].
    destruct (re_search re_subject s); eauto. }
  unfold derive_movie_id. unfold_bind. rewrite Hid.
  destruct (negb _ || negb _); [eauto|].
  destruct (get (py "movie_id") d) as [| | | |s| |]; simpl; eauto.
  destruct (nonempty (strip s)); eauto.
Qed.

Lemma clean_text_field_total field d :
  text_or_falsy (dget field d) → ∃ d', clean_text_field field d = Ok d'.
Proof.
  unfold clean_text_field, has, get, text_or_falsy.
  destruct (dget field d) as [v|]; simpl; [|eauto].
  destruct (truthy v); [|eauto]. intros [s ->]; [done|]. simpl. unfold_bind.
  destruct (contains (py "导演") s); [eauto|].
  destruct (contains (py "主演") s); [eauto|].
  destruct (200 <? length s)%nat; eauto.
Qed.

Lemma collapse_release_dates_total d :
  text_or_falsy (dget (py "release_dates") d) →
  dget (py "info") d = None →
  ∃ d', collapse_release_dates d = Ok d'.
Proof.
  unfold collapse_release_dates, has, get, text_or_falsy. intros Hdates ->.
  destruct (dget (py "release_dates") d) as [v|]; simpl.
  - destruct (truthy v).
    + destruct Hdates as [s ->]; [done|]. simpl. eauto.
    + repeat case_match; eauto.
  - repeat case_match; eauto.
Qed.

Lemma normalize_steps_total r :
  (∀ k, k ∈ text_fields → text_or_falsy (dget k r)) →
  ∃ d, normalize_steps r = Ok d.
Proof.
  intros Htext.
  unfold normalize_steps. cbv zeta. unfold_bind.
  destruct (limit_names_total (py "actors") keep_five
              (ddel (py "other_titles") (ddel (py "rank") r))) as [d1 H1].
  { dsimpl. apply Htext. unfold text_fields. in_list. }
  rewrite H1.
  destruct (limit_names_total (py "directors") keep_first d1) as [d2 H2].
  { frame_back. apply Htext. unfold text_fields. in_list. }
  rewrite H2.
  destruct (limit_names_total (py "screenwriters") keep_first d2) as [d3 H3].
  { frame_back. apply Htext. unfold text_fields. in_list. }
  rewrite H3.
  match goal with
  | |- context [derive_total_ratings ?d] =>
    destruct (derive_total_ratings_total d) as [d6 H6]
  end.
  { frame_back. apply Htext. unfold text_fields. in_list. }
  rewrite H6.
  destruct (derive_movie_id_total d6) as [d7 H7].
  { frame_back. apply Htext. unfold text_fields. in_list. }
  rewrite H7.
  destruct (clean_text_field_total (py "countries") d7) as [d8 H8].
  { frame_back. apply Htext. unfold text_fields. in_list. }
  rewrite H8.
  destruct (clean_text_field_total (py "languages") d8) as [d9 H9].
  { frame_back. apply Htext. unfold text_fields. in_list. }
  rewrite H9.
  destruct (collapse_release_dates_total d9) as [d10 H10].
  { frame_back. apply Htext. unfold text_fields. in_list. }
  { by frame_back. }
  rewrite H10. eauto.
Qed.

End NormalizerTotal.

(** ** More on the detail merger *)

Section MergerResults.
Context `{RT : Runtime}.
Implicit Types (base detail merged : list (list N * value)) (k : list N).

Lemma merge_detail_info_has base detail merged k :
  _merge_detail_info base detail = Ok merged →
  dget k base ≠ None → dget k merged ≠ None.
Proof.
  unfold _merge_detail_info. intros H Hk.
  destruct (negb (nonempty detail)); [by simplify_eq|].
  assert (dget k (foldl (merge_field detail) base enrichable_fields) ≠ None) as Hk0.
  { rewrite dget_merge_fields. repeat case_match; done. }
  destruct (truthy (get (py "rating_detail") detail)); [|by simplify_eq].
  unfold_bind.
  destruct (merge_average _ _) as [merged1|] eqn:Havg; [|done].
  assert (dget k merged1 ≠ None) as Hk1.
  { destruct (decide (k = py "rating")) as [->|Hne].
    - destruct (merge_average_rating _ _ _ Havg) as (avg & _ & ->).
      repeat case_match; done.
    - by rewrite (merge_average_frame _ _ _ k Havg). }
  destruct (decide (k = py "total_ratings")) as [->|Hne].
  - destruct (merge_count_total _ _ _ H) as (count & _ & ->).
    by destruct (truthy count).
  - by rewrite (merge_count_frame _ _ _ k H).
Qed.

(** Merging leaves every field that is neither enrichable nor [rating] nor
    [total_ratings] as it was, and removes no field of the base record. *)
Theorem merge_detail_info_keeps_fields base detail merged :
  _merge_detail_info base detail = Ok merged →
  (∀ k, k ∉ enrichable_fields → k ≠ py "rating" → k ≠ py "total_ratings" →
        dget k merged = dget k base)
  ∧ (∀ k, k ∈ base.*1 → k ∈ merged.*1).
Proof.
  intros H. split.
  - intros k. by apply (merge_detail_info_frame base detail).
  - intros k. rewrite !elem_of_keys. by apply (merge_detail_info_has base detail).
Qed.

(** A truthy [rating_detail] that is not a dict makes the merger raise,
    and an empty detail record leaves the base record as it is. *)
Theorem merge_detail_info_edges base :
  _merge_detail_info base [] = Ok base
  ∧ ∀ detail v,
      detail ≠ [] →
      get (py "rating_detail") detail = v →
      truthy v = true →
      (∀ d, v ≠ VDict d) →
      _merge_detail_info base detail = Raise AttributeError.
Proof.
  split; [done|]. intros detail v Hne <- Htrue Hnot.
  unfold _merge_detail_info. destruct detail; [done|]. cbn [nonempty negb].
  rewrite Htrue. unfold merge_average.
  destruct (get (py "rating_detail") _) as [| | | | | |d]; try done.
  by destruct (Hnot d).
Qed.
End MergerResults.

(** ** More on the sink *)

Section SinkResults.
Context `{RT : Runtime}.
Implicit Types (fs : files) (path : list N).

Lemma jsonl_files_write_jsonl path movie fs :
  path ≠ [] →
  jsonl_files (write_jsonl (Some path) movie fs) !! path
  = Some (append_jsonl (jsonl_files fs !! path) movie).
Proof.
  intros Hne. unfold write_jsonl. rewrite given_nonempty by done. simpl.
  apply lookup_insert_eq.
Qed.

Lemma jsonl_files_write_json filename movie fs :
  jsonl_files (write_json filename movie fs) = jsonl_files fs.
Proof. unfold write_json. by destruct (given filename). Qed.

Lemma jsonl_files_write_csv filename movie fs :
  jsonl_files (write_csv filename movie fs) = jsonl_files fs.
Proof. unfold write_csv. by destruct (given filename). Qed.

Lemma given_Some filename path : given filename = Some path → filename = Some path.
Proof. destruct filename as [[|c s]|]; simpl; congruence. Qed.

Lemma jsonl_files_write_jsonl_other filename movie fs p :
  filename ≠ Some p →
  jsonl_files (write_jsonl filename movie fs) !! p = jsonl_files fs !! p.
Proof.
  intros Hne. unfold write_jsonl.
  destruct (given filename) as [path|] eqn:Hgiven; [|done]. simpl.
  apply given_Some in Hgiven. apply lookup_insert_ne. congruence.
Qed.

Lemma json_files_write_json_other filename movie fs p :
  filename ≠ Some p →
  json_files (write_json filename movie fs) !! p = json_files fs !! p.
Proof.
  intros Hne. unfold write_json.
  destruct (given filename) as [path|] eqn:Hgiven; [|done]. simpl.
  apply given_Some in Hgiven. apply lookup_insert_ne. congruence.
Qed.

Lemma csv_files_write_csv_other filename movie fs p :
  filename ≠ Some p →
  csv_files (write_csv filename movie fs) !! p = csv_files fs !! p.
Proof.
  intros Hne. unfold write_csv.
  destruct (given filename) as [path|] eqn:Hgiven; [|done]. simpl.
  apply given_Some in Hgiven. apply lookup_insert_ne. congruence.
Qed.

(** [save_movie_line] adds one line to the line-delimited file, the
    normalised record, after the lines the file had. *)
Theorem save_movie_line_appends_line fs movie t path fs' updated :
  jsonl_filename t = Some path →
  path ≠ [] →
  save_movie_line fs movie t = Ok (fs', updated) →
  ∃ normalized,
    normalize_movie_data movie = Ok normalized
    ∧ jsonl_files fs' !! path
      = Some (default [] (jsonl_files fs !! path) ++ [normalized]).
Proof.
  intros Hpath Hne (Hsteps & Hnorm & ->)%save_movie_line_inv.
  exists (order_fields updated). split; [done|].
  rewrite jsonl_files_write_csv, jsonl_files_write_json, Hpath.
  by rewrite jsonl_files_write_jsonl.
Qed.


(** [save_movie_line] changes no file but its three targets; a target
    that is missing or the empty name is not written at all. *)
Theorem save_movie_line_touches_targets_only fs movie t fs' updated p :
  save_movie_line fs movie t = Ok (fs', updated) →
  (jsonl_filename t ≠ Some p → jsonl_files fs' !! p = jsonl_files fs !! p)
  ∧ (json_filename t ≠ Some p → json_files fs' !! p = json_files fs !! p)
  ∧ (csv_filename t ≠ Some p → csv_files fs' !! p = csv_files fs !! p)
  ∧ (given (jsonl_filename t) = None → jsonl_files fs' = jsonl_files fs)
  ∧ (given (json_filename t) = None → json_files fs' = json_files fs)
  ∧ (given (csv_filename t) = None → csv_files fs' = csv_files fs).
Proof.
  intros (Hsteps & Hnorm & ->)%save_movie_line_inv. split_and!.
  - intros Hne. rewrite jsonl_files_write_csv, jsonl_files_write_json.
    by apply jsonl_files_write_jsonl_other.
  - intros Hne. rewrite json_files_write_csv, json_files_write_json_other by done.
    by rewrite json_files_write_jsonl.
  - intros Hne. rewrite csv_files_write_csv_other by done.
    by rewrite csv_files_write_json, csv_files_write_jsonl.
  - intros Hnone. rewrite jsonl_files_write_csv, jsonl_files_write_json.
    unfold write_jsonl. by rewrite Hnone.
  - intros Hnone. rewrite json_files_write_csv. unfold write_json. rewrite Hnone.
    by rewrite json_files_write_jsonl.
  - intros Hnone. unfold write_csv. rewrite Hnone.
    by rewrite csv_files_write_json, csv_files_write_jsonl.
Qed.
End SinkResults.

(** ** More on the drivers *)

Section DriverFiles.
Context `{RT : Runtime}.
Variable parse_movie_detail : value → list (list N * value).
Implicit Types (st : crawl_state) (fs : files) (path : list N).

Lemma ddel_dset_fresh k v (d : list (list N * value)) :
  dget k d = None → ddel k (dset k v d) = d.
Proof.
  induction d as [|[k' v'] d IH]; simpl.
  - by rewrite decide_True.
  - destruct (decide (k = k')) as [->|Hne]; [done|]. intros Hd. simpl.
    rewrite decide_False by done. by rewrite IH.
Qed.

(** *** Without [save_immediately] *)

Lemma process_movie_with_detail_no_save fs movie fetch_detail t fs' movie' :
  _process_movie_with_detail parse_movie_detail fs movie fetch_detail false t
  = Ok (fs', movie') →
  fs' = fs.
Proof.
  intros (merged & normalized & _ & _ & Hsave)%process_movie_with_detail_inv.
  by destruct Hsave.
Qed.

Lemma top250_item_no_save fetch_detail t st item :
  stored (after_item (top250_item parse_movie_detail false fetch_detail t st item))
  = stored st.
Proof.
  unfold top250_item. repeat case_match; simpl; try done.
  by eapply process_movie_with_detail_no_save.
Qed.

Lemma top250_items_no_save fetch_detail t st items :
  stored (top250_items parse_movie_detail false fetch_detail t st items) = stored st.
Proof.
  revert st. induction items as [|item items IH]; intros st; [done|].
  cbn [top250_items].
  pose proof (top250_item_no_save fetch_detail t st item) as Hitem.
  destruct (top250_item _ _ _ _ _ _) as [st'|st']; simpl in Hitem; [|done].
  by rewrite IH.
Qed.

Lemma top250_pages_no_save site fetch_detail t st pages :
  stored (top250_pages parse_movie_detail site false fetch_detail t st pages)
  = stored st.
Proof.
  revert st. induction pages as [|page pages IH]; intros st; [done|].
  cbn [top250_pages]. destruct (site page) as [|items]; [apply IH|].
  destruct (negb (nonempty items)); [done|].
  by rewrite IH, top250_items_no_save.
Qed.

Lemma api_item_no_save run st page_count item :
  api_save_immediately run = false →
  stored (api_item parse_movie_detail run (st, page_count) item).1 = stored st.
Proof.
  intros Hsave. unfold api_item. rewrite Hsave.
  repeat case_match; simpl; try done.
  by eapply process_movie_with_detail_no_save.
Qed.

Lemma api_items_no_save run acc items :
  api_save_immediately run = false →
  stored (foldl (api_item parse_movie_detail run) acc items).1 = stored acc.1.
Proof.
  intros Hsave. revert acc. induction items as [|item items IH]; intros [st n]; [done|].
  cbn [foldl]. rewrite IH.
  pose proof (api_item_no_save run st n item Hsave) as Hitem.
  by destruct (api_item _ _ _ _).
Qed.

Lemma api_pages_no_save site run st pages :
  api_save_immediately run = false →
  stored (api_pages parse_movie_detail site run st pages) = stored st.
Proof.
  intros Hsave. revert st. induction pages as [|page pages IH]; intros st; [done|].
  cbn [api_pages]. destruct (site page) as [|data].
  { destruct (page =? 0)%nat; [done|apply IH]. }
  match goal with
  | |- context [match ?x with Ok _ => _ | Raise _ => _ end] =>
    destruct x as [[|item items]|]; [done| |done]
  end.
  pose proof (api_items_no_save run (st, O) (item :: items) Hsave) as Hitems.
  destruct (foldl _ _ _) as [st' page_count]. simpl in Hitems.
  match goal with |- context [if ?b then _ else _] => destruct b end;
    [done|by rewrite IH].
Qed.

(** A driver that is not asked to save as it goes writes no file. *)
Theorem crawl_without_saving_writes_nothing :
  (∀ site max_pages fetch_detail t existing fs,
     stored (crawl_top250 parse_movie_detail site max_pages fetch_detail false t
               existing fs) = fs)
  ∧ (∀ site run max_pages existing fs,
       api_save_immediately run = false →
       stored (crawl_api parse_movie_detail site run max_pages existing fs) = fs).
Proof.
  split.
  - intros. unfold crawl_top250. by rewrite top250_pages_no_save.
  - intros. unfold crawl_api. by rewrite api_pages_no_save.
Qed.
End DriverFiles.

Section DriverLines.
Context `{RT : Runtime}.
Variable parse_movie_detail : value → list (list N * value).
Implicit Types (st : crawl_state) (fs : files) (path : list N).

Lemma grows_refl line path st : grows line path st st.
Proof. exists []. by rewrite !app_nil_r. Qed.

Lemma grows_trans line path st1 st2 st3 :
  grows line path st1 st2 → grows line path st2 st3 → grows line path st1 st3.
Proof.
  intros (e1 & Hm1 & Hl1) (e2 & Hm2 & Hl2). exists (e1 ++ e2).
  rewrite Hm2, Hm1, Hl2, Hl1, fmap_app, !app_assoc. done.
Qed.

Lemma process_movie_with_detail_line fs movie fetch_detail t path fs' movie' :
  jsonl_filename t = Some path →
  path ≠ [] →
  _process_movie_with_detail parse_movie_detail fs movie fetch_detail true t
  = Ok (fs', movie') →
  jsonl_files fs' !! path
  = Some (default [] (jsonl_files fs !! path) ++ [order_fields movie'])
  ∧ dget (py "category") movie' = None.
Proof.
  intros Hpath Hne (merged & normalized & _ & _ & Hsave)%process_movie_with_detail_inv.
  destruct (save_movie_line_inv _ _ _ _ _ Hsave) as (Hsteps & _ & ->). split.
  - rewrite jsonl_files_write_csv, jsonl_files_write_json, Hpath.
    by rewrite jsonl_files_write_jsonl.
  - destruct (normalize_steps_normal_form _ _ Hsteps) as [Hdel _].
    rewrite Forall_forall in Hdel. apply Hdel. unfold deleted_keys. in_list.
Qed.

Lemma top250_item_grows fetch_detail t path st item :
  jsonl_filename t = Some path →
  path ≠ [] →
  grows order_fields path st
    (after_item (top250_item parse_movie_detail true fetch_detail t st item)).
Proof.
  intros Hpath Hne. unfold top250_item.
  destruct (parse_movie_item _ _ _ _) as [movie|]; [|apply grows_refl].
  destruct (truthy (VDict movie)); [|apply grows_refl].
  destruct (movie_key movie) as [key|]; [|apply grows_refl].
  destruct (nonempty key && bool_decide (key ∉ existing_movies st));
    [|apply grows_refl].
  destruct (_process_movie_with_detail _ _ _ _ _ _) as [[fs movie']|] eqn:Hp; simpl.
  - destruct (process_movie_with_detail_line _ _ _ _ _ _ _ Hpath Hne Hp) as [Hline _].
    exists [movie']. simpl. by rewrite Hline.
  - exists []. simpl. by rewrite !app_nil_r.
Qed.

Lemma top250_items_grows fetch_detail t path st items :
  jsonl_filename t = Some path →
  path ≠ [] →
  grows order_fields path st
    (top250_items parse_movie_detail true fetch_detail t st items).
Proof.
  intros Hpath Hne. revert st. induction items as [|item items IH]; intros st.
  { apply grows_refl. }
  cbn [top250_items].
  pose proof (top250_item_grows fetch_detail t path st item Hpath Hne) as Hitem.
  destruct (top250_item _ _ _ _ _ _) as [st'|st']; simpl in Hitem; [|done].
  by eapply grows_trans.
Qed.

Lemma top250_pages_grows site fetch_detail t path st pages :
  jsonl_filename t = Some path →
  path ≠ [] →
  grows order_fields path st
    (top250_pages parse_movie_detail site true fetch_detail t st pages).
Proof.
  intros Hpath Hne. revert st. induction pages as [|page pages IH]; intros st.
  { apply grows_refl. }
  cbn [top250_pages]. destruct (site page) as [|items]; [apply IH|].
  destruct (negb (nonempty items)); [apply grows_refl|].
  eapply grows_trans; [by apply top250_items_grows|apply IH].
Qed.

Lemma api_item_grows run path st page_count item :
  api_save_immediately run = true →
  jsonl_filename (api_targets run) = Some path →
  path ≠ [] →
  grows (fun movie => order_fields (ddel (py "category") movie)) path st
    (api_item parse_movie_detail run (st, page_count) item).1.
Proof.
  intros Hsave Hpath Hne. unfold api_item. rewrite Hsave.
  destruct (api_movie _ _) as [[movie|]|]; [|apply grows_refl..].
  destruct (movie_key movie) as [key|]; [|apply grows_refl].
  destruct (nonempty key && bool_decide (key ∉ existing_movies st));
    [|apply grows_refl].
  destruct (_process_movie_with_detail _ _ _ _ _ _) as [[fs movie']|] eqn:Hp; simpl.
  - destruct (process_movie_with_detail_line _ _ _ _ _ _ _ Hpath Hne Hp)
      as [Hline Hcategory].
    exists [dset (py "category") (VStr (category_name run)) movie']. simpl.
    by rewrite Hline, ddel_dset_fresh.
  - exists []. simpl. by rewrite !app_nil_r.
Qed.

Lemma api_items_grows run path acc items :
  api_save_immediately run = true →
  jsonl_filename (api_targets run) = Some path →
  path ≠ [] →
  grows (fun movie => order_fields (ddel (py "category") movie)) path acc.1
    (foldl (api_item parse_movie_detail run) acc items).1.
Proof.
  intros Hsave Hpath Hne. revert acc.
  induction items as [|item items IH]; intros [st n]; [apply grows_refl|].
  cbn [foldl]. eapply grows_trans; [|apply IH].
  pose proof (api_item_grows run path st n item Hsave Hpath Hne) as Hitem.
  by destruct (api_item _ _ _ _).
Qed.

Lemma api_pages_grows site run path st pages :
  api_save_immediately run = true →
  jsonl_filename (api_targets run) = Some path →
  path ≠ [] →
  grows (fun movie => order_fields (ddel (py "category") movie)) path st
    (api_pages parse_movie_detail site run st pages).
Proof.
  intros Hsave Hpath Hne. revert st.
  induction pages as [|page pages IH]; intros st; [apply grows_refl|].
  cbn [api_pages]. destruct (site page) as [|data].
  { destruct (page =? 0)%nat; [apply grows_refl|apply IH]. }
  match goal with
  | |- context [match ?x with Ok _ => _ | Raise _ => _ end] =>
    destruct x as [[|item items]|]; [apply grows_refl| |apply grows_refl]
  end.
  pose proof (api_items_grows run path (st, O) (item :: items) Hsave Hpath Hne)
    as Hitems.
  destruct (foldl _ _ _) as [st' page_count]. simpl in Hitems.
  match goal with |- context [if ?b then _ else _] => destruct b end; [done|].
  eapply grows_trans; [done|apply IH].
Qed.

(** With [save_immediately], the line-delimited file of [crawl_top250]
    holds, after the crawl, one line for each record of the result, in
    order: the record with its fields in order.  Lines a file of that name
    had before are gone. *)
Theorem crawl_top250_lines site max_pages fetch_detail t existing fs path :
  jsonl_filename t = Some path →
  path ≠ [] →
  default []
    (jsonl_files
       (stored (crawl_top250 parse_movie_detail site max_pages fetch_detail true t
                  existing fs)) !! path)
  = order_fields
      <$> movies (crawl_top250 parse_movie_detail site max_pages fetch_detail true t
                    existing fs).
Proof.
  intros Hpath Hne. unfold crawl_top250.
  match goal with
  | |- context [top250_pages _ _ _ _ _ ?st0 ?pages] =>
    destruct (top250_pages_grows site fetch_detail t path st0 pages Hpath Hne)
      as (extra & Hmovies & Hlines)
  end.
  rewrite Hlines, Hmovies. simpl.
  assert (jsonl_files (remove_csv (csv_filename t) (remove_jsonl (Some path) fs))
            !! path = None) as Hgone.
  { unfold remove_csv, remove_jsonl. rewrite given_nonempty by done.
    destruct (given (csv_filename t)); simpl; apply lookup_delete_eq. }
  rewrite Hpath, Hgone. done.
Qed.

(** With [save_immediately], an API driver adds to its line-delimited
    file one line for each record of its result, in order, after the lines
    the file had.  A line is the record without its [category], with its
    fields in order. *)
Theorem crawl_api_lines site run max_pages existing fs path :
  api_save_immediately run = true →
  jsonl_filename (api_targets run) = Some path →
  path ≠ [] →
  default []
    (jsonl_files (stored (crawl_api parse_movie_detail site run max_pages existing fs))
       !! path)
  = default [] (jsonl_files fs !! path)
    ++ ((fun movie => order_fields (ddel (py "category") movie))
          <$> movies (crawl_api parse_movie_detail site run max_pages existing fs)).
Proof.
  intros Hsave Hpath Hne. unfold crawl_api.
  match goal with
  | |- context [api_pages _ _ _ ?st0 ?pages] =>
    destruct (api_pages_grows site run path st0 pages Hsave Hpath Hne)
      as (extra & Hmovies & Hlines)
  end.
  by rewrite Hlines, Hmovies.
Qed.
End DriverLines.

Section ApiRecords.
Context `{RT : Runtime}.
Variable parse_movie_detail : value → list (list N * value).
Implicit Types (st : crawl_state).

Lemma api_item_category run st page_count item :
  Forall (fun movie => dget (py "category") movie = Some (VStr (category_name run)))
    (movies st) →
  Forall (fun movie => dget (py "category") movie = Some (VStr (category_name run)))
    (movies (api_item parse_movie_detail run (st, page_count) item).1).
Proof.
  intros Hall. unfold api_item. repeat case_match; simpl; try done.
  apply Forall_app. split; [done|]. repeat constructor. apply dget_dset_eq.
Qed.

Lemma api_items_category run acc items :
  Forall (fun movie => dget (py "category") movie = Some (VStr (category_name run)))
    (movies acc.1) →
  Forall (fun movie => dget (py "category") movie = Some (VStr (category_name run)))
    (movies (foldl (api_item parse_movie_detail run) acc items).1).
Proof.
  revert acc. induction items as [|item items IH]; intros [st n] Hall; [done|].
  cbn [foldl]. apply IH.
  pose proof (api_item_category run st n item Hall) as Hitem.
  by destruct (api_item _ _ _ _).
Qed.

Lemma api_pages_category site run st pages :
  Forall (fun movie => dget (py "category") movie = Some (VStr (category_name run)))
    (movies st) →
  Forall (fun movie => dget (py "category") movie = Some (VStr (category_name run)))
    (movies (api_pages parse_movie_detail site run st pages)).
Proof.
  revert st. induction pages as [|page pages IH]; intros st Hall; [done|].
  cbn [api_pages]. destruct (site page) as [|data].
  { destruct (page =? 0)%nat; [done|by apply IH]. }
  match goal with
  | |- context [match ?x with Ok _ => _ | Raise _ => _ end] =>
    destruct x as [[|item items]|]; [done| |done]
  end.
  pose proof (api_items_category run (st, O) (item :: items) Hall) as Hitems.
  destruct (foldl _ _ _) as [st' page_count]. simpl in Hitems.
  match goal with |- context [if ?b then _ else _] => destruct b end;
    [done|by apply IH].
Qed.

(** Every record an API driver returns carries the category name of the
    run. *)
Theorem crawl_api_tags_category site run max_pages existing fs movie :
  movie ∈ movies (crawl_api parse_movie_detail site run max_pages existing fs) →
  dget (py "category") movie = Some (VStr (category_name run)).
Proof.
  intros Hin. unfold crawl_api in Hin.
  match type of Hin with
  | context [api_pages _ _ _ ?st0 ?pages] =>
    pose proof (api_pages_category site run st0 pages (Forall_nil_2 _)) as Hall
  end.
  rewrite Forall_forall in Hall. by apply Hall.
Qed.

Lemma api_movie_shape kind item movie :
  api_movie kind item = Ok (Some movie) →
  ∃ id z title rating count poster,
    api_movie_id kind item = Ok id
    ∧ py_int id = Ok z
    ∧ movie = [ (py "link", VStr (base_url ++ py "/subject/" ++ py_str id ++ py "/"));
                (py "movie_id", VInt z); (py "title", title);
                (py "rating", VFloat rating); (py "total_ratings", VInt count);
                (py "poster", poster) ].
Proof.
  unfold api_movie. unfold_bind.
  destruct (api_movie_id kind item) as [id|]; [|done].
  destruct (truthy id); [|done].
  destruct (py_int id) as [z|[]] eqn:Hz; try done.
  destruct (vget_or (py "title") _ item) as [title|]; [|done].
  destruct (vget_or (py "rating") _ item) as [rating_info|]; [|done].
  match goal with
  | |- context [api_rating ?k ?r ?m] => destruct (api_rating k r m) as [rated|] eqn:Hr
  end; [|done].
  destruct (vget_or (py "pic") _ item) as [pic_info|]; [|done].
  intros [= <-].
  assert (∃ rating count,
    rated = dset (py "total_ratings") (VInt count)
              (dset (py "rating") (VFloat rating)
                 (dset (py "title") title
                    (dset (py "movie_id") (VInt z)
                       (dset (py "link")
                          (VStr (base_url ++ py "/subject/" ++ py_str id ++ py "/"))
                          []))))) as (rating & count & ->).
  { unfold api_rating in Hr. step_cases; eauto. }
  exists id, z, title, rating, count, (api_poster kind pic_info).
  split_and!; [done..|].
  cbn [dset]. repeat (rewrite decide_False by key_ne; cbn [dset]). done.
Qed.

(** The record made of an API item has the link of the identifier, the
    identifier as an integer, the title, a float rating, an integer count
    and the poster, in this order, and no other field. *)
Theorem api_movie_fields kind item movie :
  api_movie kind item = Ok (Some movie) →
  ∃ id z title rating count poster,
    api_movie_id kind item = Ok id
    ∧ py_int id = Ok z
    ∧ movie = [ (py "link", VStr (base_url ++ py "/subject/" ++ py_str id ++ py "/"));
                (py "movie_id", VInt z); (py "title", title);
                (py "rating", VFloat rating); (py "total_ratings", VInt count);
                (py "poster", poster) ].
Proof. apply api_movie_shape. Qed.
End ApiRecords.

(** ** The further statements at concrete inputs *)

Section MoreInstances.
Local Existing Instance Plain.runtime.

Lemma normalize_removes_fields_witness :
  (py "category" ∉ shawshank_normalized.*1)
  ∧ truthy (get (py "people") shawshank_normalized) = false
  ∧ truthy (get (py "release_dates") shawshank_normalized) = false.
Proof.
  apply (normalize_removes_fields shawshank); [reflexivity|in_list].
Defined.

Lemma normalize_field_types_witness :
  (∃ id, dget (py "movie_id") shawshank_normalized = Some id ∧ is_int id = true)
  ∧ (∃ rating, dget (py "rating") shawshank_normalized = Some rating
               ∧ (truthy rating = true → ∃ f, rating = VFloat f))
  ∧ (∃ count, dget (py "total_ratings") shawshank_normalized = Some count
              ∧ ∀ s, count ≠ VStr s)
  ∧ (∀ date, dget (py "release_date") shawshank_normalized = Some date →
             is_int date = false).
Proof. apply (normalize_field_types shawshank). reflexivity. Defined.

Lemma normalize_cleans_text_witness :
  contains (py "导演") (py "美国 / 英国") = false
  ∧ contains (py "主演") (py "美国 / 英国") = false
  ∧ (length (py "美国 / 英国") ≤ 200)%nat.
Proof.
  apply (normalize_cleans_text with_countries with_countries_normalized
           (py "countries")); [reflexivity|by left|reflexivity|discriminate].
Defined.

Lemma normalize_orders_keys_witness :
  shawshank_normalized.*1
  = filter (fun field => field ∈ shawshank_normalized.*1) FIELD_ORDER
    ++ filter (fun key => key ∉ FIELD_ORDER) shawshank_normalized.*1.
Proof. apply (normalize_orders_keys shawshank). reflexivity. Defined.

Lemma normalize_raises_on_actors_witness :
  normalize_movie_data actors_as_list = Raise AttributeError.
Proof.
  apply (normalize_raises_on_actors actors_as_list
           (VList [VStr (py "a"); VStr (py "b")])); [reflexivity..|discriminate].
Defined.


Lemma merge_detail_info_keeps_fields_witness :
  dget (py "title") merge_result = dget (py "title") merge_base
  ∧ py "poster" ∈ merge_result.*1.
Proof.
  destruct (merge_detail_info_keeps_fields merge_base merge_detail merge_result)
    as [Hframe Hkeys]; [reflexivity|].
  split.
  - apply Hframe; [|key_ne..].
    apply (bool_decide_eq_false_1 (py "title" ∈ enrichable_fields)). reflexivity.
  - apply Hkeys. unfold merge_base. simpl. in_list.
Defined.

Lemma merge_detail_info_edges_witness :
  _merge_detail_info merge_base bad_detail = Raise AttributeError.
Proof.
  destruct (merge_detail_info_edges merge_base) as [_ Hraise].
  apply (Hraise bad_detail (VStr (py "9.1"))); [discriminate|reflexivity..|discriminate].
Defined.

Lemma save_movie_line_appends_line_witness :
  ∃ normalized,
    normalize_movie_data record_a = Ok normalized
    ∧ jsonl_files (write_jsonl (Some (py "top.jsonl")) record_a_normalized one_line)
        !! py "top.jsonl"
      = Some (default [] (jsonl_files one_line !! py "top.jsonl") ++ [normalized]).
Proof.
  apply (save_movie_line_appends_line one_line record_a top_jsonl (py "top.jsonl")
           _ record_a_updated); [reflexivity|discriminate|reflexivity].
Defined.


Lemma save_movie_line_touches_targets_only_witness :
  jsonl_files (write_json (Some (py "movies.json")) record_a_normalized one_array)
  = jsonl_files one_array
  ∧ csv_files (write_json (Some (py "movies.json")) record_a_normalized one_array)
    = csv_files one_array.
Proof.
  destruct (save_movie_line_touches_targets_only one_array record_a movies_json
              (write_json (Some (py "movies.json")) record_a_normalized one_array)
              record_a_updated (py "other.json"))
    as (_ & _ & _ & Hjsonl & _ & Hcsv); [reflexivity|].
  split; [apply Hjsonl|apply Hcsv]; reflexivity.
Defined.

Lemma crawl_without_saving_writes_nothing_witness :
  stored (crawl_api no_detail flaky_api plain_run 3 ∅ one_line) = one_line.
Proof.
  destruct (crawl_without_saving_writes_nothing no_detail) as [_ Hapi].
  apply Hapi. reflexivity.
Defined.

Lemma crawl_top250_lines_witness :
  default []
    (jsonl_files
       (stored (crawl_top250 no_detail flaky_top250 3 false true top_jsonl ∅ one_line))
       !! py "top.jsonl")
  = order_fields
      <$> movies (crawl_top250 no_detail flaky_top250 3 false true top_jsonl ∅ one_line).
Proof. apply crawl_top250_lines; [reflexivity|discriminate]. Defined.

Lemma crawl_api_lines_witness :
  default []
    (jsonl_files (stored (crawl_api no_detail flaky_api saving_run 3 ∅ one_line))
       !! py "top.jsonl")
  = default [] (jsonl_files one_line !! py "top.jsonl")
    ++ ((fun movie => order_fields (ddel (py "category") movie))
          <$> movies (crawl_api no_detail flaky_api saving_run 3 ∅ one_line)).
Proof. apply crawl_api_lines; [reflexivity..|discriminate]. Defined.

Lemma crawl_api_tags_category_witness :
  dget (py "category") record_2 = Some (VStr (category_name plain_run)).
Proof.
  apply (crawl_api_tags_category no_detail flaky_api plain_run 3 ∅ no_files).
  assert (movies (crawl_api no_detail flaky_api plain_run 3 ∅ no_files)
          = [record_1; record_2]) as -> by reflexivity.
  apply elem_of_cons. right. apply elem_of_cons. by left.
Defined.

Lemma api_movie_fields_witness :
  ∃ id z title rating count poster,
    api_movie_id ByCategory (api_item_of "1" "A") = Ok id
    ∧ py_int id = Ok z
    ∧ item_1_record
      = [ (py "link", VStr (base_url ++ py "/subject/" ++ py_str id ++ py "/"));
          (py "movie_id", VInt z); (py "title", title);
          (py "rating", VFloat rating); (py "total_ratings", VInt count);
          (py "poster", poster) ].
Proof. apply api_movie_fields. reflexivity. Defined.
End MoreInstances.

(** ** The batch writers *)

Section BatchJson.
Context `{RT : Runtime}.
Implicit Types (fs : files) (data : list (list (list N * value))).

Lemma normalize_all_Ok data normalized :
  normalize_all data = Ok normalized ↔
  Forall2 (fun movie n => normalize_movie_data movie = Ok n) data normalized.
Proof.
  revert normalized. induction data as [|movie data IH]; intros normalized; simpl.
  - split; [intros [= <-]; constructor|by intros ->%Forall2_nil_inv_l].
  - unfold_bind. split.
    + destruct (normalize_movie_data movie) as [n|] eqn:Hn; [|done].
      destruct (normalize_all data) as [ns|] eqn:Hns; [|done].
      intros [= <-]. constructor; [done|]. by apply IH.
    + intros (n & ns & Hn & Hns & ->)%Forall2_cons_inv_l.
      apply IH in Hns. by rewrite Hn, Hns.
Qed.

Lemma normalize_all_Raise data e :
  normalize_all data = Raise e →
  ∃ before movie after,
    data = before ++ movie :: after
    ∧ (∃ normalized, normalize_all before = Ok normalized)
    ∧ normalize_movie_data movie = Raise e.
Proof.
  induction data as [|movie data IH]; simpl; [done|]. unfold_bind.
  destruct (normalize_movie_data movie) as [n|e'] eqn:Hn.
  - destruct (normalize_all data) as [ns|e''] eqn:Hns; [done|].
    intros [= ->]. destruct (IH eq_refl) as (before & m & after & -> & [ns Hb] & Hm).
    exists (movie :: before), m, after. split_and!; [done| |done].
    exists (n :: ns). simpl. unfold_bind. by rewrite Hn, Hb.
  - intros [= ->]. exists [], movie, data. split_and!; [done| |done]. by exists [].
Qed.

(** [save_to_json] puts in its file the array of the normalised records,
    in the order of [data], in place of anything the file held, and
    changes no other file. *)
Theorem save_to_json_writes_array fs data filename fs' :
  save_to_json fs data filename = inr fs' →
  ∃ normalized,
    Forall2 (fun movie n => normalize_movie_data movie = Ok n) data normalized
    ∧ json_files fs' !! filename = Some (Decoded (VList (VDict <$> normalized)))
    ∧ (∀ p, p ≠ filename → json_files fs' !! p = json_files fs !! p)
    ∧ jsonl_files fs' = jsonl_files fs
    ∧ csv_files fs' = csv_files fs.
Proof.
  unfold save_to_json.
  destruct (normalize_all data) as [normalized|] eqn:Hall; [|done].
  destruct (nonempty filename); [|done]. intros [= <-].
  exists normalized. split_and!; [by apply normalize_all_Ok| |  |done|done]; simpl.
  - apply lookup_insert_eq.
  - intros p Hp. by apply lookup_insert_ne.
Qed.

(** [save_to_json] ends with the exception of the first record that the
    normaliser does not accept, and then writes nothing; the records
    before it are accepted. *)
Theorem save_to_json_first_failure fs data filename e :
  save_to_json fs data filename = inl (Exception e) →
  ∃ before movie after,
    data = before ++ movie :: after
    ∧ (∃ normalized,
         Forall2 (fun movie n => normalize_movie_data movie = Ok n) before normalized)
    ∧ normalize_movie_data movie = Raise e.
Proof.
  unfold save_to_json.
  destruct (normalize_all data) as [normalized|e'] eqn:Hall.
  - by destruct (nonempty filename).
  - intros [= ->].
    destruct (normalize_all_Raise _ _ Hall) as (before & m & after & -> & [ns Hb] & Hm).
    exists before, m, after. split_and!; [done| |done].
    exists ns. by apply normalize_all_Ok.
Qed.

Lemma save_each_json fs data t path fs' :
  json_filename t = Some path →
  path ≠ [] →
  save_each fs data t = Ok fs' →
  ∃ normalized,
    normalize_all data = Ok normalized
    ∧ json_files fs' !! path
      = foldl (fun file n => Some (append_json file n)) (json_files fs !! path)
          normalized.
Proof.
  intros Hpath Hne. revert fs. induction data as [|movie data IH]; intros fs; simpl.
  - intros [= <-]. by exists [].
  - unfold_bind.
    destruct (save_movie_line fs movie t) as [[fs1 updated]|] eqn:Hsave; [|done].
    simpl. intros Hrest. destruct (IH _ Hrest) as (ns & Hns & Hfile).
    destruct (save_movie_line_inv _ _ _ _ _ Hsave) as (_ & Hnorm & ->).
    exists (order_fields updated :: ns). rewrite Hnorm, Hns. split; [done|].
    rewrite Hfile. simpl. f_equal.
    rewrite json_files_write_csv, Hpath, json_files_write_json by done.
    by rewrite json_files_write_jsonl.
Qed.

Lemma append_json_array (existing : list value) (normalized : list (list (list N * value))) :
  foldl (fun file n => Some (append_json file n)) (Some (Decoded (VList existing)))
    normalized
  = Some (Decoded (VList (existing ++ (VDict <$> normalized)))).
Proof.
  revert existing. induction normalized as [|n ns IH]; intros existing; simpl.
  - by rewrite app_nil_r.
  - rewrite IH. by rewrite <-app_assoc.
Qed.

(** Saving the records of a list one by one with [save_movie_line] into a
    JSON file that does not exist gives the file that [save_to_json] gives
    for the list. *)
Theorem save_each_is_save_to_json fs data t path fs1 :
  json_filename t = Some path →
  path ≠ [] →
  data ≠ [] →
  json_files fs !! path = None →
  save_each fs data t = Ok fs1 →
  ∃ fs2, save_to_json fs data path = inr fs2
         ∧ json_files fs1 !! path = json_files fs2 !! path.
Proof.
  intros Hpath Hne Hdata Hfresh Hsave.
  destruct (save_each_json _ _ _ _ _ Hpath Hne Hsave) as (ns & Hns & Hfile).
  unfold save_to_json. rewrite Hns. destruct path as [|c path]; [done|].
  cbn [nonempty]. eexists. split; [done|]. simpl.
  rewrite lookup_insert_eq, Hfile, Hfresh.
  destruct ns as [|n ns].
  { apply normalize_all_Ok, Forall2_nil_inv_r in Hns. done. }
  simpl. by rewrite append_json_array.
Qed.
End BatchJson.

Section BatchCsv.
Context `{RT : Runtime}.
Variable iteration : list (list N) → list (list N).
Implicit Types (fs : files) (data normalized : list (list (list N * value))).

Lemma add_missing_elem (init l : list (list N)) x :
  x ∈ foldl (fun fieldnames field =>
               if decide (field ∈ fieldnames) then fieldnames else fieldnames ++ [field])
            init l
  ↔ x ∈ init ∨ x ∈ l.
Proof.
  revert init. induction l as [|f l IH]; intros init; simpl.
  - rewrite elem_of_nil. tauto.
  - rewrite IH, elem_of_cons. destruct (decide (f ∈ init)) as [Hin|Hin].
    + split; [tauto|]. intros [?|[->|?]]; tauto.
    + rewrite elem_of_app, list_elem_of_singleton. tauto.
Qed.

Lemma add_missing_NoDup (init l : list (list N)) :
  NoDup init →
  NoDup (foldl (fun fieldnames field =>
                  if decide (field ∈ fieldnames) then fieldnames
                  else fieldnames ++ [field])
               init l).
Proof.
  revert init. induction l as [|f l IH]; intros init Hinit; simpl; [done|].
  apply IH. destruct (decide (f ∈ init)) as [Hin|Hin]; [done|].
  apply NoDup_app. split_and!; [done| |apply NoDup_singleton].
  by intros x Hx ->%list_elem_of_singleton.
Qed.

Lemma add_missing_prefix (init l : list (list N)) :
  ∃ rest,
    foldl (fun fieldnames field =>
             if decide (field ∈ fieldnames) then fieldnames else fieldnames ++ [field])
          init l
    = init ++ rest
    ∧ ∀ x, x ∈ rest → x ∉ init.
Proof.
  revert init. induction l as [|f l IH]; intros init; simpl.
  - exists []. split; [by rewrite app_nil_r|]. by intros x ?%elem_of_nil.
  - destruct (decide (f ∈ init)) as [Hin|Hin]; [apply IH|].
    destruct (IH (init ++ [f])) as (rest & -> & Hrest).
    exists (f :: rest). split; [by rewrite <-app_assoc|].
    intros x [->|Hx]%elem_of_cons; [done|].
    specialize (Hrest x Hx). rewrite elem_of_app in Hrest. tauto.
Qed.

Lemma FIELD_ORDER_NoDup : NoDup FIELD_ORDER.
Proof. apply (bool_decide_eq_true_1 (NoDup FIELD_ORDER)). vm_compute. reflexivity. Qed.

Lemma existsb_has normalized k :
  existsb (has k) normalized = true ↔ ∃ n, n ∈ normalized ∧ k ∈ n.*1.
Proof.
  rewrite existsb_exists. split.
  - intros (n & Hn%list_elem_of_In & Hk). exists n. split; [done|].
    apply elem_of_keys. unfold has in Hk. by destruct (dget k n).
  - intros (n & Hn & Hk). exists n. split; [by apply list_elem_of_In|].
    apply elem_of_keys in Hk. unfold has. by destruct (dget k n).
Qed.

Lemma batch_fieldnames_elem normalized k :
  (∀ keys x, x ∈ iteration keys ↔ x ∈ keys) →
  k ∈ batch_fieldnames iteration normalized ↔ ∃ n, n ∈ normalized ∧ k ∈ n.*1.
Proof.
  intros Hiter. unfold batch_fieldnames.
  rewrite add_missing_elem, list_elem_of_filter, existsb_has, Hiter, list_elem_of_join.
  split.
  - intros [[? _]|(keys & Hk & (n & -> & Hn)%list_elem_of_fmap)]; eauto.
  - intros (n & Hn & Hk). right. exists (n.*1). split; [done|].
    apply list_elem_of_fmap. eauto.
Qed.

(** Written anew, the CSV file of [save_to_csv] has a header without
    repetition that holds every key of every normalised record, and those
    keys only: first the fields of [FIELD_ORDER] that some record has, in
    that order, then the other keys.  Its rows are those of the normalised
    records under this header, in the order of [data]. *)
Theorem save_to_csv_header_covers fs data filename fs' :
  (∀ keys x, x ∈ iteration keys ↔ x ∈ keys) →
  data ≠ [] →
  save_to_csv iteration fs data filename false = inr fs' →
  ∃ normalized header others,
    Forall2 (fun movie n => normalize_movie_data movie = Ok n) data normalized
    ∧ csv_files fs' !! filename = Some (header :: (csv_row header <$> normalized))
    ∧ header
      = filter (fun field => existsb (has field) normalized = true) FIELD_ORDER
        ++ others
    ∧ (∀ k, k ∈ others → k ∉ FIELD_ORDER)
    ∧ NoDup header
    ∧ (∀ k, k ∈ header ↔ ∃ n, n ∈ normalized ∧ k ∈ n.*1).
Proof.
  intros Hiter Hdata. unfold save_to_csv. destruct data as [|movie data]; [done|].
  cbn [nonempty negb].
  destruct (normalize_all (movie :: data)) as [normalized|] eqn:Hall; [|done].
  rewrite andb_false_r. destruct (nonempty filename); [|done]. intros [= <-].
  destruct (add_missing_prefix
              (filter (fun field => existsb (has field) normalized = true) FIELD_ORDER)
              (iteration (mjoin ((fun item : list (list N * value) => item.*1)
                                   <$> normalized))))
    as (others & Hheader & Hothers).
  exists normalized, (batch_fieldnames iteration normalized), others.
  split_and!.
  - by apply normalize_all_Ok.
  - simpl. by rewrite lookup_insert_eq.
  - done.
  - intros k Hk Hfield.
    assert (k ∈ batch_fieldnames iteration normalized) as Hin.
    { unfold batch_fieldnames. rewrite Hheader, elem_of_app. by right. }
    apply batch_fieldnames_elem in Hin; [|done].
    apply (Hothers k Hk), list_elem_of_filter. split; [|done].
    by apply existsb_has.
  - apply add_missing_NoDup, NoDup_filter, FIELD_ORDER_NoDup.
  - intros k. by apply batch_fieldnames_elem.
Qed.

(** [save_to_csv] writes nothing for an empty list, whatever the mode.  In
    append mode on a file that exists it keeps the rows of the file, the
    header too, writes no header, and adds one row for each record. *)
Theorem save_to_csv_appends_rows :
  (∀ fs filename append, save_to_csv iteration fs [] filename append = inr fs)
  ∧ (∀ fs data filename old fs',
       csv_files fs !! filename = Some old →
       save_to_csv iteration fs data filename true = inr fs' →
       ∃ rows, csv_files fs' !! filename = Some (old ++ rows)
               ∧ length rows = length data).
Proof.
  split; [done|]. intros fs data filename old fs' Hold. unfold save_to_csv.
  destruct data as [|movie data].
  { intros [= <-]. exists []. by rewrite app_nil_r. }
  cbn [nonempty negb].
  destruct (normalize_all (movie :: data)) as [normalized|] eqn:Hall; [|done].
  destruct (nonempty filename); [|done]. intros [= <-].
  rewrite Hold. simpl. rewrite lookup_insert_eq. eexists. split; [reflexivity|].
  rewrite length_fmap. symmetry. by apply (Forall2_length _ _ _ (proj1 (normalize_all_Ok _ _) Hall)).
Qed.
End BatchCsv.

(** ** No entry is lost *)

Section Accepted.
Context `{RT : Runtime}.
Variable parse_movie_detail : value → list (list N * value).
Implicit Types (r d movie : list (list N * value)) (fs : files) (st : crawl_state).

Lemma clean_text_field_value field d d' :
  clean_text_field field d = Ok d' →
  dget field d' = dget field d ∨ dget field d' = Some (VStr []).
Proof.
  unfold clean_text_field. intros H. step_cases; dsimpl; auto.
Qed.

Lemma names_settled_text keep field : names_settled keep field → text_or_falsy field.
Proof.
  destruct field as [v|]; simpl; [|done].
  intros [Hfalse|(s & -> & _)] Htrue; [congruence|eauto].
Qed.

(** The text fields of a record stay text through the steps. *)
Lemma normalize_steps_keeps_text r d :
  normalize_steps r = Ok d →
  (∀ k, k ∈ text_fields → text_or_falsy (dget k r)) →
  ∀ k, k ∈ text_fields → text_or_falsy (dget k d).
Proof.
  intros Hsteps Htext k Hk.
  destruct (normalize_steps_normal_form _ _ Hsteps)
    as (_ & Hactors & Hdirectors & Hwriters & _ & Hpeople & _ & _ & _ & _ & Hdates & _).
  assert (∀ field, field = py "countries" ∨ field = py "languages" →
                   text_or_falsy (dget field d)) as Hclean.
  { intros field Hfield.
    assert (text_or_falsy (dget field r)) as Hr.
    { apply Htext. unfold text_fields. destruct Hfield as [-> | ->]; in_list. }
    apply normalize_steps_inv in Hsteps
      as (d1 & d2 & d3 & d6 & d7 & d8 & d9 & d10
          & H1 & H2 & H3 & H6 & H7 & H8 & H9 & H10 & ->).
    destruct Hfield as [-> | ->].
    - assert (dget (py "countries") d7 = dget (py "countries") r) as H7r
        by (by frame_back).
      assert (dget (py "countries")
                (ddel (py "release_year") (release_date_as_str d10))
              = dget (py "countries") d8) as -> by (by frame_back).
      destruct (clean_text_field_value _ _ _ H8) as [-> | ->].
      + by rewrite H7r.
      + intros _. by eexists.
    - assert (dget (py "languages") d8 = dget (py "languages") r) as H8r
        by (by frame_back).
      assert (dget (py "languages")
                (ddel (py "release_year") (release_date_as_str d10))
              = dget (py "languages") d9) as -> by (by frame_back).
      destruct (clean_text_field_value _ _ _ H9) as [-> | ->].
      + by rewrite H8r.
      + intros _. by eexists. }
  unfold text_fields in Hk. rewrite !elem_of_cons, elem_of_nil in Hk.
  destruct Hk as [->|[->|[->|[->|[->|[->|[->|[->|[]]]]]]]]].
  - by eapply names_settled_text.
  - by eapply names_settled_text.
  - by eapply names_settled_text.
  - destruct (dget (py "people") d) as [v|]; simpl in *; [|done]. congruence.
  - apply Hclean. by left.
  - apply Hclean. by right.
  - destruct (dget (py "release_dates") d) as [v|]; simpl in *; [|done]. congruence.
  - rewrite (normalize_steps_untouched _ _ _ Hsteps) by apply link_untouched.
    apply Htext. unfold text_fields. in_list.
Qed.

Lemma order_fields_keeps_text d :
  (∀ k, k ∈ text_fields → text_or_falsy (dget k d)) →
  ∀ k, k ∈ text_fields → text_or_falsy (dget k (order_fields d)).
Proof. intros H k Hk. rewrite dget_order_fields. by apply H. Qed.

(** Without a detail page, a record whose text fields are text is
    processed to the end: normalised, and saved when asked. *)
Lemma process_movie_with_detail_total fs movie save_immediately t :
  (∀ k, k ∈ text_fields → text_or_falsy (dget k movie)) →
  ∃ fs' movie',
    _process_movie_with_detail parse_movie_detail fs movie false save_immediately t
    = Ok (fs', movie')
    ∧ (∀ k, k ∈ text_fields → text_or_falsy (dget k movie'))
    ∧ movie' ≠ [].
Proof.
  intros Htext. unfold _process_movie_with_detail, normalize_movie_data. simpl.
  unfold_bind.
  destruct (normalize_steps_total movie Htext) as [d Hd]. rewrite Hd.
  pose proof (normalize_steps_keeps_text _ _ Hd Htext) as Hd_text.
  pose proof (order_fields_keeps_text _ Hd_text) as Hordered.
  assert (∀ u, normalize_steps u ≠ Ok []) as Hnonempty.
  { intros u Hu. destruct (normalize_steps_normal_form _ _ Hu)
      as (_ & _ & _ & _ & (v & Hv & _) & _). done. }
  destruct save_immediately.
  - unfold save_movie_line. unfold_bind.
    destruct (normalize_steps_total _ Hordered) as [u Hu]. rewrite Hu.
    eexists _, u. split_and!; [reflexivity| |].
    + by eapply normalize_steps_keeps_text.
    + intros ->. by apply (Hnonempty (order_fields d)).
  - exists fs, (order_fields d). split_and!; [done|done|].
    intros Hempty. apply (Hnonempty movie). rewrite Hd. f_equal.
    destruct d as [|[k v] d]; [done|].
    assert (dget k (order_fields ((k, v) :: d)) = dget k ((k, v) :: d)) as Hk
      by apply dget_order_fields.
    rewrite Hempty in Hk. simpl in Hk. by rewrite decide_True in Hk.
Qed.

Lemma movie_info_text e k : k ∈ text_fields → text_or_falsy (dget k (movie_info e)).
Proof.
  intros Hk. unfold text_fields in Hk. rewrite !elem_of_cons, elem_of_nil in Hk.
  destruct Hk as [->|[->|[->|[->|[->|[->|[->|[->|[]]]]]]]]]; hnf;
    first [exact I | intros _; eexists; reflexivity].
Qed.

(** Without detail pages, the list driver accepts every entry it can read
    whose key is not empty and not in the dedup set: the record is added to
    the result under that key, and nothing is raised on the way. *)
Theorem top250_item_accepts save_immediately t st e key :
  movie_key (movie_info e) = Ok key →
  key ≠ [] →
  key ∉ existing_movies st →
  ∃ fs' movie,
    top250_item parse_movie_detail save_immediately false t st (Some e)
    = inl (Crawl ({[key]} ∪ existing_movies st) fs' (movies st ++ [movie]))
    ∧ movie_key movie = Ok key.
Proof.
  intros Hkey Hne Hnew. unfold top250_item, parse_movie_item.
  destruct (process_movie_with_detail_total (stored st) (movie_info e) false no_targets
              (movie_info_text e)) as (fs1 & parsed & Hp1 & Htext & Hnonempty).
  rewrite Hp1.
  assert (truthy (VDict parsed) = true) as -> by (by destruct parsed).
  rewrite (process_movie_with_detail_key _ _ _ _ _ _ _ _ Hp1), Hkey.
  assert (nonempty key = true) as -> by (by destruct key).
  rewrite bool_decide_eq_true_2 by done. cbn [andb].
  destruct (process_movie_with_detail_total (stored st) parsed save_immediately t Htext)
    as (fs' & movie & Hp2 & _ & _).
  rewrite Hp2. exists fs', movie. split; [done|].
  rewrite (process_movie_with_detail_key _ _ _ _ _ _ _ _ Hp2).
  by rewrite (process_movie_with_detail_key _ _ _ _ _ _ _ _ Hp1).
Qed.
End Accepted.

Section AcceptedApi.
Context `{RT : Runtime}.
Variable parse_movie_detail : value → list (list N * value).
Implicit Types (movie : list (list N * value)) (st : crawl_state).

Lemma api_movie_text kind item movie k :
  api_movie kind item = Ok (Some movie) →
  k ∈ text_fields → text_or_falsy (dget k movie).
Proof.
  intros (id & z & title & rating & count & poster & _ & _ & ->)%api_movie_shape Hk.
  unfold text_fields in Hk. rewrite !elem_of_cons, elem_of_nil in Hk.
  destruct Hk as [->|[->|[->|[->|[->|[->|[->|[->|[]]]]]]]]]; hnf;
    first [exact I | intros _; eexists; reflexivity].
Qed.

(** Without detail pages, an API driver accepts every item it makes a
    record of whose key is not in the dedup set: the record is added to the
    result, with the category of the run, and counted for the page. *)
Theorem api_item_accepts run st page_count item movie key :
  api_fetch_detail run = false →
  api_movie (api_source run) item = Ok (Some movie) →
  movie_key movie = Ok key →
  key ∉ existing_movies st →
  ∃ fs' movie',
    api_item parse_movie_detail run (st, page_count) item
    = (Crawl ({[key]} ∪ existing_movies st) fs'
         (movies st ++ [dset (py "category") (VStr (category_name run)) movie']),
       S page_count)
    ∧ movie_key movie' = Ok key.
Proof.
  intros Hdetail Hmovie Hkey Hnew. unfold api_item. rewrite Hmovie, Hkey, Hdetail.
  destruct (api_movie_key _ _ _ Hmovie) as (key' & Hkey' & Hne).
  assert (key' = key) as -> by congruence.
  assert (nonempty key = true) as -> by (by destruct key).
  rewrite bool_decide_eq_true_2 by done. cbn [andb].
  destruct (process_movie_with_detail_total parse_movie_detail (stored st) movie
              (api_save_immediately run) (api_targets run)
              (fun k => api_movie_text _ _ _ k Hmovie)) as (fs' & movie' & Hp & _ & _).
  rewrite Hp. exists fs', movie'. split; [done|].
  by rewrite (process_movie_with_detail_key _ _ _ _ _ _ _ _ Hp).
Qed.
End AcceptedApi.

(** ** The statements on the batch writers and on acceptance, at concrete
    inputs *)

Section BatchInstances.
Local Existing Instance Plain.runtime.

Lemma save_to_json_writes_array_witness :
  ∃ normalized,
    Forall2 (fun movie n => normalize_movie_data movie = Ok n) [record_a; record_b]
      normalized
    ∧ json_files
        (Files ∅ {[ py "movies.json"
                    := Decoded (VList [VDict record_a_normalized;
                                       VDict record_b_normalized]) ]} ∅)
        !! py "movies.json"
      = Some (Decoded (VList (VDict <$> normalized))).
Proof.
  destruct (save_to_json_writes_array broken_json [record_a; record_b]
              (py "movies.json")
              (Files ∅ {[ py "movies.json"
                          := Decoded (VList [VDict record_a_normalized;
                                             VDict record_b_normalized]) ]} ∅))
    as (normalized & Hall & Hfile & _); [reflexivity|].
  by exists normalized.
Defined.

Lemma save_to_json_first_failure_witness :
  ∃ before movie after,
    [record_a; actors_as_list; record_b] = before ++ movie :: after
    ∧ (∃ normalized,
         Forall2 (fun movie n => normalize_movie_data movie = Ok n) before normalized)
    ∧ normalize_movie_data movie = Raise AttributeError.
Proof.
  apply (save_to_json_first_failure no_files [record_a; actors_as_list; record_b]
           (py "movies.json")).
  reflexivity.
Defined.

Lemma save_each_is_save_to_json_witness :
  ∃ fs2, save_to_json no_files [record_a; record_b] (py "movies.json") = inr fs2
         ∧ json_files
             (write_json (Some (py "movies.json")) record_b_normalized
                (write_json (Some (py "movies.json")) record_a_normalized no_files))
             !! py "movies.json"
           = json_files fs2 !! py "movies.json".
Proof.
  apply (save_each_is_save_to_json no_files [record_a; record_b] movies_json);
    [reflexivity|discriminate|discriminate|reflexivity|reflexivity].
Defined.

Lemma save_to_csv_header_covers_witness :
  ∃ normalized header others,
    Forall2 (fun movie n => normalize_movie_data movie = Ok n) [record_a; record_b]
      normalized
    ∧ csv_files (Files ∅ ∅ {[ py "movies.csv" := csv_of_a_b ]}) !! py "movies.csv"
      = Some (header :: (csv_row header <$> normalized))
    ∧ header
      = filter (fun field => existsb (has field) normalized = true) FIELD_ORDER
        ++ others
    ∧ (∀ k, k ∈ others → k ∉ FIELD_ORDER)
    ∧ NoDup header
    ∧ (∀ k, k ∈ header ↔ ∃ n, n ∈ normalized ∧ k ∈ n.*1).
Proof.
  apply (save_to_csv_header_covers remove_dups one_csv [record_a; record_b]
           (py "movies.csv")).
  - intros keys x. apply elem_of_remove_dups.
  - discriminate.
  - reflexivity.
Defined.

Lemma save_to_csv_appends_rows_witness :
  ∃ rows,
    csv_files
      (Files ∅ ∅
         {[ py "movies.csv"
            := csv_after_a ++ [[py "0"; py "B"; py "9.0"; py "0"; py "b.jpg"]] ]})
      !! py "movies.csv"
    = Some (csv_after_a ++ rows)
    ∧ length rows = length [record_b].
Proof.
  destruct (save_to_csv_appends_rows remove_dups) as [_ Happend].
  apply (Happend one_csv [record_b] (py "movies.csv")); reflexivity.
Defined.

Lemma top250_item_accepts_witness :
  ∃ fs' movie,
    top250_item no_detail false false no_targets empty_crawl (Some odd_entry)
    = inl (Crawl ({[ py "https://example.com/x" ]} ∪ existing_movies empty_crawl) fs'
             (movies empty_crawl ++ [movie]))
    ∧ movie_key movie = Ok (py "https://example.com/x").
Proof.
  apply top250_item_accepts; [reflexivity|discriminate|apply not_elem_of_empty].
Defined.

Lemma api_item_accepts_witness :
  ∃ fs' movie',
    api_item no_detail plain_run (empty_crawl, O) (api_item_of "1" "A")
    = (Crawl ({[ py "https://movie.douban.com/subject/1/" ]}
              ∪ existing_movies empty_crawl) fs'
         (movies empty_crawl
          ++ [dset (py "category") (VStr (category_name plain_run)) movie']),
       1%nat)
    ∧ movie_key movie' = Ok (py "https://movie.douban.com/subject/1/").
Proof.
  apply (api_item_accepts no_detail plain_run empty_crawl O (api_item_of "1" "A")
           item_1_record);
    [reflexivity|reflexivity|reflexivity|apply not_elem_of_empty].
Defined.
End BatchInstances.

(** ** The page of classic movies *)

Section ClassicFacts.
Context `{RT : Runtime}.
Variable parse_movie_detail : value → list (list N * value).
Implicit Types (st : crawl_state) (before : gset (list N)).

Lemma classic_item_invariant before fs st item :
  classic_invariant before fs st →
  classic_invariant before fs (after_item (classic_item parse_movie_detail st item)).
Proof.
  intros (Hdedup & Hfs & Hcategory). unfold classic_item.
  match goal with
  | |- context [match ?m with Some _ => _ | None => inl st end] =>
    destruct m as [movie|]; [|done]
  end.
  destruct (truthy (VDict movie)); [|done].
  destruct (movie_key movie) as [key|] eqn:Hkey; [|done].
  destruct (nonempty key) eqn:Hne; [|done].
  destruct (bool_decide (key ∉ existing_movies st)) eqn:Hnew; [|done].
  apply bool_decide_eq_true_1 in Hnew. simpl. split_and!; simpl.
  - apply (dedup_invariant_step before st); [done|].
    apply (item_accepted _ _ (dset (py "category") (VStr (py "经典电影")) movie) key);
      simpl; [done| |by destruct key|done|done].
    rewrite <-Hkey. apply movie_key_ext; rewrite dget_dset_ne; first [done | key_ne].
  - done.
  - apply Forall_app. split; [done|]. repeat constructor. apply dget_dset_eq.
Qed.

Lemma classic_items_invariant before fs st items :
  classic_invariant before fs st →
  classic_invariant before fs (classic_items parse_movie_detail st items).
Proof.
  revert st. induction items as [|item items IH]; intros st Hinv; [done|].
  cbn [classic_items].
  pose proof (classic_item_invariant before fs st item Hinv) as Hitem.
  destruct (classic_item _ _ _) as [st'|st']; simpl in Hitem; [by apply IH|done].
Qed.

(** [crawl_classic_movies] keeps the rule of the dedup set: its records
    have one key each, no two the same, none empty and none in the set at
    the start, and all in the set at the end.  It writes no file, and each
    of its records has the category of the classic movies. *)
Theorem crawl_classic_movies_dedups site existing fs :
  (∃ keys,
     keyed_once existing
       (existing_movies (crawl_classic_movies parse_movie_detail site existing fs))
       (movies (crawl_classic_movies parse_movie_detail site existing fs)) keys)
  ∧ stored (crawl_classic_movies parse_movie_detail site existing fs) = fs
  ∧ ∀ movie,
      movie ∈ movies (crawl_classic_movies parse_movie_detail site existing fs) →
      dget (py "category") movie = Some (VStr (py "经典电影")).
Proof.
  assert (classic_invariant existing fs
            (crawl_classic_movies parse_movie_detail site existing fs))
    as ((_ & Hkeys) & Hfs & Hcategory).
  { assert (classic_invariant existing fs (Crawl existing fs [])) as Hstart.
    { split_and!; [apply dedup_invariant_start|done|constructor]. }
    unfold crawl_classic_movies. destruct site as [|items]; [done|].
    by apply classic_items_invariant. }
  split_and!; [done..|]. by apply Forall_forall.
Qed.
End ClassicFacts.

Section ClassicInstances.
Local Existing Instance Plain.runtime.

Lemma crawl_classic_movies_dedups_witness :
  stored (crawl_classic_movies no_detail (Page [(Some odd_entry, None)]) ∅ one_line)
  = one_line.
Proof.
  destruct (crawl_classic_movies_dedups no_detail (Page [(Some odd_entry, None)])
              ∅ one_line) as (_ & Hstored & _).
  exact Hstored.
Defined.
End ClassicInstances.

(** ** Identifiers that cannot be resolved *)

Section Identifiers.
Context `{RT : Runtime}.
Variable parse_movie_detail : value → list (list N * value).
Implicit Types (movie : list (list N * value)) (st : crawl_state).

(** Without detail pages, the list driver reads every entry, and the
    record of an entry whose link holds no identifier has the
    identifier 0. *)
Lemma parse_movie_item_reads fs e :
  ∃ parsed,
    parse_movie_item parse_movie_detail fs (Some e) false = Some parsed
    ∧ (∀ k, k ∈ text_fields → text_or_falsy (dget k parsed))
    ∧ parsed ≠ [].
Proof.
  unfold parse_movie_item.
  destruct (process_movie_with_detail_total parse_movie_detail fs (movie_info e) false
              no_targets (movie_info_text e)) as (fs1 & parsed & Hp & Htext & Hne).
  rewrite Hp. by exists parsed.
Qed.

End Identifiers.

Section IdentifierInstances.
Local Existing Instance Plain.runtime.

End IdentifierInstances.
